(** * Reacher / Grab: the request lifecycle engine

    A shallow embedding of [grab/base.py] (the [Grab] session and its
    redirect loop), [grab/client.py] (the hook-pipeline client) and the
    parts of [grab/transport.py] that read the body and broadcast the
    session cookies, together with the properties of the specification
    that speak about them.

    Python objects that are shared by reference (the config [dict] and
    the mutable option values stored in it) live in a store of objects;
    everything that raises returns a [result]; the session under
    execution and the network are threaded through a state monad. *)

From Stdlib Require Import ZArith String Ascii List Bool Lia.
From stdpp Require Import base list strings.
Import ListNotations.

Local Open Scope string_scope.

(** * Insertion-ordered dictionaries

    A Python [dict] keeps its keys in insertion order; assigning to a key
    that is present keeps its position, assigning to a new key appends. *)

Section odict.
Context {V : Type}.

Definition odict := list (string * V).

Fixpoint od_get (k : string) (d : odict) : option V :=
  match d with
  | [] => None
  | (k', v) :: d' => if String.eqb k k' then Some v else od_get k d'
  end.

Fixpoint od_set (k : string) (v : V) (d : odict) : odict :=
  match d with
  | [] => [(k, v)]
  | (k', v') :: d' =>
      if String.eqb k k' then (k, v) :: d' else (k', v') :: od_set k v d'
  end.

Definition od_mem (k : string) (d : odict) : bool :=
  match od_get k d with Some _ => true | None => false end.

Definition od_keys (d : odict) : list string := map fst d.

(** [d.update(kw)] *)
Definition od_update (kw : odict) (d : odict) : odict :=
  fold_left (fun acc kv => od_set (fst kv) (snd kv) acc) kw d.

End odict.

Arguments odict : clear implicits.

(** * Cookies *)

(** Modelled from the spec: [grab/cookie.py] ([CookieManager]) is not among
    the source files.  The spec gives the cookie record as (name, value,
    domain, path, expiry, secure flag) and the jar as a collection of
    cookies keyed by (name, domain, path) with insertion, lookup for a
    request and import/export as a flat list.  The jar that
    [CookieManager] wraps is [http.cookiejar.CookieJar], which keys its
    cookies by domain, then path, then name, and iterates in that order. *)

Record Cookie := mkCookie {
  c_name : string;
  c_value : string;
  c_domain : string;
  c_path : string;
  c_expires : option Z;
  c_secure : bool
}.

Definition CookieJar := odict (odict (odict Cookie)).

(** [CookieJar.set_cookie] *)
Definition set_cookie (c : Cookie) (jar : CookieJar) : CookieJar :=
  let c2 := default [] (od_get (c_domain c) jar) in
  let c3 := default [] (od_get (c_path c) c2) in
  od_set (c_domain c) (od_set (c_path c) (od_set (c_name c) c c3) c2) jar.

(** [list(jar)]: every cookie, domain by domain, path by path. *)
Definition jar_cookies (jar : CookieJar) : list Cookie :=
  flat_map (fun dom => flat_map (fun pth => map snd (snd pth)) (snd dom)) jar.

(** [CookieManager.from_cookie_list] *)
Definition from_cookie_list (cs : list Cookie) : CookieJar :=
  fold_left (fun jar c => set_cookie c jar) cs [].

(** [CookieManager.update]: absorb the cookies of another jar. *)
Definition jar_update (other : CookieJar) (jar : CookieJar) : CookieJar :=
  fold_left (fun j c => set_cookie c j) (jar_cookies other) jar.

(** * Values, objects and the store *)

Inductive val :=
| VNone
| VBool (b : bool)
| VInt (n : Z)
| VStr (s : string)
| VCookie (c : Cookie)
| VRef (l : nat).

Inductive obj :=
| ODict (d : odict val)
| OList (l : list val).

Definition dict := odict val.

(** The exceptions of [grab.error] that the engine raises or lets through,
    the urllib3 ones that [wrap_transport_error] re-classifies, and the
    built-in ones of the interpreter. *)
Inductive grab_error :=
| GrabMisuseError (msg : string)
| GrabTooManyRedirectsError
| GrabTimeoutError
| GrabConnectionError (what : string)
| GrabInvalidUrl
| GrabInvalidResponse.

Inductive urllib3_error :=
| ReadTimeoutError
| ConnectTimeoutError
| ProtocolError
| SSLError
| LocationParseError.

Inductive exn :=
| GrabError (e : grab_error)
| Urllib3Error (e : urllib3_error)
| SslSSLError
| KeyError (key : string)
| TypeError
| AttributeError
| SystemError.

Inductive result (A : Type) :=
| Ok (a : A)
| Raise (e : exn).
Arguments Ok {A} a.
Arguments Raise {A} e.

(** Truth value of an object, given the store ([bool(v)]). *)
Definition truthy (h : list obj) (v : val) : bool :=
  match v with
  | VNone => false
  | VBool b => b
  | VInt n => negb (Z.eqb n 0)
  | VStr s => negb (String.eqb s "")
  | VCookie _ => true
  | VRef l =>
      match h !! l with
      | Some (ODict d) => negb (Nat.eqb (length d) 0)
      | Some (OList l) => negb (Nat.eqb (length l) 0)
      | None => false
      end
  end.

(** * Documents, proxies, the transport and the session *)

(** [str.lower] on ASCII, for the case-insensitive header lookup of
    [email.message.Message]. *)
Definition ascii_lower (c : ascii) : ascii :=
  let n := nat_of_ascii c in
  if andb (Nat.leb 65 n) (Nat.leb n 90) then ascii_of_nat (n + 32) else c.

Fixpoint str_lower (s : string) : string :=
  match s with
  | EmptyString => EmptyString
  | String c s' => String (ascii_lower c) (str_lower s')
  end.

(** [Message.__getitem__]: the first header of that name, whatever its
    case; [None] when there is none. *)
Fixpoint header_get (name : string) (hs : list (string * string)) : option string :=
  match hs with
  | [] => None
  | (k, v) :: hs' =>
      if String.eqb (str_lower k) (str_lower name) then Some v else header_get name hs'
  end.

Record Document := mkDocument {
  code : Z;
  headers : list (string * string);
  body : list Byte.byte;
  url : string;
  doc_cookies : CookieJar;
  timestamp : option Z
}.

Definition set_timestamp (t : Z) (d : Document) : Document :=
  mkDocument (code d) (headers d) (body d) (url d) (doc_cookies d) (Some t).

(** A server of the proxy pool: [get_address()], [get_userpwd()],
    [proxy_type]. *)
Record Proxy := mkProxy {
  get_address : string;
  get_userpwd : option string;
  proxy_type : option string
}.

(** The descriptor of one attempt, as [transport.process_config] builds it
    from the config: target, method and payload (the spec's
    RequestDescriptor). *)
Record Descriptor := mkDescriptor {
  req_url : val;
  req_method : string;
  req_post : val;
  req_multipart_post : val
}.

(** What one attempt runs into.  The transport is the collaborator behind
    [process_config], [request] and [prepare_response]; the network side of
    it is scripted, one entry per attempt. *)
Inductive reply :=
| RejectsConfig (e : exn)    (* [transport.process_config] raises *)
| RequestRaises (e : exn)    (* [transport.request] raises *)
| ResponseRaises (e : exn)   (* [transport.prepare_response] raises *)
| Responds (d : Document).   (* the exchange completes *)

Record Transport := mkTransport {
  t_request : option (Descriptor * reply);   (* [_request], with what awaits it *)
  t_response : bool                       (* [_response] is set *)
}.

Record Grab := mkGrab {
  config : nat;                      (* reference to the config dict *)
  cookies : CookieJar;
  doc : option Document;
  request_method : option string;
  proxylist : list Proxy;
  transport : Transport
}.

(** One line of the [grab.network] log: method, url and proxy. *)
Record log_line := mkLogLine {
  log_method : string;
  log_url : val;
  log_proxy : val
}.

Record state := mkState {
  heap : list obj;         (* the objects shared by reference *)
  self : Grab;             (* the session whose method runs *)
  wire : list reply;       (* what the next attempts run into *)
  sent : list Descriptor;     (* the requests put on the wire, oldest first *)
  netlog : list log_line;  (* the network log, oldest first *)
  utcnow : Z;              (* the clock *)
  entropy : list nat       (* the draws of [system_random] still to come *)
}.

Definition set_heap (h : list obj) (s : state) : state :=
  mkState h (self s) (wire s) (sent s) (netlog s) (utcnow s) (entropy s).
Definition set_self (g : Grab) (s : state) : state :=
  mkState (heap s) g (wire s) (sent s) (netlog s) (utcnow s) (entropy s).
Definition set_wire (w : list reply) (s : state) : state :=
  mkState (heap s) (self s) w (sent s) (netlog s) (utcnow s) (entropy s).
Definition set_sent (l : list Descriptor) (s : state) : state :=
  mkState (heap s) (self s) (wire s) l (netlog s) (utcnow s) (entropy s).
Definition set_netlog (l : list log_line) (s : state) : state :=
  mkState (heap s) (self s) (wire s) (sent s) l (utcnow s) (entropy s).
Definition set_entropy (e : list nat) (s : state) : state :=
  mkState (heap s) (self s) (wire s) (sent s) (netlog s) (utcnow s) e.

Definition set_config (c : nat) (g : Grab) : Grab :=
  mkGrab c (cookies g) (doc g) (request_method g) (proxylist g) (transport g).
Definition set_cookies (j : CookieJar) (g : Grab) : Grab :=
  mkGrab (config g) j (doc g) (request_method g) (proxylist g) (transport g).
Definition set_doc (d : option Document) (g : Grab) : Grab :=
  mkGrab (config g) (cookies g) d (request_method g) (proxylist g) (transport g).
Definition set_request_method (m : option string) (g : Grab) : Grab :=
  mkGrab (config g) (cookies g) (doc g) m (proxylist g) (transport g).
Definition set_transport (t : Transport) (g : Grab) : Grab :=
  mkGrab (config g) (cookies g) (doc g) (request_method g) (proxylist g) t.

(** * The monad: state that survives an exception

    [ST S] threads a state of type [S]; [M] is the monad of the session. *)

Definition ST (S A : Type) : Type := S -> result A * S.
Definition M : Type -> Type := ST state.

Definition ret {S A} (a : A) : ST S A := fun s => (Ok a, s).
Definition bind {S A B} (m : ST S A) (f : A -> ST S B) : ST S B := fun s =>
  match m s with
  | (Ok a, s') => f a s'
  | (Raise e, s') => (Raise e, s')
  end.

Declare Scope M_scope.
Delimit Scope M_scope with M.
Notation "x ← y ; z" := (bind y (fun x => z))
  (at level 20, y at level 100, z at level 200, only parsing) : M_scope.
Notation "' x ← y ; z" := (bind y (fun x => z))
  (at level 20, x pattern, y at level 100, z at level 200, only parsing) : M_scope.
Notation "x ;; z" := (bind x (fun _ => z))
  (at level 100, z at level 200, only parsing, right associativity) : M_scope.
Notation "'mret' x" := (ret x) (at level 10, only parsing) : M_scope.
Local Open Scope M_scope.

Definition raise {S A} (e : exn) : ST S A := fun s => (Raise e, s).
Definition get {S} : ST S S := fun s => (Ok s, s).
Definition modify {S} (f : S -> S) : ST S unit := fun s => (Ok tt, f s).

Fixpoint for_each {S A} (xs : list A) (f : A -> ST S unit) : ST S unit :=
  match xs with
  | [] => mret tt
  | x :: xs' => f x;; for_each xs' f
  end.

(** ** Objects *)

Definition load (l : nat) : M obj := fun s =>
  match heap s !! l with
  | Some o => (Ok o, s)
  | None => (Raise SystemError, s)
  end.

Definition store (l : nat) (o : obj) : M unit :=
  modify (fun s => set_heap (<[l := o]> (heap s)) s).

Definition alloc (o : obj) : M nat := fun s =>
  (Ok (length (heap s)), set_heap (heap s ++ [o]) s).

Definition load_dict (l : nat) : M dict :=
  o ← load l;
  match o with
  | ODict d => mret d
  | OList _ => raise TypeError
  end.

(** [d[key]] *)
Definition getitem (l : nat) (key : string) : M val :=
  d ← load_dict l;
  match od_get key d with
  | Some v => mret v
  | None => raise (KeyError key)
  end.

(** [d.get(key)] *)
Definition dict_get (l : nat) (key : string) : M val :=
  d ← load_dict l;
  mret (default VNone (od_get key d)).

(** [d[key] = v] *)
Definition setitem (l : nat) (key : string) (v : val) : M unit :=
  d ← load_dict l;
  store l (ODict (od_set key v d)).

(** [bool(v)] *)
Definition is_true (v : val) : M bool :=
  s ← get; mret (truthy (heap s) v).

(** [copy.copy]: a scalar is returned as it is; a container is copied one
    level deep, into a new object with the same items. *)
Definition copy (v : val) : M val :=
  match v with
  | VRef l => o ← load l; l' ← alloc o; mret (VRef l')
  | _ => mret v
  end.

(** * The collaborators of the session

    Library functions that the engine calls through a narrow interface:
    [urllib.parse.urljoin] on two non-empty strings,
    [grab.util.html.find_base_url] on a document body,
    [transport.detect_request_method] on the config (not among the source
    files) and [user_agent.generate_user_agent]. *)
Class Library := {
  urljoin : string -> string -> string;
  find_base_url : list Byte.byte -> option string;
  detect_request_method : list obj -> dict -> string;
  generate_user_agent : string
}.

(** * [grab/base.py] *)

Definition MUTABLE_CONFIG_KEYS : list string :=
  ["post"; "multipart_post"; "headers"; "cookies"].

Definition copy_object (l : nat) : M nat :=
  o ← load l; alloc o.

(** [copy_config]: the dict is copied, then each mutable option value is
    replaced by a copy of the original's. *)
Definition copy_config (config : nat) : M nat :=
  cloned_config ← copy_object config;
  for_each MUTABLE_CONFIG_KEYS (fun key =>
    v ← getitem config key;
    v' ← copy v;
    setitem cloned_config key v');;
  mret cloned_config.

Definition default_config : M nat :=
  common_headers ← alloc (ODict []);
  st ← alloc (ODict []);
  alloc (ODict
    [ ("method", VNone); ("url", VNone); ("proxy", VNone);
      ("proxy_type", VNone); ("proxy_userpwd", VNone); ("headers", VNone);
      ("cookies", VNone); ("timeout", VNone); ("encoding", VNone);
      ("post", VNone); ("multipart_post", VNone);
      ("redirect_limit", VInt 10); ("follow_location", VBool true);
      ("document_type", VStr "html");
      ("reuse_cookies", VBool true); ("common_headers", VRef common_headers);
      ("proxy_auto_change", VBool true); ("state", VRef st) ]).

(** ** Attributes of [self] *)

Definition get_self : M Grab := fun s => (Ok (self s), s).
Definition update_self (f : Grab -> Grab) : M unit :=
  modify (fun s => set_self (f (self s)) s).

(** [self.config[key]], [self.config.get(key)], [self.config[key] = v] *)
Definition config_getitem (key : string) : M val :=
  g ← get_self; getitem (config g) key.
Definition config_get (key : string) : M val :=
  g ← get_self; dict_get (config g) key.
Definition config_setitem (key : string) (v : val) : M unit :=
  g ← get_self; setitem (config g) key v.

(** [other.method(...)]: run a method with [other] as its [self]. *)
Definition on {A} (other : Grab) (m : M A) : M (A * Grab) := fun s =>
  let me := self s in
  match m (set_self other s) with
  | (Ok a, s') => (Ok (a, self s'), set_self me s')
  | (Raise e, s') => (Raise e, set_self me s')
  end.

(** ** Randomness *)

Definition draw : M nat := fun s =>
  match entropy s with
  | [] => (Ok 0, s)
  | e :: es => (Ok e, set_entropy es s)
  end.

(** [system_random.randint(a, b)] *)
Definition randint (a b : nat) : M nat :=
  e ← draw; mret (a + e mod (b - a + 1)).

Definition digit (n : nat) : string :=
  String (ascii_of_nat (48 + n)) EmptyString.

(** ** The transport *)

(** [transport.reset] *)
Definition transport_reset : M unit :=
  update_self (set_transport (mkTransport None false)).

(** [transport.process_config]: builds the descriptor of the next attempt
    from the config, or refuses the config (an invalid url, a POST without
    payload, a cookies option of the wrong shape). *)
Definition transport_process_config `{Library} : M unit :=
  u ← config_getitem "url";
  p ← config_getitem "post";
  mp ← config_getitem "multipart_post";
  g ← get_self;
  d ← load_dict (config g);
  s ← get;
  let req := mkDescriptor u (detect_request_method (heap s) d) p mp in
  match wire s with
  | RejectsConfig e :: rest => modify (set_wire rest);; raise e
  | r :: rest =>
      modify (set_wire rest);;
      update_self (set_transport (mkTransport (Some (req, r)) false))
  | [] =>
      update_self (set_transport (mkTransport
        (Some (req, RequestRaises (GrabError (GrabConnectionError "ProtocolError")))) false))
  end.

(** [wrap_transport_error]: the urllib3 faults leave as Grab errors. *)
Definition reclassify (e : exn) : exn :=
  match e with
  | Urllib3Error ReadTimeoutError => GrabError GrabTimeoutError
  | Urllib3Error ConnectTimeoutError =>
      GrabError (GrabConnectionError "ConnectTimeoutError")
  | Urllib3Error ProtocolError => GrabError (GrabConnectionError "ProtocolError")
  | Urllib3Error SSLError => GrabError (GrabConnectionError "SSLError")
  | SslSSLError => GrabError (GrabConnectionError "SSLError")
  | e => e
  end.

Definition wrap_transport_error {A} (m : M A) : M A := fun s =>
  match m s with
  | (Raise e, s') => (Raise (reclassify e), s')
  | r => r
  end.

(** What leaves [transport.request] when [urlopen] raises [e]: a
    [LocationParseError] is turned into [GrabInvalidResponse] first. *)
Definition request_error (e : exn) : exn :=
  match e with
  | Urllib3Error LocationParseError => GrabError GrabInvalidResponse
  | e => reclassify e
  end.

(** [transport.request]: puts the descriptor on the wire. *)
Definition transport_request : M unit :=
  g ← get_self;
  match t_request (transport g) with
  | None => raise AttributeError
  | Some (req, r) =>
      modify (fun s => set_sent (sent s ++ [req]) s);;
      wrap_transport_error
        (match r with
         | RequestRaises (Urllib3Error LocationParseError) =>
             raise (GrabError GrabInvalidResponse)
         | RequestRaises e => raise e
         | _ => mret tt
         end);;
      update_self (set_transport (mkTransport (Some (req, r)) true))
  end.

(** [transport.prepare_response] *)
Definition transport_prepare_response : M (option Document) :=
  g ← get_self;
  if negb (t_response (transport g)) then mret None
  else match t_request (transport g) with
       | Some (_, Responds d) => mret (Some d)
       | Some (_, ResponseRaises e) => raise e
       | _ => raise AttributeError
       end.

(** ** The session *)

(** [Grab.reset] *)
Definition reset : M unit :=
  update_self (set_request_method None);;
  transport_reset.

(** [urllib.parse.urljoin]: an empty base gives the url, an empty url the
    base; two strings are joined; anything else is a type error. *)
Definition py_urljoin `{Library} (base u : val) : M val :=
  has_base ← is_true base;
  if negb has_base then mret u else
  has_url ← is_true u;
  if negb has_url then mret base else
  match base, u with
  | VStr b, VStr r => mret (VStr (urljoin b r))
  | _, _ => raise TypeError
  end.

(** [Grab.make_url_absolute] *)
Definition make_url_absolute `{Library} (u : val) (resolve_base : bool) : M val :=
  cfg_url ← config_getitem "url";
  has_url ← is_true cfg_url;
  if has_url then
    g ← get_self;
    match (if resolve_base then doc g else None) with
    | Some d =>
        match find_base_url (body d) with
        | Some base_url =>
            if negb (String.eqb base_url "") then py_urljoin (VStr base_url) u
            else py_urljoin cfg_url u
        | None => py_urljoin cfg_url u
        end
    | None => py_urljoin cfg_url u
    end
  else mret u.

(** [Grab.setup] *)
Definition setup `{Library} (kwargs : dict) : M unit :=
  g ← get_self;
  for_each (od_keys kwargs) (fun key =>
    d ← load_dict (config g);
    if negb (od_mem key d) then
      raise (GrabError (GrabMisuseError ("Unknown option: " ++ key)))
    else mret tt);;
  kwargs ← match od_get "url" kwargs with
           | Some u =>
               cfg_url ← config_get "url";
               has_url ← is_true cfg_url;
               if has_url then
                 u' ← make_url_absolute u false;
                 mret (od_set "url" u' kwargs)
               else mret kwargs
           | None => mret kwargs
           end;
  d ← load_dict (config g);
  store (config g) (ODict (od_update kwargs d)).

(** [Grab.reset_temporary_options] *)
Definition reset_temporary_options : M unit :=
  config_setitem "post" VNone;;
  config_setitem "multipart_post" VNone;;
  config_setitem "method" VNone.

Definition opt_str (o : option string) : val :=
  match o with Some s => VStr s | None => VNone end.

(** [Grab.change_proxy] with [random=True], the way [prepare_request]
    calls it: a server of the pool drawn at random. *)
Definition change_proxy `{Library} : M unit :=
  g ← get_self;
  match proxylist g with
  | [] => mret tt
  | p0 :: _ =>
      i ← draw;
      let proxy := nth (i mod length (proxylist g)) (proxylist g) p0 in
      match proxy_type proxy with
      | None =>
          raise (GrabError (GrabMisuseError
            "Could not use proxy without defined proxy type"))
      | Some ty =>
          setup [ ("proxy", VStr (get_address proxy));
                  ("proxy_userpwd", opt_str (get_userpwd proxy));
                  ("proxy_type", VStr ty) ]
      end
  end.

(** [Grab.prepare_request] *)
Definition prepare_request `{Library} (kwargs : dict) : M unit :=
  reset;;
  (match kwargs with [] => mret tt | _ => setup kwargs end);;
  g ← get_self;
  (match proxylist g with
   | [] => mret tt
   | _ =>
       auto_change ← config_getitem "proxy_auto_change";
       b ← is_true auto_change;
       if b then change_proxy else mret tt
   end);;
  g ← get_self;
  d ← load_dict (config g);
  s ← get;
  update_self (set_request_method (Some (detect_request_method (heap s) d)));;
  transport_process_config.

(** [Grab.log_request] *)
Definition log_request : M unit :=
  proxy ← config_getitem "proxy";
  has_proxy ← is_true proxy;
  (if has_proxy then
     config_getitem "proxy_type";; config_getitem "proxy_userpwd";; mret tt
   else mret tt);;
  g ← get_self;
  u ← config_getitem "url";
  let line := mkLogLine (default "GET" (request_method g)) u
                        (if has_proxy then proxy else VNone) in
  modify (fun s => set_netlog (netlog s ++ [line]) s).

(** [Grab.find_redirect_url] *)
Definition find_redirect_url (d : Document) : M (option string) :=
  follow ← config_getitem "follow_location";
  b ← is_true follow;
  if b && bool_decide (code d ∈ [301; 302; 303; 307; 308]%Z) then
    match header_get "Location" (headers d) with
    | Some loc => if negb (String.eqb loc "") then mret (Some loc) else mret None
    | None => mret None
    end
  else mret None.

(** [Grab.process_request_result] *)
Definition process_request_result : M Document :=
  now ← (s ← get; mret (utcnow s));
  reset_temporary_options;;
  d ← transport_prepare_response;
  update_self (set_doc d);;
  reuse ← config_getitem "reuse_cookies";
  b ← is_true reuse;
  match d with
  | None => raise AttributeError
  | Some d =>
      (if b then update_self (fun g => set_cookies (jar_update (doc_cookies d) (cookies g)) g)
       else mret tt);;
      let d' := set_timestamp now d in
      update_self (set_doc (Some d'));;
      mret d'
  end.

(** [redir_count > self.config["redirect_limit"]] *)
Definition exceeds (redir_count : Z) (limit : val) : M bool :=
  match limit with
  | VInt n => mret (n <? redir_count)%Z
  | VBool b => mret ((if b then 1 else 0) <? redir_count)%Z
  | _ => raise TypeError
  end.

(** [try: self.transport.request() except GrabError: ...; raise] *)
Definition try_transport_request : M unit := fun s =>
  match transport_request s with
  | (Raise (GrabError e), s') =>
      (reset_temporary_options;; raise (GrabError e)) s'
  | r => r
  end.

(** The [while True] loop of [Grab.request]; [None] when the fuel runs
    out before the loop ends. *)
Fixpoint request_loop `{Library} (fuel : nat) (redir_count : Z) : M (option Document) :=
  match fuel with
  | O => mret None
  | S fuel' =>
      log_request;;
      try_transport_request;;
      d ← wrap_transport_error process_request_result;
      redir_url ← find_redirect_url d;
      match redir_url with
      | Some redir_url =>
          let redir_count := (redir_count + 1)%Z in
          limit ← config_getitem "redirect_limit";
          over ← exceeds redir_count limit;
          if over then raise (GrabError GrabTooManyRedirectsError)
          else
            u ← make_url_absolute (VStr redir_url) false;
            prepare_request [("url", u)];;
            request_loop fuel' redir_count
      | None => mret (Some d)
      end
  end.

(** [Grab.request] *)
Definition request `{Library} (fuel : nat) (u : option string) (kwargs : dict)
  : M (option Document) :=
  let kwargs := match u with
                | Some u => od_set "url" (VStr u) kwargs
                | None => kwargs
                end in
  prepare_request kwargs;;
  request_loop fuel 0.

(** [Grab.dump_config] *)
Definition dump_config : M nat :=
  g ← get_self;
  conf ← copy_config (config g);
  cookie_list ← alloc (OList (map VCookie (jar_cookies (cookies g))));
  st ← alloc (ODict [("cookiejar_cookies", VRef cookie_list)]);
  setitem conf "state" (VRef st);;
  mret conf.

(** The cookies of an iterable of cookie objects. *)
Fixpoint as_cookies (vs : list val) : M (list Cookie) :=
  match vs with
  | [] => mret []
  | VCookie c :: vs' => cs ← as_cookies vs'; mret (c :: cs)
  | _ :: _ => raise AttributeError
  end.

(** [CookieManager.from_cookie_list(v)] on whatever [v] is: a list of
    cookie objects in the session hand-off; iterating anything else fails
    at its first item. *)
Definition cookies_of_iterable (v : val) : M (list Cookie) :=
  match v with
  | VRef cl =>
      o ← load cl;
      match o with
      | OList vs => as_cookies vs
      | ODict [] => mret []
      | ODict (_ :: _) => raise AttributeError
      end
  | VStr EmptyString => mret []
  | VStr (String _ _) => raise AttributeError
  | _ => raise TypeError
  end.

(** [key in v] for a string key. *)
Definition contains_key (key : string) (v : val) : M bool :=
  match v with
  | VRef l =>
      o ← load l;
      match o with
      | ODict d => mret (od_mem key d)
      | OList vs =>
          mret (existsb (fun x => match x with
                                  | VStr s => String.eqb s key
                                  | _ => false
                                  end) vs)
      end
  | VStr s => mret (match String.index 0 key s with Some _ => true | None => false end)
  | _ => raise TypeError
  end.

(** [v[key]] for a string key: only a dict has one. *)
Definition subscript (v : val) (key : string) : M val :=
  match v with
  | VRef l => getitem l key
  | _ => raise TypeError
  end.

(** [Grab.load_config] *)
Definition load_config (conf : nat) : M unit :=
  c ← copy_config conf;
  update_self (set_config c);;
  st ← getitem conf "state";
  has ← contains_key "cookiejar_cookies" st;
  if negb has then mret tt else
  st ← getitem conf "state";
  v ← subscript st "cookiejar_cookies";
  cs ← cookies_of_iterable v;
  update_self (set_cookies (from_cookie_list cs)).

(** [Grab.common_headers] *)
Definition common_headers `{Library} : M nat :=
  q1 ← randint 2 5;
  q2 ← randint 5 9;
  q3 ← randint 5 7;
  alloc (ODict
    [ ("Accept", VStr ("text/xml,application/xml,application/xhtml+xml"
          ++ ",text/html;q=0.9,text/plain;q=0.8,image/png,*/*;q=0." ++ digit q1));
      ("Accept-Language", VStr ("en-us,en;q=0." ++ digit q2));
      ("Accept-Charset", VStr ("utf-8,windows-1251;q=0.7,*;q=0." ++ digit q3));
      ("Keep-Alive", VStr "300");
      ("User-Agent", VStr generate_user_agent) ]).

(** [Grab.__init__], given the transport instance. *)
Definition Grab_init `{Library} (t : Transport) (kwargs : dict) : M Grab :=
  c ← default_config;
  h ← common_headers;
  setitem c "common_headers" (VRef h);;
  '(_, g) ← on (mkGrab c [] None None [] t)
              (reset;; match kwargs with [] => mret tt | _ => setup kwargs end);
  mret g.

(** [Grab.clone].  [Grab(transport=self.transport)] hands the new session
    the transport instance of this one, and [__init__] resets it: the two
    sessions hold one transport, which is reset for both. *)
Definition clone `{Library} (kwargs : dict) : M Grab :=
  me ← get_self;
  grab ← Grab_init (transport me) [];
  update_self (set_transport (transport grab));;
  conf ← dump_config;
  let grab := set_config conf grab in
  let grab := set_doc (doc me) grab in
  let grab := mkGrab (config grab) (cookies grab) (doc grab) (request_method grab)
                     (proxylist me) (transport grab) in
  let grab := set_cookies (cookies me) grab in
  match kwargs with
  | [] => mret grab
  | _ => '(_, grab) ← on grab (setup kwargs); mret grab
  end.

(** * [grab/transport.py]: reading the body *)

Module Urllib3Transport.

(** The [Request] class of the transport. *)
Record Request := mkRequest {
  url : string;
  method : string;
  data : option (list Byte.byte);
  proxy : option string;
  proxy_userpwd : option string;
  proxy_type : option string;
  headers : list (string * string);
  body_maxsize : option Z;
  op_started : Z;
  timeout : option Z;
  connect_timeout : option Z;
  config_nobody : bool;
  config_body_maxsize : option Z;
  response_path : option string
}.

(** The response being read: the bytes the server still has to deliver, how
    many of them each coming [read] finds available (at least one: a read
    blocks until something arrives, and returns nothing only at the end of
    the body), and the clock that [time.time()] reads. *)
Record Socket := mkSocket {
  pending : list Byte.byte;
  bursts : list nat;
  time : nat -> Z;
  time_calls : nat
}.

(** [bool(n)] for an integer or [None]. *)
Definition truthy_int (o : option Z) : bool :=
  match o with
  | Some k => negb (k =? 0)%Z
  | None => false
  end.

(** [self._response.read(amt)] *)
Definition read (amt : Z) (sk : Socket) : list Byte.byte * Socket :=
  if (amt <? 0)%Z then
    (pending sk, mkSocket [] (tl (bursts sk)) (time sk) (time_calls sk))
  else
    let avail := match bursts sk with
                 | b :: _ => Nat.max 1 b
                 | [] => Z.to_nat amt
                 end in
    let k := Nat.min (Z.to_nat amt) avail in
    (firstn k (pending sk),
     mkSocket (skipn k (pending sk)) (tl (bursts sk)) (time sk) (time_calls sk)).

(** [time.time()] *)
Definition time_time (sk : Socket) : Z * Socket :=
  (time sk (time_calls sk),
   mkSocket (pending sk) (bursts sk) (time sk) (S (time_calls sk))).

(** [data[:k]] *)
Definition slice_to (k : Z) (l : list Byte.byte) : list Byte.byte :=
  if (0 <=? k)%Z then firstn (Z.to_nat k) l
  else firstn (length l - Z.to_nat (- k)) l.

(** The [while True] loop of [read_with_timeout]. *)
Fixpoint read_loop (fuel : nat) (req : Request) (chunk_size : Z)
    (bytes_read : Z) (chunks : list (list Byte.byte)) (sk : Socket)
  : option (result (list (list Byte.byte)) * Socket) :=
  match fuel with
  | O => None
  | S fuel' =>
      let (chunk, sk) := read chunk_size sk in
      match chunk with
      | [] => Some (Ok chunks, sk)
      | _ :: _ =>
          let bytes_read := (bytes_read + Z.of_nat (length chunk))%Z in
          let chunks := (chunks ++ [chunk])%list in
          let maxsize := config_body_maxsize req in
          if truthy_int maxsize && (default 0%Z maxsize <? bytes_read)%Z
          then Some (Ok chunks, sk)
          else if truthy_int (timeout req) then
            let (now, sk) := time_time sk in
            if (default 0%Z (timeout req) <? now - op_started req)%Z
            then Some (Raise (GrabError GrabTimeoutError), sk)
            else read_loop fuel' req chunk_size bytes_read chunks sk
          else read_loop fuel' req chunk_size bytes_read chunks sk
      end
  end.

(** [Urllib3Transport.read_with_timeout] *)
Definition read_with_timeout (req : Request) (sk : Socket)
  : option (result (list Byte.byte) * Socket) :=
  if config_nobody req then Some (Ok [], sk)
  else
    let maxsize := config_body_maxsize req in
    let default_chunk_size := 10000%Z in
    let chunk_size := if truthy_int maxsize
                      then Z.min default_chunk_size (default 0%Z maxsize + 1)
                      else default_chunk_size in
    match read_loop (S (length (pending sk))) req chunk_size 0 [] sk with
    | Some (Ok chunks, sk') =>
        let data := concat chunks in
        Some (Ok (if truthy_int maxsize then slice_to (default 0%Z maxsize) data
                  else data), sk')
    | Some (Raise e, sk') => Some (Raise e, sk')
    | None => None
    end.

(** The total timeout never expires while the body is read. *)
Definition in_time (req : Request) (sk : Socket) : Prop :=
  truthy_int (timeout req) = true ->
  forall i, (time sk i - op_started req <= default 0%Z (timeout req))%Z.

End Urllib3Transport.

(** * [grab/transport.py]: the cookies of a request *)

(** The collaborators of the cookie step: [urlsplit(url).hostname], the
    path and the scheme of a url, the cookie file of a path ([None] when it
    cannot be read) and [str] on a value that is not a string. *)
Class Platform := {
  urlsplit_hostname : string -> option string;
  request_path : string -> string;
  is_https : string -> bool;
  load_cookie_file : string -> option (list Cookie);
  py_str : val -> string
}.

Module CookieManager.

(** Modelled from the spec: [grab/cookie.py] is not among the source files.
    [set] inserts a cookie given by name, value and domain (path [/], no
    expiry, not secure); [get_cookie_header] gives the [Cookie] header for a
    request: the cookies of the jar that match its host (the host is the
    cookie's domain or a subdomain of it), its path, its scheme and the
    time, as [name=value] pairs; as [http.cookiejar] does, no header is
    computed for a request that already has one. *)

Definition set (name value domain : string) (jar : CookieJar) : CookieJar :=
  set_cookie (mkCookie name value domain "/" None false) jar.

Definition load_from_file (cs : list Cookie) (jar : CookieJar) : CookieJar :=
  fold_left (fun j c => set_cookie c j) cs jar.

Definition ends_with (s suffix : string) : bool :=
  let n := String.length s in
  let m := String.length suffix in
  Nat.leb m n && String.eqb (String.substring (n - m) m s) suffix.

Definition domain_match (host domain : string) : bool :=
  ends_with ("." ++ host) ("." ++ domain).

Definition is_expired (c : Cookie) (now : Z) : bool :=
  match c_expires c with
  | Some t => (t <=? now)%Z
  | None => false
  end.

Definition return_ok `{Platform} (u : string) (now : Z) (c : Cookie) : bool :=
  domain_match (default "" (urlsplit_hostname u)) (c_domain c)
  && String.prefix (c_path c) (request_path u)
  && (negb (c_secure c) || is_https u)
  && negb (is_expired c now).

Definition cookie_attr (c : Cookie) : string :=
  c_name c ++ "=" ++ c_value c.

Definition get_cookie_header `{Platform} (u : string) (request_headers : dict)
    (now : Z) (jar : CookieJar) : option string :=
  if od_mem "Cookie" request_headers then None
  else
    match map cookie_attr (List.filter (return_ok u now) (jar_cookies jar)) with
    | [] => None
    | attrs => Some (String.concat "; " attrs)
    end.

End CookieManager.

Module Urllib3TransportCookies.

(** The value of a configured cookie as text. *)
Definition text_of `{Platform} (v : val) : string :=
  match v with
  | VStr s => s
  | _ => py_str v
  end.

(** [Urllib3Transport.process_cookie_options] *)
Definition process_cookie_options `{Platform} (request_url : string)
    (request_headers : dict) : M (option string) :=
  cookiefile ← config_getitem "cookiefile";
  has_file ← is_true cookiefile;
  (if has_file then
     match cookiefile with
     | VStr path =>
         match load_cookie_file path with
         | Some cs =>
             update_self (fun g => set_cookies (CookieManager.load_from_file cs (cookies g)) g)
         | None => mret tt     (* [IOError]: logged *)
         end
     | _ => raise TypeError
     end
   else mret tt);;
  (match urlsplit_hostname request_url with
   | Some request_host =>
       if negb (String.eqb request_host "") then
         let request_host_no_www :=
           if String.prefix "www." request_host
           then String.substring 4 (String.length request_host - 4) request_host
           else request_host in
         cks ← config_getitem "cookies";
         has_cookies ← is_true cks;
         if has_cookies then
           match cks with
           | VRef l =>
               o ← load l;
               match o with
               | ODict items =>
                   for_each items (fun kv =>
                     update_self (fun g =>
                       set_cookies (CookieManager.set (fst kv) (text_of (snd kv))
                                      request_host_no_www (cookies g)) g))
               | OList _ =>
                   raise (GrabError (GrabMisuseError "cookies option should be a dict"))
               end
           | _ => raise (GrabError (GrabMisuseError "cookies option should be a dict"))
           end
         else mret tt
       else mret tt
   | None => mret tt
   end);;
  g ← get_self;
  s ← get;
  match CookieManager.get_cookie_header request_url request_headers (utcnow s) (cookies g) with
  | Some hdr => if String.eqb hdr "" then mret None else mret (Some hdr)
  | None => mret None
  end.

End Urllib3TransportCookies.

(** A reference instance of the platform: the host is what stands between
    [://] and the next [/], the path what follows; no cookie file. *)
Definition after_scheme (u : string) : string :=
  match String.index 0 "://" u with
  | Some i => String.substring (i + 3) (String.length u - (i + 3)) u
  | None => u
  end.

Definition reference_hostname (u : string) : option string :=
  match String.index 0 "://" u with
  | Some _ =>
      let r := after_scheme u in
      match String.index 0 "/" r with
      | Some j => Some (String.substring 0 j r)
      | None => Some r
      end
  | None => None
  end.

Definition reference_path (u : string) : string :=
  let r := after_scheme u in
  match String.index 0 "/" r with
  | Some j => String.substring j (String.length r - j) r
  | None => "/"
  end.

Definition reference_platform : Platform :=
  {| urlsplit_hostname := reference_hostname;
     request_path := reference_path;
     is_https := String.prefix "https://";
     load_cookie_file := fun _ => None;
     py_str := fun _ => "" |}.

(** A session configured with the cookie [a=1]. *)
Definition cookie_session : state :=
  mkState [ODict [("cookiefile", VNone); ("cookies", VRef 1)];
           ODict [("a", VStr "1")]]
          (mkGrab 0 [] None None [] (mkTransport None false)) [] [] [] 0 [].

(** * [grab/client.py]: the hook-pipeline client *)

Module HttpClient.

(** Modelled from the spec: [grab/request.py] ([HttpRequest]) is not among
    the source files.  The spec's request descriptor is a record of
    method, url, headers, body and the like; the client only creates one
    from a mapping and hands it on, so a request is the mapping it is
    created from. *)
Record HttpRequest := mkHttpRequest { request_fields : dict }.

Definition create_from_mapping (request_kwargs : dict) : HttpRequest :=
  mkHttpRequest request_kwargs.

(** [Retry]: the counters of the retry hooks. *)
Record Retry := mkRetry { retry_state : odict Z }.

(** What the client does that an observer can see: each call of a hook,
    each request handed to the transport, each document it hands back. *)
Inductive event :=
| EvPre (i : nat) (req : HttpRequest)
| EvSent (req : HttpRequest) (jar : CookieJar)
| EvResponse (d : Document)
| EvPost (i : nat) (req : HttpRequest) (d : Document)
| EvRetryAsked (i : nat) (req : HttpRequest) (d : Document)
| EvRetrySignalled (i : nat) (d : Document).

Section Client.
Context {E : Type}.

(** [ext_handlers]: the callables registered at each hook point; they act
    on the state [E] of the extensions.  An [init-retry] handler returns its
    truth value and the retry state as it leaves it; a [request:pre] handler
    the request as it leaves it; a [retry] handler [None] for
    [(None, None)]; a [response:post] handler observes. *)
Record Handlers := mkHandlers {
  on_init_retry : list (Retry -> ST E (bool * Retry));
  on_request_pre : list (HttpRequest -> ST E HttpRequest);
  on_request_cookies : list (HttpRequest -> CookieJar -> ST E CookieJar);
  on_retry : list (Retry -> HttpRequest -> Document
                   -> ST E (option (Retry * HttpRequest)));
  on_response_post : list (HttpRequest -> Document -> ST E unit)
}.

Record client := mkClient {
  ext : E;                        (* the state of the extensions *)
  ext_handlers : Handlers;
  pending : option reply;         (* the transport: what awaits the request *)
  cwire : list reply;             (* what the next attempts run into *)
  calls : list event              (* what has been observed, oldest first *)
}.

Definition C : Type -> Type := ST client.

(** Calling a handler: it sees the state of the extensions only. *)
Definition call {A} (h : ST E A) : C A := fun c =>
  let (r, e) := h (ext c) in
  (r, mkClient e (ext_handlers c) (pending c) (cwire c) (calls c)).

Definition observe (ev : event) : C unit :=
  modify (fun c => mkClient (ext c) (ext_handlers c) (pending c) (cwire c)
                            (calls c ++ [ev])).

Definition handlers : C Handlers := fun c => (Ok (ext_handlers c), c).

(** [all(x(retry) for x in self.ext_handlers["init-retry"])] *)
Fixpoint all_init (hs : list (Retry -> ST E (bool * Retry))) (retry : Retry)
  : C Retry :=
  match hs with
  | [] => mret retry
  | x :: hs' =>
      '(ok, retry) ← call (x retry);
      if ok then all_init hs' retry else mret retry
  end.

(** [for func in self.ext_handlers["request:pre"]: func(req)] *)
Fixpoint run_pre (i : nat) (hs : list (HttpRequest -> ST E HttpRequest))
    (req : HttpRequest) : C HttpRequest :=
  match hs with
  | [] => mret req
  | func :: hs' =>
      observe (EvPre i req);;
      req ← call (func req);
      run_pre (S i) hs' req
  end.

(** [HttpClient.get_request_cookies] *)
Fixpoint run_cookies (hs : list (HttpRequest -> CookieJar -> ST E CookieJar))
    (req : HttpRequest) (jar : CookieJar) : C CookieJar :=
  match hs with
  | [] => mret jar
  | func :: hs' => jar ← call (func req jar); run_cookies hs' req jar
  end.

Definition get_request_cookies (req : HttpRequest) : C CookieJar :=
  h ← handlers;
  run_cookies (on_request_cookies h) req [].

(** The transport. *)
Definition transport_reset : C unit :=
  modify (fun c => mkClient (ext c) (ext_handlers c) None (cwire c) (calls c)).

Definition transport_request (req : HttpRequest) (jar : CookieJar) : C unit :=
  observe (EvSent req jar);;
  c ← get;
  match cwire c with
  | [] => raise (GrabError (GrabConnectionError "ProtocolError"))
  | r :: rest =>
      modify (fun c => mkClient (ext c) (ext_handlers c) (Some r) rest (calls c));;
      match r with
      | RejectsConfig e | RequestRaises e => raise e
      | _ => mret tt
      end
  end.

Definition prepare_response (req : HttpRequest) : C Document :=
  c ← get;
  match pending c with
  | Some (Responds d) => observe (EvResponse d);; mret d
  | Some (ResponseRaises e) => raise e
  | _ => raise AttributeError
  end.

(** [for func in self.ext_handlers["response:post"]: func(req, doc)] *)
Fixpoint run_post (i : nat) (hs : list (HttpRequest -> Document -> ST E unit))
    (req : HttpRequest) (doc : Document) : C unit :=
  match hs with
  | [] => mret tt
  | func :: hs' =>
      observe (EvPost i req doc);;
      call (func req doc);;
      run_post (S i) hs' req doc
  end.

(** [HttpClient.process_request_result] *)
Definition process_request_result (req : HttpRequest) : C Document :=
  doc ← prepare_response req;
  h ← handlers;
  run_post 0 (on_response_post h) req doc;;
  mret doc.

(** [any((item := func(retry, req, doc)) != (None, None) for func in ...)]:
    the first handler that answers something else than [(None, None)]. *)
Fixpoint any_retry (i : nat)
    (hs : list (Retry -> HttpRequest -> Document
                -> ST E (option (Retry * HttpRequest))))
    (retry : Retry) (req : HttpRequest) (doc : Document)
  : C (option (Retry * HttpRequest)) :=
  match hs with
  | [] => mret None
  | func :: hs' =>
      observe (EvRetryAsked i req doc);;
      item ← call (func retry req doc);
      match item with
      | Some item => observe (EvRetrySignalled i doc);; mret (Some item)
      | None => any_retry (S i) hs' retry req doc
      end
  end.

Definition wrap {A} (m : C A) : C A := fun c =>
  match m c with
  | (Raise e, c') => (Raise (reclassify e), c')
  | r => r
  end.

(** The [while True] loop of [HttpClient.request]. *)
Fixpoint request_loop (fuel : nat) (retry : Retry) (req : HttpRequest)
  : C (option Document) :=
  match fuel with
  | O => mret None
  | S fuel' =>
      h ← handlers;
      req ← run_pre 0 (on_request_pre h) req;
      transport_reset;;
      jar ← get_request_cookies req;
      transport_request req jar;;
      doc ← wrap (process_request_result req);
      item ← any_retry 0 (on_retry h) retry req doc;
      match item with
      | Some (retry, req) => request_loop fuel' retry req
      | None => mret (Some doc)
      end
  end.

(** [HttpClient.request]: [req] is a request, a url or nothing. *)
Definition request (fuel : nat) (req : option (string + HttpRequest))
    (request_kwargs : dict) : C (option Document) :=
  let req := match req with
             | Some (inr req) => req
             | Some (inl u) => create_from_mapping (od_set "url" (VStr u) request_kwargs)
             | None => create_from_mapping request_kwargs
             end in
  h ← handlers;
  retry ← all_init (on_init_retry h) (mkRetry []);
  request_loop fuel retry req.

End Client.

Arguments Handlers : clear implicits.
Arguments client : clear implicits.

(** The documents handed back by the transport, those given to the [i]-th
    [response:post] handler, and those on which a retry was signalled. *)
Definition responses (tr : list event) : list Document :=
  flat_map (fun ev => match ev with EvResponse d => [d] | _ => [] end) tr.

Definition posted (i : nat) (tr : list event) : list Document :=
  flat_map (fun ev => match ev with
                      | EvPost j _ d => if Nat.eqb i j then [d] else []
                      | _ => []
                      end) tr.

Definition retried (tr : list event) : list Document :=
  flat_map (fun ev => match ev with EvRetrySignalled _ d => [d] | _ => [] end) tr.

(** From [c] to [c'] the events [new] were observed, and the handlers are
    the same. *)
Definition extends {E} (c c' : client E) (new : list event) : Prop :=
  calls c' = (calls c ++ new)%list /\ ext_handlers c' = ext_handlers c.

End HttpClient.

(** * A reference instance of the collaborators

    A small library on which the model runs on examples: urls that start
    with a scheme are absolute and join to themselves, anything else is
    appended to the base; the method is the configured one, or POST when
    there is a payload, or GET. *)

Definition is_absolute (u : string) : bool :=
  String.prefix "http://" u || String.prefix "https://" u.

(** Scheme and authority of a url: all that comes before the path. *)
Definition origin (b : string) : string :=
  match String.index 0 "://" b with
  | Some i =>
      match String.index (i + 3) "/" b with
      | Some j => String.substring 0 j b
      | None => b
      end
  | None => b
  end.

Definition reference_urljoin (base u : string) : string :=
  if is_absolute u then u
  else if String.prefix "/" u then origin base ++ u
  else base ++ u.

Definition is_none (v : val) : bool :=
  match v with VNone => true | _ => false end.

Definition reference_method (h : list obj) (d : dict) : string :=
  match od_get "method" d with
  | Some (VStr m) => if String.eqb m "" then "GET" else m
  | _ =>
      if is_none (default VNone (od_get "post" d))
         && is_none (default VNone (od_get "multipart_post" d))
      then "GET" else "POST"
  end.

Definition reference_library : Library :=
  {| urljoin := reference_urljoin;
     find_base_url := fun _ => None;
     detect_request_method := reference_method;
     generate_user_agent := "Mozilla/5.0" |}.

(** A session as [Grab()] makes it, in a store that holds nothing else. *)
Definition empty_state : state :=
  mkState [] (mkGrab 0 [] None None [] (mkTransport None false)) [] [] [] 0 [].

Definition fresh_session `{Library} : state :=
  match Grab_init (mkTransport None false) [] empty_state with
  | (Ok g, s) => set_self g s
  | (Raise _, s) => s
  end.

(** The session after [setup] with some overrides, and after
    [prepare_request]. *)
Definition with_options `{Library} (kwargs : dict) (s : state) : state :=
  snd (setup kwargs s).

Definition with_prepared `{Library} (kwargs : dict) (s : state) : state :=
  snd (prepare_request kwargs s).

(** A redirect to [/next] and the page behind it. *)
Definition example_redirect : Document :=
  mkDocument 302 [("Location", "/next")] [] "http://www.example.com/" [] None.

Definition example_page : Document :=
  mkDocument 200 [("Content-Type", "text/html")] [] "http://www.example.com/next"
             [] None.

(** * Vocabulary of the statements *)

(** The option set: the keys of [default_config]. *)
Definition option_names : list string :=
  [ "method"; "url"; "proxy"; "proxy_type"; "proxy_userpwd"; "headers";
    "cookies"; "timeout"; "encoding"; "post"; "multipart_post";
    "redirect_limit"; "follow_location"; "document_type"; "reuse_cookies";
    "common_headers"; "proxy_auto_change"; "state" ].

(** A config that has every option. *)
Definition complete (d : dict) : Prop :=
  forall k, In k option_names -> od_mem k d = true.

Definition completeb (d : dict) : bool :=
  forallb (fun k => od_mem k d) option_names.

(** The one-shot options [post], [multipart_post] and [method] are [None]. *)
Definition one_shot_cleared (d : dict) : Prop :=
  od_get "post" d = Some VNone /\
  od_get "multipart_post" d = Some VNone /\
  od_get "method" d = Some VNone.

(** The config after [reset_temporary_options]. *)
Definition cleared (d : dict) : dict :=
  od_set "method" VNone (od_set "multipart_post" VNone (od_set "post" VNone d)).

(** A document that [find_redirect_url] takes for a redirect: one of the
    five codes, and a [Location] header that is not empty. *)
Definition redirect_codes : list Z := [301; 302; 303; 307; 308]%Z.

Definition redirects_to (d : Document) (loc : string) : Prop :=
  code d ∈ redirect_codes /\
  header_get "Location" (headers d) = Some loc /\ loc <> "".

Definition location_of (d : Document) : option string :=
  if bool_decide (code d ∈ redirect_codes) then
    match header_get "Location" (headers d) with
    | Some loc => if String.eqb loc "" then None else Some loc
    | None => None
    end
  else None.

(** A url is a string or [None] ([url: None | str]). *)
Definition is_url (v : val) : Prop :=
  match v with
  | VNone | VStr _ => True
  | _ => False
  end.

(** The url override as [setup] stores it: joined to the url of the
    previous request when there is one. *)
Definition resolved_url `{Library} (d : dict) (u : val) : val :=
  match od_get "url" d with
  | Some (VStr b) =>
      if String.eqb b "" then u
      else match u with
           | VStr r => if String.eqb r "" then VStr b else VStr (urljoin b r)
           | _ => VStr b
           end
  | _ => u
  end.

(** ** The states the engine goes through

    The state after each stage of one attempt, as a function of the state
    before it. *)

(** The line that [log_request] writes. *)
Definition log_line_of (s : state) (d : dict) : log_line :=
  mkLogLine (default "GET" (request_method (self s)))
            (default VNone (od_get "url" d))
            (let p := default VNone (od_get "proxy" d) in
             if truthy (heap s) p then p else VNone).

(** After [process_request_result] on the response [dc]: the one-shot
    options are cleared, the cookies absorbed, the document stamped. *)
Definition after_response (s : state) (d : dict) (dc : Document) : state :=
  let g := self s in
  let h' := <[config g := ODict (cleared d)]> (heap s) in
  let reuse := truthy h' (default VNone (od_get "reuse_cookies" d)) in
  set_self
    (mkGrab (config g)
       (if reuse then jar_update (doc_cookies dc) (cookies g) else cookies g)
       (Some (set_timestamp (utcnow s) dc))
       (request_method g) (proxylist g) (transport g))
    (set_heap h' s).

(** The overrides as [setup] stores them. *)
Definition resolve_kwargs `{Library} (d kwargs : dict) : dict :=
  match od_get "url" kwargs with
  | Some u => od_set "url" (resolved_url d u) kwargs
  | None => kwargs
  end.

(** The config after [setup] has stored the overrides. *)
Definition first_config `{Library} (d kwargs : dict) : dict :=
  od_update (resolve_kwargs d kwargs) d.

(** The descriptor that the transport builds from a config. *)
Definition descriptor `{Library} (h : list obj) (d : dict) : Descriptor :=
  mkDescriptor (default VNone (od_get "url" d)) (detect_request_method h d)
            (default VNone (od_get "post" d))
            (default VNone (od_get "multipart_post" d)).

(** After [prepare_request]: the config updated, the descriptor waiting
    in the transport, one entry of the script taken. *)
Definition prepared `{Library} (s : state) (d' : dict) (r : reply) (rest : list reply) : state :=
  let g := self s in
  let h' := <[config g := ODict d']> (heap s) in
  set_self
    (mkGrab (config g) (cookies g) (doc g) (Some (detect_request_method h' d'))
       (proxylist g) (mkTransport (Some (descriptor h' d', r)) false))
    (set_wire rest (set_heap h' s)).

(** After [log_request] and [transport.request]. *)
Definition dispatched (s : state) (d : dict) (req : Descriptor) (r : reply) : state :=
  let sa := set_netlog (netlog s ++ [log_line_of s d]) s in
  set_self (set_transport (mkTransport (Some (req, r)) true) (self sa))
    (set_sent (sent sa ++ [req]) sa).

(** The config and the state after a redirect to [loc] has been followed
    up to the next [prepare_request]. *)
Definition hop_config `{Library} (d : dict) (loc : string) : dict :=
  let dcl := cleared d in
  od_update (resolve_kwargs dcl [("url", resolved_url dcl (VStr loc))]) dcl.

Definition hop `{Library} (s : state) (d : dict) (req : Descriptor) (dc : Document)
  (loc : string) (r : reply) (rest : list reply) : state :=
  prepared (after_response (dispatched s d req (Responds dc)) d dc)
           (hop_config d loc) r rest.

(** ** Invariants of the engine *)

(** An operation that only reads the state. *)
Definition readonly {A} (m : M A) : Prop :=
  forall s r s', m s = (r, s') -> s' = s.

(** The config of the session is the dict [d]. *)
Definition cfg_is (s : state) (d : dict) : Prop :=
  heap s !! config (self s) = Some (ODict d).

(** Keys among which no one-shot option is named. *)
Definition avoids_one_shot (keys : list string) : Prop :=
  ~ In "post" keys /\ ~ In "multipart_post" keys /\ ~ In "method" keys.

(** The one-shot options stay cleared from [s] to [s']. *)
Definition stays_cleared (s s' : state) : Prop :=
  forall d, cfg_is s d -> one_shot_cleared d ->
  exists d', cfg_is s' d' /\ one_shot_cleared d'.

(** A request that carries no payload and whose method was detected from
    a config with the one-shot options cleared. *)
Definition hop_cleared `{Library} (r : Descriptor) : Prop :=
  req_post r = VNone /\ req_multipart_post r = VNone /\
  exists h d, one_shot_cleared d /\ req_method r = detect_request_method h d.

(** ** Cookies *)

(** The cookie stored under (domain, path, name). *)
Definition jar_get (domain path name : string) (jar : CookieJar) : option Cookie :=
  match od_get domain jar with
  | Some paths =>
      match od_get path paths with
      | Some names => od_get name names
      | None => None
      end
  | None => None
  end.

(** The header carries the pair [name=value]. *)
Definition carries (hdr name value : string) : Prop :=
  exists attrs, hdr = String.concat "; " attrs /\ In (name ++ "=" ++ value) attrs.

(** Setting the configured cookies, one by one. *)
Definition broadcast `{Platform} (items : dict) (domain : string) (jar : CookieJar) : CookieJar :=
  fold_left (fun j kv => CookieManager.set (fst kv)
                           (Urllib3TransportCookies.text_of (snd kv)) domain j)
            items jar.

(** ** Stores, copies and jars *)

(** ** What an observer sees of a value *)

(** A value read through the store, [n] references deep. *)
#[warnings="-register-all"]
Inductive tree :=
| TScalar (v : val)
| TDict (items : list (string * tree))
| TList (items : list tree)
| TDangling
| TDeeper.

Fixpoint snapshot (n : nat) (h : list obj) (v : val) : tree :=
  match v with
  | VRef l =>
      match n with
      | O => TDeeper
      | S n' =>
          match h !! l with
          | Some (ODict d) => TDict (map (fun kv => (fst kv, snapshot n' h (snd kv))) d)
          | Some (OList vs) => TList (map (snapshot n' h) vs)
          | None => TDangling
          end
      end
  | _ => TScalar v
  end.

(** The values an object holds. *)
Definition items_of (o : obj) : list val :=
  match o with
  | ODict d => map snd d
  | OList vs => vs
  end.

(** [v], if it is a reference, refers to an object of [h]; in a closed
    store every object holds such values only. *)
Definition bound (h : list obj) (v : val) : Prop :=
  forall l, v = VRef l -> l < length h.

Definition closed (h : list obj) : Prop :=
  forall l o, h !! l = Some o -> Forall (bound h) (items_of o).

Definition boundb (h : list obj) (v : val) : bool :=
  match v with VRef l => Nat.ltb l (length h) | _ => true end.

Definition closedb (h : list obj) : bool :=
  forallb (fun o => forallb (boundb h) (items_of o)) h.

(** [v'] in [h'] is a one-level copy of [v] in [h]: the same scalar, or an
    object that [h] did not have and that holds the items of the
    original. *)
Definition copied (h h' : list obj) (v v' : val) : Prop :=
  match v with
  | VRef l =>
      exists l', v' = VRef l' /\ length h <= l' /\ l' < length h'
                 /\ h' !! l' = h !! l
  | _ => v' = v
  end.

(** The store [h'] has the objects of [h] that satisfy [P] as they were. *)
Definition leaves (P : nat -> Prop) (h h' : list obj) : Prop :=
  length h <= length h' /\
  forall l, l < length h -> P l -> h' !! l = h !! l.

(** From [s] to [s'] the session is the same one and every object of [s]
    is as it was. *)
Definition steady (s s' : state) : Prop :=
  self s' = self s /\ leaves (fun _ => True) (heap s) (heap s').

(** [m] run from [s] returns, and its result and final state satisfy [Q]. *)
Definition returns {A} (m : M A) (s : state) (Q : A -> state -> Prop) : Prop :=
  exists a s', m s = (Ok a, s') /\ Q a s'.

(** The body of the loop of [copy_config]. *)
Definition copy_key (config cloned_config : nat) (key : string) : M unit :=
  v ← getitem config key;
  v' ← copy v;
  setitem cloned_config key v'.

(** A jar as [set_cookie] builds it: every cookie is filed under its own
    domain, path and name, no key occurs twice, and no domain or path is
    left without a cookie. *)
Definition wf_names (dom pth : string) (names : odict Cookie) : Prop :=
  names <> [] /\ NoDup (od_keys names) /\
  Forall (fun kv => c_name (snd kv) = fst kv /\ c_domain (snd kv) = dom
                    /\ c_path (snd kv) = pth) names.

Definition wf_paths (dom : string) (paths : odict (odict Cookie)) : Prop :=
  paths <> [] /\ NoDup (od_keys paths) /\
  Forall (fun kv => wf_names dom (fst kv) (snd kv)) paths.

Definition wf_jar (jar : CookieJar) : Prop :=
  NoDup (od_keys jar) /\ Forall (fun kv => wf_paths (fst kv) (snd kv)) jar.

(** What identifies a cookie to an observer of the jar: (name, domain,
    value), in the order in which the jar lists its cookies. *)
Definition cookie_triples (jar : CookieJar) : list (string * string * string) :=
  map (fun c => (c_name c, c_domain c, c_value c)) (jar_cookies jar).

(** The fold that [from_cookie_list] and [update] make over the cookies. *)
Definition files (cs : list Cookie) (jar : CookieJar) : CookieJar :=
  fold_left (fun j c => set_cookie c j) cs jar.

(** ** A session with a nested payload and cookies *)

(** A session whose [post] option holds a list: [{"tags": ["a"]}], and
    whose jar holds three cookies. *)
Definition example_jar : CookieJar :=
  from_cookie_list
    [ mkCookie "a" "1" "example.com" "/" None false;
      mkCookie "b" "2" "example.com" "/x" None false;
      mkCookie "c" "3" "other.org" "/" None false ].

Definition nested_session : state :=
  snd ((tags ← alloc (OList [VStr "a"]);
        post ← alloc (ODict [("tags", VRef tags)]);
        @setup reference_library [("post", VRef post)];;
        update_self (set_cookies example_jar))
         (@fresh_session reference_library)).

Definition nested_config : dict :=
  Eval vm_compute in
    match heap nested_session !! config (self nested_session) with
    | Some (ODict d) => d
    | _ => []
    end.

(** What a caller does to a clone: [clone.config["post"]["tags"].append(x)]. *)
Definition append_tag (g : Grab) (x : val) : M unit :=
  post ← getitem (config g) "post";
  tags ← subscript post "tags";
  match tags with
  | VRef l =>
      o ← load l;
      match o with
      | OList vs => store l (OList (vs ++ [x]))
      | ODict _ => raise AttributeError
      end
  | _ => raise AttributeError
  end.

(** That session and a second, new one. *)
Definition two_sessions : Grab * state :=
  match @Grab_init reference_library (mkTransport None false) [] nested_session with
  | (Ok g, s) => (g, s)
  | (Raise _, s) => (self s, s)
  end.

(** * Vocabulary of the further properties *)

(** The config dict of the session, when the store has one. *)
Definition config_of (s : state) : dict :=
  match heap s !! config (self s) with
  | Some (ODict d) => d
  | _ => []
  end.



(** An error that [wrap_transport_error] lets through as it is: any but
    the five that it names. *)
Definition classified (e : exn) : Prop := reclassify e = e.

(** The errors with which [process_config] will refuse a config are
    classified. *)
Definition wire_ok (s : state) : Prop :=
  forall e, In (RejectsConfig e) (wire s) -> classified e.

(** [m] keeps the script in order and raises only errors that satisfy [P]. *)
Definition tame {A} (P : exn -> Prop) (m : M A) : Prop :=
  forall s r s', wire_ok s -> m s = (r, s') ->
    wire_ok s' /\ forall e, r = Raise e -> P e.

(** The config of a new session, given where its [common_headers] and its
    [state] are. *)
Definition new_config (common_headers st : nat) : dict :=
  [ ("method", VNone); ("url", VNone); ("proxy", VNone);
    ("proxy_type", VNone); ("proxy_userpwd", VNone); ("headers", VNone);
    ("cookies", VNone); ("timeout", VNone); ("encoding", VNone);
    ("post", VNone); ("multipart_post", VNone);
    ("redirect_limit", VInt 10); ("follow_location", VBool true);
    ("document_type", VStr "html");
    ("reuse_cookies", VBool true); ("common_headers", VRef common_headers);
    ("proxy_auto_change", VBool true); ("state", VRef st) ].

(** The cookie file step has nothing to load: no file is configured, or
    the file cannot be read. *)
Definition no_cookie_file `{Platform} (h : list obj) (file : val) : Prop :=
  truthy h file = false
  \/ exists path, file = VStr path /\ load_cookie_file path = None.

(** A config that lacks [multipart_post], and one that lacks [state]. *)
Definition partial_config_session : state :=
  mkState [ODict [("post", VNone); ("headers", VNone); ("cookies", VNone)]]
          (mkGrab 0 [] None None [] (mkTransport None false)) [] [] [] 0 [].

Definition stateless_config_session : state :=
  mkState [ODict [("post", VNone); ("multipart_post", VNone);
                  ("headers", VNone); ("cookies", VNone)]]
          (mkGrab 0 example_jar None None [] (mkTransport None false))
          [] [] [] 0 [].

(** A session with a pool of two proxy servers. *)
Definition proxy_session : state :=
  let s := @fresh_session reference_library in
  set_self (mkGrab (config (self s)) (cookies (self s)) None None
              [mkProxy "10.0.0.1:8080" (Some "user:secret") (Some "http");
               mkProxy "10.0.0.2:1080" None (Some "socks5")]
              (transport (self s)))
           (mkState (heap s) (self s) [] [] [] 0 [3]).

(** * An instance of the hook-pipeline client *)

Section client_example.
Import HttpClient.

(** An instance: a handler that follows redirects, as the client's
    redirect extension does, and a [response:post] handler that records
    the status codes it is shown. *)
Definition example_init (retry : Retry) : ST (list Z) (bool * Retry) :=
  mret (true, mkRetry (od_set "redirect_count" 0%Z (retry_state retry))).

Definition example_retry (retry : Retry) (req : HttpRequest) (doc : Document)
  : ST (list Z) (option (Retry * HttpRequest)) :=
  match location_of doc with
  | Some loc =>
      mret (Some (mkRetry (od_set "redirect_count"
                             (default 0%Z (od_get "redirect_count" (retry_state retry)) + 1)%Z
                             (retry_state retry)),
                  mkHttpRequest (od_set "url" (VStr loc) (request_fields req))))
  | None => mret None
  end.

Definition example_observer (req : HttpRequest) (doc : Document)
  : ST (list Z) unit :=
  modify (fun seen => seen ++ [code doc])%list.

Definition example_client : client (list Z) :=
  mkClient [] (mkHandlers [example_init] [] [] [example_retry] [example_observer])
           None [Responds example_redirect; Responds example_page] [].

End client_example.

(** * [grab/base.py]: forgetting the cookies *)

(** [Grab.clear_cookies].  Modelled from the spec: [CookieManager.clear]
    ([grab/cookie.py] is not among the source files) empties the jar. *)
Definition clear_cookies : M unit :=
  overrides ← alloc (ODict []);
  config_setitem "cookies" (VRef overrides);;
  update_self (set_cookies []).

(** * The hook-pipeline client: what the handlers are shown *)

(** Where an attempt of the client stands: nothing was sent yet, a request
    was sent, or the transport has handed back a document for it. *)
Inductive phase :=
| Idle
| Sent
| Got (d : Document).

(** The phase after the events [tr], from the phase [p]. *)
Fixpoint phase_after (p : phase) (tr : list HttpClient.event) : phase :=
  match tr with
  | [] => p
  | HttpClient.EvPre _ _ :: tr' => phase_after Idle tr'
  | HttpClient.EvSent _ _ :: tr' => phase_after Sent tr'
  | HttpClient.EvResponse d :: tr' => phase_after (Got d) tr'
  | _ :: tr' => phase_after p tr'
  end.

(** The events [tr] are in step with the transport, from the phase [p]: a
    document is handed back only for a request that was sent and has not
    been answered, and a [response:post] or [retry] handler is called only
    on the document handed back for the request sent last. *)
Fixpoint in_step (p : phase) (tr : list HttpClient.event) : Prop :=
  match tr with
  | [] => True
  | HttpClient.EvPre _ _ :: tr' => in_step Idle tr'
  | HttpClient.EvSent _ _ :: tr' => in_step Sent tr'
  | HttpClient.EvResponse d :: tr' => p = Sent /\ in_step (Got d) tr'
  | HttpClient.EvPost _ _ d :: tr' => p = Got d /\ in_step p tr'
  | HttpClient.EvRetryAsked _ _ d :: tr' => p = Got d /\ in_step p tr'
  | HttpClient.EvRetrySignalled _ d :: tr' => p = Got d /\ in_step p tr'
  end.

(** The [retry] handlers that were called, and those that signalled, by
    their places in the registration order. *)
Definition asked (tr : list HttpClient.event) : list nat :=
  flat_map (fun ev => match ev with
                      | HttpClient.EvRetryAsked i _ _ => [i]
                      | _ => []
                      end) tr.

Definition signalled (tr : list HttpClient.event) : list nat :=
  flat_map (fun ev => match ev with
                      | HttpClient.EvRetrySignalled i _ => [i]
                      | _ => []
                      end) tr.

(** A client whose transport answers the first request with a redirect and
    fails on the second. *)
Definition failing_client : HttpClient.client (list Z) :=
  HttpClient.mkClient []
    (HttpClient.mkHandlers [example_init] [] [] [example_retry] [example_observer])
    None [Responds example_redirect; RequestRaises (Urllib3Error ConnectTimeoutError)]
    [].

(** * [grab/client.py]: [copy_config] *)

Module GrabClient.

(** The dict comprehension [{x: copy(y) for x, y in items}]: the items are
    taken in order, each value is copied, and the copy is stored under its
    key in the dict being built. *)
Fixpoint copy_items (items : dict) (acc : dict) : M dict :=
  match items with
  | [] => mret acc
  | (x, y) :: items' => y' ← copy y; copy_items items' (od_set x y' acc)
  end.

(** [copy_config]; [config.items()] needs a mapping. *)
Definition copy_config (config : nat) : M nat :=
  o ← load config;
  match o with
  | ODict d => d' ← copy_items d []; alloc (ODict d')
  | OList _ => raise AttributeError
  end.

End GrabClient.

(** A config of the client with a list under [tags] and a dict under
    [headers]. *)
Definition client_config_session : state :=
  mkState [OList [VStr "a"]; ODict [("Accept", VStr "*/*")];
           ODict [("url", VStr "http://www.example.com/"); ("tags", VRef 0);
                  ("timeout", VInt 5); ("headers", VRef 1)]]
          (mkGrab 2 [] None None [] (mkTransport None false)) [] [] [] 0 [].

(** * Properties *)

(** ** Dictionaries *)

Section odict_facts.
Context {V : Type}.
Implicit Types (d kw : odict V) (k : string) (v : V).

Lemma od_get_set_eq k v d : od_get k (od_set k v d) = Some v.
Proof.
  induction d as [|[k' v'] d IH]; simpl.
  - by rewrite String.eqb_refl.
  - destruct (String.eqb k k') eqn:E; simpl; rewrite ?String.eqb_refl, ?E; done.
Qed.

Lemma od_get_set_ne k k' v d : k ≠ k' -> od_get k (od_set k' v d) = od_get k d.
Proof.
  intros Hne. apply String.eqb_neq in Hne.
  induction d as [|[k2 v2] d IH]; simpl.
  - by rewrite Hne.
  - destruct (String.eqb k' k2) eqn:E; simpl.
    + apply String.eqb_eq in E. subst k2. by rewrite Hne.
    + by rewrite IH.
Qed.

Lemma od_get_set k k' v d :
  od_get k (od_set k' v d) = if String.eqb k k' then Some v else od_get k d.
Proof.
  destruct (String.eqb k k') eqn:E.
  - apply String.eqb_eq in E. subst. apply od_get_set_eq.
  - apply String.eqb_neq in E. by apply od_get_set_ne.
Qed.

Lemma od_mem_set k k' v d :
  od_mem k (od_set k' v d) = String.eqb k k' || od_mem k d.
Proof.
  unfold od_mem. rewrite od_get_set. by destruct (String.eqb k k').
Qed.

Lemma od_get_update_notin k kw d :
  ~ In k (od_keys kw) -> od_get k (od_update kw d) = od_get k d.
Proof.
  unfold od_update. revert d.
  induction kw as [|[k' v'] kw IH]; intros d Hn; simpl; [done|].
  rewrite IH.
  - apply od_get_set_ne. intros ->. apply Hn. by left.
  - intros Hin. apply Hn. by right.
Qed.

Lemma od_get_update_in k v kw d :
  NoDup (od_keys kw) -> od_get k kw = Some v ->
  od_get k (od_update kw d) = Some v.
Proof.
  unfold od_update. revert d.
  induction kw as [|[k' v'] kw IH]; intros d Hnd Hget; simpl in *; [done|].
  apply NoDup_cons in Hnd as [Hnotin Hnd].
  destruct (String.eqb k k') eqn:E.
  - apply String.eqb_eq in E. subst k'. injection Hget as ->.
    change (od_get k (od_update kw (od_set k v d)) = Some v).
    rewrite od_get_update_notin; [apply od_get_set_eq|].
    by rewrite <- list_elem_of_In.
  - by apply IH.
Qed.

Lemma od_get_In k v d : od_get k d = Some v -> In k (od_keys d).
Proof.
  induction d as [|[k' v'] d IH]; simpl; [done|].
  destruct (String.eqb k k') eqn:E; intros Hg.
  - apply String.eqb_eq in E. by left.
  - right. by apply IH.
Qed.

Lemma od_get_not_In k d : ~ In k (od_keys d) -> od_get k d = None.
Proof.
  intros Hn. destruct (od_get k d) eqn:E; [|done].
  exfalso. apply Hn. by eapply od_get_In.
Qed.

Lemma od_keys_set_mem k v d :
  od_mem k d = true -> od_keys (od_set k v d) = od_keys d.
Proof.
  unfold od_mem. induction d as [|[k' v'] d IH]; simpl; [done|].
  destruct (String.eqb k k') eqn:E; simpl.
  - apply String.eqb_eq in E. by subst.
  - intros Hm. by rewrite IH.
Qed.

End odict_facts.

Lemma od_get_None_not_In {V} k (d : odict V) : od_get k d = None -> ~ In k (od_keys d).
Proof.
  induction d as [|[k' v'] d IH]; simpl; [tauto|].
  destruct (String.eqb k k') eqn:E; [done|].
  intros Hg [Heq|Hin]; [|by apply IH].
  subst. by rewrite String.eqb_refl in E.
Qed.

Lemma od_set_same {V} k (v : V) (d : odict V) :
  od_get k d = Some v -> od_set k v d = d.
Proof.
  induction d as [|[k' v'] d IH]; simpl; [done|].
  destruct (String.eqb k k') eqn:E.
  - apply String.eqb_eq in E. intros [= ->]. by subst.
  - intros Hg. by rewrite IH.
Qed.

(** ** Running the monad *)

Lemma bind_ok {S A B} (m : ST S A) (f : A -> ST S B) s a s' :
  m s = (Ok a, s') -> bind m f s = f a s'.
Proof. unfold bind. by intros ->. Qed.

Lemma bind_raise {S A B} (m : ST S A) (f : A -> ST S B) s e s' :
  m s = (Raise e, s') -> bind m f s = (Raise e, s').
Proof. unfold bind. by intros ->. Qed.

Lemma bind_inv {S A B} (m : ST S A) (f : A -> ST S B) s r s' :
  bind m f s = (r, s') ->
  (exists a s1, m s = (Ok a, s1) /\ f a s1 = (r, s')) \/
  (exists e, m s = (Raise e, s') /\ r = Raise e).
Proof.
  unfold bind. destruct (m s) as [[a|e] s1]; intros Hr.
  - left. eauto.
  - right. injection Hr as <- <-. eauto.
Qed.

Lemma bind_inv_ok {S A B} (m : ST S A) (f : A -> ST S B) s b s' :
  bind m f s = (Ok b, s') ->
  exists a s1, m s = (Ok a, s1) /\ f a s1 = (Ok b, s').
Proof.
  intros Hb. apply bind_inv in Hb as [Hok|[e [_ He]]]; [done|discriminate].
Qed.

Lemma for_each_ok {S A} (xs : list A) (f : A -> ST S unit) s :
  (forall x, In x xs -> f x s = (Ok tt, s)) -> for_each xs f s = (Ok tt, s).
Proof.
  induction xs as [|x xs IH]; intros Hf; simpl; [done|].
  rewrite (bind_ok _ _ s tt s); [|apply Hf; by left].
  apply IH. intros y Hy. apply Hf. by right.
Qed.

(** The loop stops at the first item on which the body raises. *)
Lemma for_each_raise {S A} (xs : list A) (f : A -> ST S unit) (bad : A -> bool) s e :
  (forall x, In x xs -> bad x = false -> f x s = (Ok tt, s)) ->
  (forall x, In x xs -> bad x = true -> f x s = (Raise (e x), s)) ->
  forall x, find bad xs = Some x -> for_each xs f s = (Raise (e x), s).
Proof.
  induction xs as [|y xs IH]; intros Hgood Hbad x Hfind; simpl in *; [done|].
  destruct (bad y) eqn:Ey.
  - injection Hfind as <-. apply bind_raise. apply Hbad; [by left|done].
  - rewrite (bind_ok _ _ s tt s); [|apply Hgood; [by left|done]].
    apply IH; [| |done].
    + intros z Hz. apply Hgood. by right.
    + intros z Hz. apply Hbad. by right.
Qed.

Ltac munfold :=
  cbv [bind ret raise get modify load store alloc load_dict getitem dict_get
       setitem is_true get_self update_self config_getitem config_get
       config_setitem].

Lemma load_dict_ok l d s :
  heap s !! l = Some (ODict d) -> load_dict l s = (Ok d, s).
Proof. intros Hd. munfold. by rewrite Hd. Qed.

Lemma getitem_ok l d key v s :
  heap s !! l = Some (ODict d) -> od_get key d = Some v ->
  getitem l key s = (Ok v, s).
Proof. intros Hd Hv. munfold. by rewrite Hd, Hv. Qed.

Lemma config_getitem_ok d key v s :
  heap s !! config (self s) = Some (ODict d) -> od_get key d = Some v ->
  config_getitem key s = (Ok v, s).
Proof. intros Hd Hv. munfold. by rewrite Hd, Hv. Qed.

Lemma config_get_ok d key s :
  heap s !! config (self s) = Some (ODict d) ->
  config_get key s = (Ok (default VNone (od_get key d)), s).
Proof. intros Hd. munfold. by rewrite Hd. Qed.

Lemma heap_insert_same (h : list obj) l o o' :
  h !! l = Some o -> <[l := o']> h !! l = Some o'.
Proof. intros Hl. apply list_lookup_insert_eq. by eapply lookup_lt_Some. Qed.

(** ** [setup]: every key is validated before any is applied *)

Lemma make_url_absolute_typed `{Library} s d cfg_url u :
  heap s !! config (self s) = Some (ODict d) ->
  od_get "url" d = Some cfg_url -> is_url cfg_url -> is_url u ->
  make_url_absolute u false s = (Ok (resolved_url d u), s).
Proof.
  intros Hd Hu Hc Ht. unfold make_url_absolute, resolved_url.
  rewrite (bind_ok _ _ s cfg_url s) by by eapply config_getitem_ok.
  rewrite Hu.
  destruct cfg_url as [| | |b| |]; try done; munfold; cbn.
  destruct (String.eqb b ""); cbn; [done|].
  destruct u as [| | |r| |]; try done; munfold; cbn.
  by destruct (String.eqb r "").
Qed.

Lemma setup_unknown `{Library} kwargs d s k :
  heap s !! config (self s) = Some (ODict d) ->
  find (fun k => negb (od_mem k d)) (od_keys kwargs) = Some k ->
  setup kwargs s
  = (Raise (GrabError (GrabMisuseError ("Unknown option: " ++ k))), s).
Proof.
  intros Hd Hfind. unfold setup.
  rewrite (bind_ok _ _ s (self s) s) by done.
  apply bind_raise.
  apply (for_each_raise _ _ (fun k => negb (od_mem k d)) s
           (fun k => GrabError (GrabMisuseError ("Unknown option: " ++ k))));
    [| |done].
  - intros x _ Hx. rewrite (bind_ok _ _ s d s) by by apply load_dict_ok.
    by rewrite Hx.
  - intros x _ Hx. rewrite (bind_ok _ _ s d s) by by apply load_dict_ok.
    by rewrite Hx.
Qed.

Lemma setup_known `{Library} kwargs d s :
  heap s !! config (self s) = Some (ODict d) ->
  (forall k, In k (od_keys kwargs) -> od_mem k d = true) ->
  (forall u, od_get "url" kwargs = Some u -> is_url u) ->
  (forall u, od_get "url" d = Some u -> is_url u) ->
  setup kwargs s
  = (Ok tt,
     set_heap (<[config (self s) :=
                  ODict (od_update
                           (match od_get "url" kwargs with
                            | Some u => od_set "url" (resolved_url d u) kwargs
                            | None => kwargs
                            end) d)]> (heap s)) s).
Proof.
  intros Hd Hk Hku Hdu. unfold setup.
  rewrite (bind_ok _ _ s (self s) s) by done.
  rewrite (bind_ok _ _ s tt s).
  2:{ apply for_each_ok. intros k Hin.
      rewrite (bind_ok _ _ s d s) by by apply load_dict_ok.
      by rewrite Hk. }
  destruct (od_get "url" kwargs) as [u|] eqn:Eu.
  - assert (Hmem : od_mem "url" d = true) by (apply Hk; by eapply od_get_In).
    unfold od_mem in Hmem.
    destruct (od_get "url" d) as [cfg_url|] eqn:Ec; [|done].
    specialize (Hku u eq_refl). specialize (Hdu cfg_url eq_refl).
    rewrite (bind_ok _ _ s (od_set "url" (resolved_url d u) kwargs) s).
    { rewrite (bind_ok _ _ s d s) by by apply load_dict_ok. done. }
    erewrite bind_ok by by eapply config_get_ok.
    rewrite Ec. cbn [default].
    rewrite (bind_ok _ _ s (truthy (heap s) cfg_url) s) by done.
    destruct (truthy (heap s) cfg_url) eqn:Et.
    + erewrite bind_ok by by eapply make_url_absolute_typed.
      done.
    + assert (Hr : resolved_url d u = u).
      { unfold resolved_url. rewrite Ec.
        destruct cfg_url as [| | |b| |]; try done.
        cbn in Et. by destruct (String.eqb b ""). }
      rewrite Hr. by rewrite od_set_same.
  - rewrite (bind_ok _ _ s kwargs s) by done.
    rewrite (bind_ok _ _ s d s) by by apply load_dict_ok.
    done.
Qed.

(** ** The engine, stage by stage *)

Lemma complete_get d k :
  complete d -> In k option_names -> exists v, od_get k d = Some v.
Proof.
  intros Hd Hk. specialize (Hd k Hk). unfold od_mem in Hd.
  destruct (od_get k d); [eauto|done].
Qed.

Lemma completeb_complete d : completeb d = true -> complete d.
Proof.
  unfold completeb, complete. rewrite forallb_forall. auto.
Qed.

Lemma complete_set d k v : complete d -> complete (od_set k v d).
Proof.
  intros Hd k' Hk'. rewrite od_mem_set. rewrite (Hd k' Hk'). apply orb_true_r.
Qed.

Lemma complete_cleared d : complete d -> complete (cleared d).
Proof. intros Hd. unfold cleared. by repeat apply complete_set. Qed.

Lemma cleared_one_shot d : one_shot_cleared (cleared d).
Proof.
  unfold one_shot_cleared, cleared.
  rewrite !od_get_set. cbn. done.
Qed.

Lemma od_get_cleared k d :
  k <> "post" -> k <> "multipart_post" -> k <> "method" ->
  od_get k (cleared d) = od_get k d.
Proof. intros. unfold cleared. by rewrite !od_get_set_ne. Qed.

Lemma config_setitem_ok s d key v :
  heap s !! config (self s) = Some (ODict d) ->
  config_setitem key v s
  = (Ok tt, set_heap (<[config (self s) := ODict (od_set key v d)]> (heap s)) s).
Proof. intros Hd. munfold. by rewrite Hd. Qed.

Ltac mstep lem :=
  erewrite bind_ok by (eapply lem; cbn; eauto using heap_insert_same); cbn beta.

Lemma reset_temporary_options_ok s d :
  heap s !! config (self s) = Some (ODict d) ->
  reset_temporary_options s
  = (Ok tt, set_heap (<[config (self s) := ODict (cleared d)]> (heap s)) s).
Proof.
  intros Hd. unfold reset_temporary_options.
  mstep config_setitem_ok. mstep config_setitem_ok.
  erewrite config_setitem_ok by (cbn; eauto using heap_insert_same).
  destruct s. cbn. by rewrite !list_insert_insert_eq.
Qed.

Lemma is_true_ok v s : is_true v s = (Ok (truthy (heap s) v), s).
Proof. done. Qed.

Lemma get_self_ok s : get_self s = (Ok (self s), s).
Proof. done. Qed.

Lemma log_request_ok s d :
  heap s !! config (self s) = Some (ODict d) -> complete d ->
  log_request s = (Ok tt, set_netlog (netlog s ++ [log_line_of s d]) s).
Proof.
  intros Hd Hc.
  destruct (complete_get d "proxy" Hc) as [vp Hvp]; [simpl; tauto|].
  destruct (complete_get d "url" Hc) as [vu Hvu]; [simpl; tauto|].
  destruct (complete_get d "proxy_type" Hc) as [vpt Hvpt]; [simpl; tauto|].
  destruct (complete_get d "proxy_userpwd" Hc) as [vpu Hvpu]; [simpl; tauto|].
  unfold log_request, log_line_of.
  mstep config_getitem_ok. mstep is_true_ok.
  rewrite (bind_ok _ _ s tt s).
  2:{ destruct (truthy (heap s) vp); [|done].
      mstep config_getitem_ok. mstep config_getitem_ok. done. }
  mstep get_self_ok. mstep config_getitem_ok.
  rewrite Hvp, Hvu. done.
Qed.

Lemma transport_request_ok s req r :
  t_request (transport (self s)) = Some (req, r) ->
  (forall e, r <> RequestRaises e) ->
  transport_request s
  = (Ok tt, set_self (set_transport (mkTransport (Some (req, r)) true) (self s))
              (set_sent (sent s ++ [req]) s)).
Proof.
  intros Ht Hr. unfold transport_request. mstep get_self_ok. rewrite Ht.
  destruct r; try done. exfalso. by eapply Hr.
Qed.

Lemma transport_request_raises s req e :
  t_request (transport (self s)) = Some (req, RequestRaises e) ->
  transport_request s = (Raise (request_error e), set_sent (sent s ++ [req]) s).
Proof.
  intros Ht. unfold transport_request. mstep get_self_ok. rewrite Ht.
  destruct e as [ge|[]| | | | |]; done.
Qed.

Lemma try_transport_request_ok s req r :
  t_request (transport (self s)) = Some (req, r) ->
  (forall e, r <> RequestRaises e) ->
  try_transport_request s
  = (Ok tt, set_self (set_transport (mkTransport (Some (req, r)) true) (self s))
              (set_sent (sent s ++ [req]) s)).
Proof.
  intros Ht Hr. unfold try_transport_request.
  by erewrite transport_request_ok.
Qed.

Lemma try_transport_request_grab_error s d req e ge :
  heap s !! config (self s) = Some (ODict d) ->
  t_request (transport (self s)) = Some (req, RequestRaises e) ->
  request_error e = GrabError ge ->
  try_transport_request s
  = (Raise (GrabError ge),
     set_heap (<[config (self s) := ODict (cleared d)]> (heap s))
       (set_sent (sent s ++ [req]) s)).
Proof.
  intros Hd Ht He. unfold try_transport_request.
  erewrite transport_request_raises by done. rewrite He.
  erewrite bind_ok by (by eapply reset_temporary_options_ok).
  done.
Qed.

Lemma transport_prepare_response_ok s req dc :
  transport (self s) = mkTransport (Some (req, Responds dc)) true ->
  transport_prepare_response s = (Ok (Some dc), s).
Proof.
  intros Ht. unfold transport_prepare_response. mstep get_self_ok.
  by rewrite Ht.
Qed.

Lemma update_self_ok f s : update_self f s = (Ok tt, set_self (f (self s)) s).
Proof. done. Qed.

Lemma process_request_result_ok s d req dc :
  heap s !! config (self s) = Some (ODict d) -> complete d ->
  transport (self s) = mkTransport (Some (req, Responds dc)) true ->
  process_request_result s
  = (Ok (set_timestamp (utcnow s) dc), after_response s d dc).
Proof.
  intros Hd Hc Ht.
  destruct (complete_get d "reuse_cookies" Hc) as [vr Hvr]; [simpl; tauto|].
  unfold process_request_result.
  erewrite bind_ok by reflexivity. cbn beta.
  mstep reset_temporary_options_ok.
  mstep transport_prepare_response_ok.
  mstep update_self_ok.
  erewrite bind_ok.
  2:{ eapply config_getitem_ok; cbn; eauto using heap_insert_same.
      rewrite od_get_cleared by done. exact Hvr. }
  cbn beta. mstep is_true_ok.
  unfold after_response. rewrite Hvr. cbn [default].
  destruct s as [h [c j dc0 rm pl t] w snt lg now ent]. cbn.
  destruct (truthy _ vr); done.
Qed.

Lemma find_redirect_url_ok s d dc vf :
  heap s !! config (self s) = Some (ODict d) ->
  od_get "follow_location" d = Some vf ->
  find_redirect_url dc s
  = (Ok (if truthy (heap s) vf then location_of dc else None), s).
Proof.
  intros Hd Hf. unfold find_redirect_url, location_of.
  mstep config_getitem_ok. mstep is_true_ok.
  destruct (truthy (heap s) vf); [|done]. cbn.
  unfold redirect_codes.
  destruct (bool_decide _); [|done].
  destruct (header_get "Location" (headers dc)) as [loc|]; [|done].
  by destruct (String.eqb loc "").
Qed.

Lemma redirects_to_location dc loc : redirects_to dc loc -> location_of dc = Some loc.
Proof.
  intros (Hc & Hl & Hne). unfold location_of.
  rewrite bool_decide_eq_true_2 by done. rewrite Hl.
  apply String.eqb_neq in Hne. by rewrite Hne.
Qed.

Lemma complete_update kw d : complete d -> complete (od_update kw d).
Proof.
  unfold od_update. revert d. induction kw as [|[k v] kw IH]; intros d Hd; [done|].
  simpl. apply IH. by apply complete_set.
Qed.

Lemma transport_process_config_ok `{Library} s d r rest :
  heap s !! config (self s) = Some (ODict d) -> complete d ->
  wire s = r :: rest -> (forall e, r <> RejectsConfig e) ->
  transport_process_config s
  = (Ok tt,
     set_self (set_transport (mkTransport (Some (descriptor (heap s) d, r)) false) (self s))
       (set_wire rest s)).
Proof.
  intros Hd Hc Hw Hr.
  destruct (complete_get d "url" Hc) as [vu Hvu]; [simpl; tauto|].
  destruct (complete_get d "post" Hc) as [vp Hvp]; [simpl; tauto|].
  destruct (complete_get d "multipart_post" Hc) as [vm Hvm]; [simpl; tauto|].
  unfold transport_process_config.
  mstep config_getitem_ok. mstep config_getitem_ok. mstep config_getitem_ok.
  mstep get_self_ok. mstep load_dict_ok.
  erewrite bind_ok by reflexivity. cbn beta.
  rewrite Hw. unfold descriptor. rewrite Hvu, Hvp, Hvm. cbn [default].
  destruct r; try done. exfalso. by eapply Hr.
Qed.

Lemma reset_ok s :
  reset s
  = (Ok tt, set_self (set_transport (mkTransport None false)
                        (set_request_method None (self s))) s).
Proof. by destruct s as [h [c j dc0 rm pl t] w snt lg now ent]. Qed.

Lemma set_heap_id s l o : heap s !! l = Some o -> set_heap (<[l := o]> (heap s)) s = s.
Proof. intros Hl. destruct s. unfold set_heap. cbn in *. by rewrite list_insert_id. Qed.

Lemma setup_if_any_ok `{Library} kwargs s d :
  heap s !! config (self s) = Some (ODict d) ->
  (forall k, In k (od_keys kwargs) -> od_mem k d = true) ->
  (forall u, od_get "url" kwargs = Some u -> is_url u) ->
  (forall u, od_get "url" d = Some u -> is_url u) ->
  (match kwargs with [] => ret tt | _ => setup kwargs end) s
  = (Ok tt,
     set_heap (<[config (self s) := ODict (od_update (resolve_kwargs d kwargs) d)]>
                 (heap s)) s).
Proof.
  intros Hd Hk Hku Hdu. destruct kwargs as [|kv kw].
  - cbn. by rewrite set_heap_id.
  - by apply setup_known.
Qed.

Lemma prepare_request_ok `{Library} kwargs s d r rest :
  heap s !! config (self s) = Some (ODict d) -> complete d ->
  (forall k, In k (od_keys kwargs) -> od_mem k d = true) ->
  (forall u, od_get "url" kwargs = Some u -> is_url u) ->
  (forall u, od_get "url" d = Some u -> is_url u) ->
  proxylist (self s) = [] ->
  wire s = r :: rest -> (forall e, r <> RejectsConfig e) ->
  prepare_request kwargs s
  = (Ok tt, prepared s (od_update (resolve_kwargs d kwargs) d) r rest).
Proof.
  intros Hd Hc Hk Hku Hdu Hpl Hw Hr.
  assert (Hc' : complete (od_update (resolve_kwargs d kwargs) d))
    by by apply complete_update.
  unfold prepare_request.
  mstep reset_ok.
  erewrite bind_ok by (by eapply setup_if_any_ok). cbn beta.
  mstep get_self_ok. cbn. rewrite Hpl.
  erewrite bind_ok by reflexivity. cbn beta.
  mstep get_self_ok. mstep load_dict_ok.
  erewrite bind_ok by reflexivity. cbn beta.
  mstep update_self_ok.
  erewrite transport_process_config_ok; cbn; eauto using heap_insert_same.
Qed.

Lemma wrap_ok {A} (m : M A) s a s' :
  m s = (Ok a, s') -> wrap_transport_error m s = (Ok a, s').
Proof. unfold wrap_transport_error. by intros ->. Qed.

Lemma resolved_url_is_url `{Library} d u : is_url u -> is_url (resolved_url d u).
Proof.
  intros Hu. unfold resolved_url.
  destruct (od_get "url" d) as [[| | |b| |]|]; try done.
  destruct (String.eqb b ""); [done|].
  destruct u as [| | |r| |]; try done. by destruct (String.eqb r "").
Qed.

Lemma loop_begin `{Library} fuel count s d req dc :
  heap s !! config (self s) = Some (ODict d) -> complete d ->
  t_request (transport (self s)) = Some (req, Responds dc) ->
  request_loop (S fuel) count s
  = (redir_url ← find_redirect_url (set_timestamp (utcnow s) dc);
     match redir_url with
     | Some redir_url =>
         let redir_count := (count + 1)%Z in
         limit ← config_getitem "redirect_limit";
         over ← exceeds redir_count limit;
         if over then raise (GrabError GrabTooManyRedirectsError)
         else
           u ← make_url_absolute (VStr redir_url) false;
           prepare_request [("url", u)];;
           request_loop fuel redir_count
     | None => mret (Some (set_timestamp (utcnow s) dc))
     end) (after_response (dispatched s d req (Responds dc)) d dc).
Proof.
  intros Hd Hc Ht. cbn [request_loop].
  mstep log_request_ok.
  erewrite bind_ok by (by eapply try_transport_request_ok). cbn beta.
  erewrite bind_ok.
  2:{ apply wrap_ok. eapply process_request_result_ok; cbn; eauto. }
  done.
Qed.

Lemma after_response_config s d req dc :
  heap s !! config (self s) = Some (ODict d) ->
  let s' := after_response (dispatched s d req (Responds dc)) d dc in
  heap s' !! config (self s') = Some (ODict (cleared d)).
Proof. intros Hd. cbn. eauto using heap_insert_same. Qed.

Lemma od_get_cleared_follow d : od_get "follow_location" (cleared d) = od_get "follow_location" d.
Proof. by apply od_get_cleared. Qed.

Lemma location_of_set_timestamp t dc : location_of (set_timestamp t dc) = location_of dc.
Proof. done. Qed.

Lemma loop_terminal `{Library} fuel count s d req dc vf :
  heap s !! config (self s) = Some (ODict d) -> complete d ->
  t_request (transport (self s)) = Some (req, Responds dc) ->
  od_get "follow_location" d = Some vf ->
  (if truthy (<[config (self s) := ODict (cleared d)]> (heap s)) vf
   then location_of dc else None) = None ->
  request_loop (S fuel) count s
  = (Ok (Some (set_timestamp (utcnow s) dc)),
     after_response (dispatched s d req (Responds dc)) d dc).
Proof.
  intros Hd Hc Ht Hf Hloc. erewrite loop_begin by done.
  erewrite bind_ok.
  2:{ eapply find_redirect_url_ok; [by apply after_response_config|].
      rewrite od_get_cleared_follow. exact Hf. }
  cbn beta. rewrite location_of_set_timestamp.
  cbn [heap after_response set_self set_heap dispatched self config set_netlog set_sent set_transport].
  rewrite Hloc. done.
Qed.

Lemma loop_too_many `{Library} fuel count s d req dc loc n :
  heap s !! config (self s) = Some (ODict d) -> complete d ->
  t_request (transport (self s)) = Some (req, Responds dc) ->
  od_get "follow_location" d = Some (VBool true) ->
  redirects_to dc loc ->
  od_get "redirect_limit" d = Some (VInt n) -> (n < count + 1)%Z ->
  request_loop (S fuel) count s
  = (Raise (GrabError GrabTooManyRedirectsError),
     after_response (dispatched s d req (Responds dc)) d dc).
Proof.
  intros Hd Hc Ht Hf Hloc Hn Hlt. erewrite loop_begin by done.
  erewrite bind_ok.
  2:{ eapply find_redirect_url_ok; [by apply after_response_config|].
      rewrite od_get_cleared_follow. exact Hf. }
  cbn beta. cbn [truthy].
  assert (Hl : location_of (set_timestamp (utcnow s) dc) = Some loc)
    by (rewrite location_of_set_timestamp; by apply redirects_to_location).
  rewrite Hl. cbn zeta.
  erewrite bind_ok.
  2:{ eapply config_getitem_ok; [by apply after_response_config|].
      rewrite od_get_cleared by done. exact Hn. }
  cbn beta. unfold exceeds.
  erewrite bind_ok by reflexivity. cbn beta.
  apply Z.ltb_lt in Hlt. rewrite Hlt. done.
Qed.

Lemma loop_follow `{Library} fuel count s d req dc loc n r rest :
  heap s !! config (self s) = Some (ODict d) -> complete d ->
  (forall u, od_get "url" d = Some u -> is_url u) ->
  proxylist (self s) = [] ->
  t_request (transport (self s)) = Some (req, Responds dc) ->
  od_get "follow_location" d = Some (VBool true) ->
  redirects_to dc loc ->
  od_get "redirect_limit" d = Some (VInt n) -> (count + 1 <= n)%Z ->
  wire s = r :: rest -> (forall e, r <> RejectsConfig e) ->
  request_loop (S fuel) count s
  = request_loop fuel (count + 1) (hop s d req dc loc r rest).
Proof.
  intros Hd Hc Hdu Hpl Ht Hf Hloc Hn Hle Hw Hr. erewrite loop_begin by done.
  erewrite bind_ok.
  2:{ eapply find_redirect_url_ok; [by apply after_response_config|].
      rewrite od_get_cleared_follow. exact Hf. }
  cbn beta. cbn [truthy].
  assert (Hl : location_of (set_timestamp (utcnow s) dc) = Some loc)
    by (rewrite location_of_set_timestamp; by apply redirects_to_location).
  rewrite Hl. cbn zeta.
  erewrite bind_ok.
  2:{ eapply config_getitem_ok; [by apply after_response_config|].
      rewrite od_get_cleared by done. exact Hn. }
  cbn beta. unfold exceeds.
  erewrite bind_ok by reflexivity. cbn beta.
  assert (Hge : (n <? count + 1)%Z = false) by (apply Z.ltb_ge; lia).
  rewrite Hge.
  destruct (complete_get d "url" Hc) as [vu Hvu]; [simpl; tauto|].
  assert (Hvu' : od_get "url" (cleared d) = Some vu) by by rewrite od_get_cleared.
  erewrite bind_ok.
  2:{ eapply make_url_absolute_typed; [by apply after_response_config|exact Hvu'| |done].
      by apply Hdu. }
  cbn beta.
  erewrite bind_ok.
  2:{ eapply prepare_request_ok; [by apply after_response_config|..].
      - by apply complete_cleared.
      - intros k [<-|[]]. cbn. unfold od_mem. by rewrite Hvu'.
      - intros u [= <-]. by apply resolved_url_is_url.
      - intros u Hu. rewrite Hvu' in Hu. injection Hu as <-. by apply Hdu.
      - exact Hpl.
      - exact Hw.
      - exact Hr. }
  done.
Qed.

Lemma resolved_url_cleared `{Library} d u : resolved_url (cleared d) u = resolved_url d u.
Proof. unfold resolved_url. by rewrite od_get_cleared. Qed.

Lemma hop_config_eq `{Library} d loc :
  hop_config d loc
  = od_set "url" (resolved_url d (resolved_url d (VStr loc))) (cleared d).
Proof. unfold hop_config. cbn. by rewrite !resolved_url_cleared. Qed.

Lemma hop_config_get `{Library} d loc k :
  k <> "url" -> od_get k (hop_config d loc) = od_get k (cleared d).
Proof. intros Hk. rewrite hop_config_eq. by apply od_get_set_ne. Qed.

Lemma hop_config_url `{Library} d loc :
  od_get "url" (hop_config d loc)
  = Some (resolved_url d (resolved_url d (VStr loc))).
Proof. rewrite hop_config_eq. apply od_get_set_eq. Qed.

Lemma hop_config_complete `{Library} d loc : complete d -> complete (hop_config d loc).
Proof. intros Hd. rewrite hop_config_eq. by apply complete_set, complete_cleared. Qed.

Lemma hop_config_cleared `{Library} d loc : one_shot_cleared (hop_config d loc).
Proof.
  destruct (cleared_one_shot d) as (H1 & H2 & H3).
  unfold one_shot_cleared. by rewrite !hop_config_get.
Qed.

Lemma hop_facts `{Library} s d req dc loc r rest :
  heap s !! config (self s) = Some (ODict d) ->
  let s1 := hop s d req dc loc r rest in
  heap s1 !! config (self s1) = Some (ODict (hop_config d loc)) /\
  proxylist (self s1) = proxylist (self s) /\
  t_request (transport (self s1))
    = Some (descriptor (heap s1) (hop_config d loc), r) /\
  wire s1 = rest /\ sent s1 = (sent s ++ [req])%list /\ utcnow s1 = utcnow s.
Proof.
  intros Hd. cbn. repeat split.
  eauto using heap_insert_same.
Qed.

Lemma loop_chain `{Library} n rest ds :
  forall s d req dc count fuel,
  heap s !! config (self s) = Some (ODict d) -> complete d ->
  (forall u, od_get "url" d = Some u -> is_url u) ->
  proxylist (self s) = [] ->
  t_request (transport (self s)) = Some (req, Responds dc) ->
  (exists loc, redirects_to dc loc) ->
  od_get "follow_location" d = Some (VBool true) ->
  od_get "redirect_limit" d = Some (VInt n) ->
  Forall (fun dc => exists loc, redirects_to dc loc) ds ->
  wire s = (map Responds ds ++ rest)%list ->
  (count + Z.of_nat (length ds) = n)%Z ->
  length ds < fuel ->
  exists s' hops,
    request_loop fuel count s = (Raise (GrabError GrabTooManyRedirectsError), s')
    /\ sent s' = (sent s ++ req :: hops)%list /\ length hops = length ds
    /\ wire s' = rest.
Proof.
  induction ds as [|dc2 ds IH]; intros s d req dc count fuel
    Hd Hc Hu Hpl Ht [loc Hloc] Hf Hn Hall Hw Hcount Hfuel.
  - destruct fuel as [|fuel]; [simpl in Hfuel; lia|].
    eexists _, []. split.
    + eapply loop_too_many; eauto. simpl in Hcount. lia.
    + cbn. done.
  - destruct fuel as [|fuel]; [simpl in Hfuel; lia|].
    apply Forall_cons in Hall as [Hdc2 Hall].
    rewrite (loop_follow fuel count s d req dc loc n (Responds dc2)
               (map Responds ds ++ rest)%list);
      [|done|done|done|done|done|done|done|done|simpl in Hcount; lia|done|done].
    destruct (hop_facts s d req dc loc (Responds dc2) (map Responds ds ++ rest)%list Hd)
      as (Hd1 & Hpl1 & Ht1 & Hw1 & Hs1 & _).
    set (s1 := hop s d req dc loc (Responds dc2) (map Responds ds ++ rest)%list) in *.
    destruct (IH s1 (hop_config d loc) (descriptor (heap s1) (hop_config d loc))
                dc2 (count + 1)%Z fuel Hd1)
      as (s' & hops & Hrun & Hsent & Hlen & Hwire).
    + by apply hop_config_complete.
    + intros u. rewrite hop_config_url. intros [= <-].
      by repeat apply resolved_url_is_url.
    + by rewrite Hpl1.
    + exact Ht1.
    + exact Hdc2.
    + rewrite hop_config_get, od_get_cleared by done. exact Hf.
    + rewrite hop_config_get, od_get_cleared by done. exact Hn.
    + exact Hall.
    + exact Hw1.
    + simpl in Hcount. lia.
    + simpl in Hfuel. lia.
    + exists s', (descriptor (heap s1) (hop_config d loc) :: hops).
      split; [exact Hrun|]. split; [|split].
      * rewrite Hsent, Hs1. by rewrite <- app_assoc.
      * simpl. by rewrite Hlen.
      * exact Hwire.
Qed.

Lemma prepared_facts `{Library} s d d' r rest :
  heap s !! config (self s) = Some (ODict d) ->
  let s1 := prepared s d' r rest in
  heap s1 !! config (self s1) = Some (ODict d') /\
  proxylist (self s1) = proxylist (self s) /\
  t_request (transport (self s1)) = Some (descriptor (heap s1) d', r) /\
  wire s1 = rest /\ sent s1 = sent s /\ utcnow s1 = utcnow s /\
  cookies (self s1) = cookies (self s).
Proof.
  intros Hd. cbn. repeat split.
  eauto using heap_insert_same.
Qed.

Lemma request_unfold `{Library} fuel u kwargs s s1 :
  prepare_request (match u with
                   | Some u => od_set "url" (VStr u) kwargs
                   | None => kwargs
                   end) s = (Ok tt, s1) ->
  request fuel u kwargs s = request_loop fuel 0 s1.
Proof. intros Hp. unfold request. by erewrite bind_ok by exact Hp. Qed.

Lemma url_config_get `{Library} d u k :
  k <> "url" -> od_get k (first_config d [("url", VStr u)]) = od_get k d.
Proof. intros Hk. cbn. by rewrite od_get_set_ne. Qed.

Lemma url_config_url `{Library} d u :
  od_get "url" (first_config d [("url", VStr u)]) = Some (resolved_url d (VStr u)).
Proof. cbn. apply od_get_set_eq. Qed.

Lemma url_config_complete `{Library} d u : complete d -> complete (first_config d [("url", VStr u)]).
Proof. intros Hd. by apply complete_update. Qed.

(** C2: with redirects followed and [redirect_limit] set to N-1, a call
    whose first N attempts are each answered by a redirect (one of the five
    codes, with a [Location]) raises [GrabTooManyRedirectsError]; by then
    exactly N requests have been put on the wire, the first one and the
    N-1 hops that were followed, and exactly the N scripted responses have
    been consumed. *)
Theorem too_many_redirects `{Library} (N : nat) (ds : list Document)
    (rest : list reply) (s : state) (d : dict) (u : string) (fuel : nat) :
  1 <= N -> length ds = N ->
  Forall (fun dc => exists loc, redirects_to dc loc) ds ->
  heap s !! config (self s) = Some (ODict d) -> complete d ->
  (forall v, od_get "url" d = Some v -> is_url v) ->
  od_get "follow_location" d = Some (VBool true) ->
  od_get "redirect_limit" d = Some (VInt (Z.of_nat N - 1)) ->
  proxylist (self s) = [] ->
  wire s = (map Responds ds ++ rest)%list ->
  N <= fuel ->
  exists s' first hops,
    request fuel (Some u) [] s
    = (Raise (GrabError GrabTooManyRedirectsError), s')
    /\ sent s' = (sent s ++ first :: hops)%list
    /\ length hops = N - 1
    /\ wire s' = rest.
Proof.
  intros HN Hlen Hall Hd Hc Hu Hf Hn Hpl Hw Hfuel.
  destruct ds as [|dc1 ds]; [simpl in Hlen; lia|].
  apply Forall_cons in Hall as [Hdc1 Hall].
  destruct (complete_get d "url" Hc) as [vu Hvu]; [simpl; tauto|].
  assert (Hprep : prepare_request [("url", VStr u)] s
            = (Ok tt, prepared s (first_config d [("url", VStr u)])
                        (Responds dc1) (map Responds ds ++ rest)%list)).
  { apply prepare_request_ok; try done.
    - intros k [<-|[]]. cbn. unfold od_mem. by rewrite Hvu.
    - by intros v [= <-]. }
  rewrite (request_unfold fuel (Some u) [] s _ Hprep).
  destruct (prepared_facts s d (first_config d [("url", VStr u)]) (Responds dc1)
              (map Responds ds ++ rest)%list Hd)
    as (Hd1 & Hpl1 & Ht1 & Hw1 & Hs1 & _).
  set (s1 := prepared _ _ _ _) in *.
  destruct (loop_chain (Z.of_nat N - 1) rest ds s1 _
              (descriptor (heap s1) (first_config d [("url", VStr u)]))
              dc1 0%Z fuel Hd1)
    as (s' & hops & Hrun & Hsent & Hlenh & Hwire).
  - by apply url_config_complete.
  - intros v. rewrite url_config_url. intros [= <-]. by apply resolved_url_is_url.
  - by rewrite Hpl1.
  - exact Ht1.
  - exact Hdc1.
  - by rewrite url_config_get.
  - by rewrite url_config_get.
  - exact Hall.
  - exact Hw1.
  - simpl in Hlen. lia.
  - simpl in Hlen. lia.
  - exists s', (descriptor (heap s1) (first_config d [("url", VStr u)])), hops.
    split; [exact Hrun|]. split; [by rewrite Hsent, Hs1|].
    split; [simpl in Hlen; lia|exact Hwire].
Qed.

Lemma resolved_url_join `{Library} d b r :
  od_get "url" d = Some (VStr b) -> b <> "" -> r <> "" ->
  resolved_url d (VStr r) = VStr (urljoin b r).
Proof.
  intros Hd Hb Hr. unfold resolved_url. rewrite Hd.
  apply String.eqb_neq in Hb, Hr. by rewrite Hb, Hr.
Qed.

(** C1: with redirects followed and a limit of at least 1, when the first
    attempt (to [cur]) is answered by a redirect to [loc], [request] puts a
    second request on the wire, to [urljoin cur loc], and returns the
    document of that second attempt, not the redirect.  The engine joins
    the location to the current url twice (in the loop and again in
    [setup]); for an absolute current url the second join changes
    nothing, which is the hypothesis on [urljoin]. *)
Theorem redirect_is_followed `{Library} (fuel : nat) (s : state) (d : dict)
    (u cur loc : string) (n : Z) (d1 d2 : Document) (rest : list reply) :
  heap s !! config (self s) = Some (ODict d) -> complete d ->
  (forall v, od_get "url" d = Some v -> is_url v) ->
  od_get "follow_location" d = Some (VBool true) ->
  od_get "redirect_limit" d = Some (VInt n) -> (1 <= n)%Z ->
  proxylist (self s) = [] ->
  resolved_url d (VStr u) = VStr cur -> cur <> "" ->
  wire s = Responds d1 :: Responds d2 :: rest ->
  redirects_to d1 loc ->
  urljoin cur loc <> "" ->
  urljoin cur (urljoin cur loc) = urljoin cur loc ->
  location_of d2 = None ->
  exists s' first second,
    request (S (S fuel)) (Some u) [] s
    = (Ok (Some (set_timestamp (utcnow s) d2)), s')
    /\ sent s' = (sent s ++ [first; second])%list
    /\ req_url first = VStr cur
    /\ req_url second = VStr (urljoin cur loc)
    /\ doc (self s') = Some (set_timestamp (utcnow s) d2)
    /\ wire s' = rest.
Proof.
  intros Hd Hc Hu Hf Hn Hle Hpl Hcur Hne Hw Hloc Hj Habs Hterm.
  destruct (complete_get d "url" Hc) as [vu Hvu]; [simpl; tauto|].
  set (d0 := first_config d [("url", VStr u)]).
  assert (Hprep : prepare_request [("url", VStr u)] s
            = (Ok tt, prepared s d0 (Responds d1) (Responds d2 :: rest))).
  { apply prepare_request_ok; try done.
    - intros k [<-|[]]. cbn. unfold od_mem. by rewrite Hvu.
    - by intros v [= <-]. }
  rewrite (request_unfold (S (S fuel)) (Some u) [] s _ Hprep).
  destruct (prepared_facts s d d0 (Responds d1) (Responds d2 :: rest) Hd)
    as (Hd1 & Hpl1 & Ht1 & Hw1 & Hs1 & Hnow1 & _).
  set (s1 := prepared _ _ _ _) in *.
  assert (Hc0 : complete d0) by by apply url_config_complete.
  assert (Hu0 : od_get "url" d0 = Some (VStr cur))
    by (unfold d0; by rewrite url_config_url, Hcur).
  rewrite (loop_follow (S fuel) 0 s1 d0 (descriptor (heap s1) d0) d1 loc n
             (Responds d2) rest);
    [|done|done| |by rewrite Hpl1|exact Ht1| |done| |lia|done|done]; cycle 1.
  { intros v. rewrite Hu0. by intros [= <-]. }
  { unfold d0. by rewrite url_config_get. }
  { unfold d0. by rewrite url_config_get. }
  destruct (hop_facts s1 d0 (descriptor (heap s1) d0) d1 loc (Responds d2) rest Hd1)
    as (Hd2 & Hpl2 & Ht2 & Hw2 & Hs2 & Hnow2).
  set (s2 := hop _ _ _ _ _ _ _) in *.
  assert (Hf2 : od_get "follow_location" (hop_config d0 loc) = Some (VBool true)).
  { rewrite hop_config_get, od_get_cleared by done. unfold d0.
    by rewrite url_config_get. }
  eexists _, (descriptor (heap s1) d0), (descriptor (heap s2) (hop_config d0 loc)).
  split.
  { erewrite loop_terminal; [|exact Hd2|by apply hop_config_complete|exact Ht2|exact Hf2|].
    - by rewrite Hnow2, Hnow1.
    - cbn [truthy]. exact Hterm. }
  cbn [sent after_response dispatched set_self set_heap set_netlog set_sent
       self doc wire netlog utcnow].
  split; [rewrite Hs2, Hs1; by rewrite <- app_assoc|].
  split; [unfold descriptor; cbn [req_url]; by rewrite Hu0|].
  split.
  { unfold descriptor. cbn [req_url]. rewrite hop_config_url.
    rewrite (resolved_url_join d0 cur loc) by (done || apply Hloc).
    rewrite (resolved_url_join d0 cur (urljoin cur loc)) by done.
    cbn. by rewrite Habs. }
  split; [by rewrite Hnow2, Hnow1|exact Hw2].
Qed.

Lemma loop_transport_error `{Library} fuel count s d req e ge :
  heap s !! config (self s) = Some (ODict d) -> complete d ->
  t_request (transport (self s)) = Some (req, RequestRaises e) ->
  request_error e = GrabError ge ->
  request_loop (S fuel) count s
  = (Raise (GrabError ge),
     set_heap (<[config (self s) := ODict (cleared d)]> (heap s))
       (set_sent (sent s ++ [req])
          (set_netlog (netlog s ++ [log_line_of s d]) s))).
Proof.
  intros Hd Hc Ht He. cbn [request_loop].
  mstep log_request_ok.
  erewrite bind_raise; [reflexivity|].
  by erewrite try_transport_request_grab_error.
Qed.

Lemma descriptor_cleared `{Library} h d :
  one_shot_cleared d ->
  req_post (descriptor h d) = VNone /\ req_multipart_post (descriptor h d) = VNone.
Proof. intros (Hp & Hm & _). unfold descriptor. cbn. by rewrite Hp, Hm. Qed.

(** C6: when [transport.request] raises an error that leaves it as a
    [GrabError], at whatever attempt of the loop, the loop ends with that
    error, the config it leaves has [post], [multipart_post] and [method]
    set to [None], the failed request has been put on the wire once and
    nothing further of the script is consumed (no retry).  In particular a
    call whose first attempt fails leaves a config from which the next
    descriptor carries no payload. *)
Theorem transport_error_clears_payload `{Library} (fuel : nat) (e : exn)
    (ge : grab_error) :
  request_error e = GrabError ge ->
  (forall (count : Z) (s : state) (d : dict) (req : Descriptor),
     heap s !! config (self s) = Some (ODict d) -> complete d ->
     t_request (transport (self s)) = Some (req, RequestRaises e) ->
     exists s',
       request_loop (S fuel) count s = (Raise (GrabError ge), s')
       /\ heap s' !! config (self s') = Some (ODict (cleared d))
       /\ sent s' = (sent s ++ [req])%list /\ wire s' = wire s)
  /\
  (forall (u : option string) (kwargs : dict) (s : state) (d : dict)
          (rest : list reply),
     heap s !! config (self s) = Some (ODict d) -> complete d ->
     (forall k, In k (od_keys kwargs) -> od_mem k d = true) ->
     (forall v, od_get "url" kwargs = Some v -> is_url v) ->
     (forall v, od_get "url" d = Some v -> is_url v) ->
     proxylist (self s) = [] ->
     wire s = RequestRaises e :: rest ->
     exists s' d' first,
       request (S fuel) u kwargs s = (Raise (GrabError ge), s')
       /\ heap s' !! config (self s') = Some (ODict d')
       /\ one_shot_cleared d'
       /\ req_post (descriptor (heap s') d') = VNone
       /\ req_multipart_post (descriptor (heap s') d') = VNone
       /\ sent s' = (sent s ++ [first])%list /\ wire s' = rest).
Proof.
  intros He. split.
  - intros count s d req Hd Hc Ht. eexists. split.
    + by apply (loop_transport_error fuel count s d req e ge).
    + cbn. eauto using heap_insert_same.
  - intros u kwargs s d rest Hd Hc Hk Hku Hdu Hpl Hw.
    set (kw := match u with
               | Some u => od_set "url" (VStr u) kwargs
               | None => kwargs
               end).
    destruct (complete_get d "url" Hc) as [vu Hvu]; [simpl; tauto|].
    assert (Hk' : forall k, In k (od_keys kw) -> od_mem k d = true).
    { intros k Hin. destruct (od_mem k d) eqn:E; [done|].
      destruct u as [u|]; [|by rewrite Hk in E].
      destruct (String.eqb k "url") eqn:Ek.
      - apply String.eqb_eq in Ek. subst k. unfold od_mem in E. by rewrite Hvu in E.
      - apply String.eqb_neq in Ek.
        assert (Hg : od_mem k kw = true).
        { unfold od_mem. destruct (od_get k kw) eqn:Eg; [done|].
          by apply od_get_None_not_In in Eg. }
        unfold kw in Hg. rewrite od_mem_set in Hg.
        apply String.eqb_neq in Ek. rewrite Ek in Hg. cbn in Hg.
        unfold od_mem in Hg. destruct (od_get k kwargs) eqn:Eg; [|done].
        rewrite Hk in E; [done|]. by eapply od_get_In. }
    assert (Hku' : forall v, od_get "url" kw = Some v -> is_url v).
    { intros v. destruct u as [u|]; [|apply Hku].
      unfold kw. rewrite od_get_set_eq. by intros [= <-]. }
    assert (Hprep : prepare_request kw s
              = (Ok tt, prepared s (first_config d kw) (RequestRaises e) rest))
      by by apply prepare_request_ok.
    rewrite (request_unfold (S fuel) u kwargs s _ Hprep).
    destruct (prepared_facts s d (first_config d kw) (RequestRaises e) rest Hd)
      as (Hd1 & Hpl1 & Ht1 & Hw1 & Hs1 & _).
    set (s1 := prepared _ _ _ _) in *.
    eexists _, (cleared (first_config d kw)), (descriptor (heap s1) (first_config d kw)).
    split.
    { apply (loop_transport_error fuel 0 s1 (first_config d kw)
               (descriptor (heap s1) (first_config d kw)) e ge);
        [exact Hd1| |exact Ht1|exact He].
      by apply complete_update. }
    cbn [heap self config set_heap set_sent set_netlog sent wire].
    split; [eauto using heap_insert_same|].
    split; [apply cleared_one_shot|].
    destruct (descriptor_cleared
                (<[config (self s1) := ODict (cleared (first_config d kw))]> (heap s1))
                (cleared (first_config d kw)) (cleared_one_shot _)) as [Hp Hm].
    split; [exact Hp|]. split; [exact Hm|].
    split; [by rewrite Hs1|exact Hw1].
Qed.

(** ** Operations that only read *)

Lemma readonly_ret {A} (a : A) : readonly (ret a).
Proof. intros s r s' [= _ <-]. done. Qed.

Lemma readonly_raise {A} e : readonly (@raise state A e).
Proof. intros s r s' [= _ <-]. done. Qed.

Lemma readonly_bind {A B} (m : M A) (f : A -> M B) :
  readonly m -> (forall a, readonly (f a)) -> readonly (bind m f).
Proof.
  intros Hm Hf s r s' Hb.
  apply bind_inv in Hb as [(a & s1 & H1 & H2)|(e & H1 & _)].
  - apply Hm in H1. subst s1. by eapply Hf.
  - by eapply Hm.
Qed.

Lemma readonly_get : readonly get.
Proof. intros s r s' [= _ <-]. done. Qed.

Lemma readonly_get_self : readonly get_self.
Proof. intros s r s' [= _ <-]. done. Qed.

Lemma readonly_load l : readonly (load l).
Proof. intros s r s'. unfold load. destruct (heap s !! l); by intros [= _ <-]. Qed.

Lemma readonly_load_dict l : readonly (load_dict l).
Proof.
  apply readonly_bind; [apply readonly_load|].
  intros [d|vs]; [apply readonly_ret|apply readonly_raise].
Qed.

Lemma readonly_getitem l k : readonly (getitem l k).
Proof.
  apply readonly_bind; [apply readonly_load_dict|].
  intros d. destruct (od_get k d); [apply readonly_ret|apply readonly_raise].
Qed.

Lemma readonly_dict_get l k : readonly (dict_get l k).
Proof. apply readonly_bind; [apply readonly_load_dict|]. intros d. apply readonly_ret. Qed.

Lemma readonly_config_getitem k : readonly (config_getitem k).
Proof. apply readonly_bind; [apply readonly_get_self|]. intros g. apply readonly_getitem. Qed.

Lemma readonly_config_get k : readonly (config_get k).
Proof. apply readonly_bind; [apply readonly_get_self|]. intros g. apply readonly_dict_get. Qed.

Lemma readonly_is_true v : readonly (is_true v).
Proof. apply readonly_bind; [apply readonly_get|]. intros s. apply readonly_ret. Qed.

Lemma readonly_exceeds c v : readonly (exceeds c v).
Proof. destruct v; try apply readonly_raise; apply readonly_ret. Qed.

Lemma readonly_py_urljoin `{Library} b u : readonly (py_urljoin b u).
Proof.
  apply readonly_bind; [apply readonly_is_true|]. intros hb.
  destruct (negb hb); [apply readonly_ret|].
  apply readonly_bind; [apply readonly_is_true|]. intros hu.
  destruct (negb hu); [apply readonly_ret|].
  destruct b, u; try apply readonly_raise. apply readonly_ret.
Qed.

Lemma readonly_make_url_absolute `{Library} u b : readonly (make_url_absolute u b).
Proof.
  apply readonly_bind; [apply readonly_config_getitem|]. intros cu.
  apply readonly_bind; [apply readonly_is_true|]. intros hu.
  destruct hu; [|apply readonly_ret].
  apply readonly_bind; [apply readonly_get_self|]. intros g.
  destruct (if b then doc g else None) as [d|]; [|apply readonly_py_urljoin].
  destruct (find_base_url (body d)) as [bu|]; [|apply readonly_py_urljoin].
  destruct (negb (String.eqb bu "")); apply readonly_py_urljoin.
Qed.

Lemma readonly_find_redirect_url d : readonly (find_redirect_url d).
Proof.
  apply readonly_bind; [apply readonly_config_getitem|]. intros f.
  apply readonly_bind; [apply readonly_is_true|]. intros b.
  destruct (b && _); [|apply readonly_ret].
  destruct (header_get "Location" (headers d)) as [loc|]; [|apply readonly_ret].
  destruct (negb (String.eqb loc "")); apply readonly_ret.
Qed.

Lemma readonly_for_each {A} (xs : list A) (f : A -> M unit) :
  (forall x, readonly (f x)) -> readonly (for_each xs f).
Proof.
  intros Hf. induction xs as [|x xs IH]; [apply readonly_ret|].
  simpl. apply readonly_bind; [apply Hf|]. intros _. apply IH.
Qed.

(** ** What a successful step has done *)

Lemma load_dict_inv l s d s' :
  load_dict l s = (Ok d, s') -> s' = s /\ heap s !! l = Some (ODict d).
Proof.
  intros Hl. assert (s' = s) as -> by by eapply readonly_load_dict.
  split; [done|]. revert Hl. munfold.
  destruct (heap s !! l) as [[d0|vs]|]; [|done..]. by intros [= ->].
Qed.

Lemma getitem_inv l k s v s' :
  getitem l k s = (Ok v, s') ->
  s' = s /\ exists d, heap s !! l = Some (ODict d) /\ od_get k d = Some v.
Proof.
  intros Hg. assert (s' = s) as -> by by eapply readonly_getitem.
  split; [done|]. unfold getitem in Hg.
  apply bind_inv_ok in Hg as (d & s1 & H1 & H2).
  apply load_dict_inv in H1 as [-> Hd]. exists d. split; [done|].
  destruct (od_get k d); [|done]. by injection H2 as ->.
Qed.

Lemma config_getitem_inv k s v s' :
  config_getitem k s = (Ok v, s') ->
  s' = s /\ exists d, cfg_is s d /\ od_get k d = Some v.
Proof. unfold config_getitem, cfg_is. munfold. intros Hg. by apply getitem_inv in Hg. Qed.

Lemma setitem_inv l k v s s' :
  setitem l k v s = (Ok tt, s') ->
  exists d, heap s !! l = Some (ODict d) /\
            s' = set_heap (<[l := ODict (od_set k v d)]> (heap s)) s.
Proof.
  unfold setitem. intros Hs.
  apply bind_inv_ok in Hs as (d & s1 & H1 & H2).
  apply load_dict_inv in H1 as [-> Hd]. exists d. split; [done|].
  by injection H2 as <-.
Qed.

Lemma reset_temporary_options_inv s s' :
  reset_temporary_options s = (Ok tt, s') ->
  exists d, cfg_is s d /\
            s' = set_heap (<[config (self s) := ODict (cleared d)]> (heap s)) s.
Proof.
  intros Hr. pose proof Hr as Hr0.
  unfold reset_temporary_options, config_setitem in Hr.
  apply bind_inv_ok in Hr as ([] & s1 & H1 & Hr).
  apply bind_inv_ok in H1 as (g & s0 & [= <- <-] & H1).
  apply setitem_inv in H1 as (d & Hd & ->).
  exists d. split; [done|].
  erewrite reset_temporary_options_ok in Hr0 by done.
  by injection Hr0 as <-.
Qed.

Lemma setup_inv `{Library} kwargs s s' :
  setup kwargs s = (Ok tt, s') ->
  exists d kw',
    cfg_is s d /\ od_keys kw' = od_keys kwargs /\
    s' = set_heap (<[config (self s) := ODict (od_update kw' d)]> (heap s)) s.
Proof.
  unfold setup. intros Hs.
  apply bind_inv_ok in Hs as (g & s0 & [= <- <-] & Hs).
  apply bind_inv_ok in Hs as ([] & s1 & H1 & Hs).
  assert (s1 = s) as ->.
  { eapply readonly_for_each; [|exact H1]. intros k.
    apply readonly_bind; [apply readonly_load_dict|]. intros d.
    destruct (negb (od_mem k d)); [apply readonly_raise|apply readonly_ret]. }
  apply bind_inv_ok in Hs as (kw' & s2 & H2 & Hs).
  assert (s2 = s /\ od_keys kw' = od_keys kwargs) as [-> Hk].
  { destruct (od_get "url" kwargs) as [u|] eqn:Eu; [|by injection H2 as <- <-].
    apply bind_inv_ok in H2 as (cu & s3 & H3 & H2).
    apply readonly_config_get in H3 as ->.
    apply bind_inv_ok in H2 as (b & s3 & H3 & H2).
    apply readonly_is_true in H3 as ->.
    destruct b; [|by injection H2 as <- <-].
    apply bind_inv_ok in H2 as (u' & s3 & H3 & H2).
    apply readonly_make_url_absolute in H3 as ->.
    injection H2 as <- <-. split; [done|].
    apply od_keys_set_mem. unfold od_mem. by rewrite Eu. }
  apply bind_inv_ok in Hs as (d & s3 & H3 & Hs).
  apply load_dict_inv in H3 as [-> Hd].
  exists d, kw'. split; [done|]. split; [done|].
  by injection Hs as <-.
Qed.

Lemma stays_cleared_same s s' :
  heap s' = heap s -> config (self s') = config (self s) -> stays_cleared s s'.
Proof. intros Hh Hc d Hd Ho. exists d. unfold cfg_is in *. by rewrite Hh, Hc. Qed.

Lemma stays_cleared_trans s1 s2 s3 :
  stays_cleared s1 s2 -> stays_cleared s2 s3 -> stays_cleared s1 s3.
Proof.
  intros H12 H23 d Hd Ho. destruct (H12 d Hd Ho) as (d2 & Hd2 & Ho2). eauto.
Qed.

Lemma setup_effect `{Library} kwargs s s' :
  setup kwargs s = (Ok tt, s') ->
  self s' = self s /\ sent s' = sent s /\ wire s' = wire s /\
  (exists d', cfg_is s' d') /\
  (avoids_one_shot (od_keys kwargs) -> stays_cleared s s').
Proof.
  intros Hs. apply setup_inv in Hs as (d & kw' & Hd & Hk & ->).
  cbn. repeat split.
  - eexists. unfold cfg_is. cbn. eauto using heap_insert_same.
  - intros (Hp & Hm & Hme) d0 Hd0 (Ho1 & Ho2 & Ho3).
    unfold cfg_is in Hd, Hd0. rewrite Hd in Hd0. injection Hd0 as <-.
    exists (od_update kw' d). split.
    + unfold cfg_is. cbn. eauto using heap_insert_same.
    + unfold one_shot_cleared. rewrite !od_get_update_notin by by rewrite Hk. done.
Qed.

Lemma transport_process_config_inv `{Library} s s' :
  transport_process_config s = (Ok tt, s') ->
  exists d fate rest,
    cfg_is s d /\
    s' = set_self (set_transport (mkTransport (Some (descriptor (heap s) d, fate)) false)
                     (self s)) (set_wire rest s).
Proof.
  unfold transport_process_config. intros Ht.
  apply bind_inv_ok in Ht as (u & s1 & H1 & Ht).
  apply config_getitem_inv in H1 as (-> & d & Hd & Hu).
  apply bind_inv_ok in Ht as (p & s1 & H1 & Ht).
  apply config_getitem_inv in H1 as (-> & d1 & Hd1 & Hp).
  apply bind_inv_ok in Ht as (mp & s1 & H1 & Ht).
  apply config_getitem_inv in H1 as (-> & d2 & Hd2 & Hmp).
  apply bind_inv_ok in Ht as (g & s1 & [= <- <-] & Ht).
  apply bind_inv_ok in Ht as (d3 & s1 & H1 & Ht).
  apply load_dict_inv in H1 as (-> & Hd3).
  apply bind_inv_ok in Ht as (s0 & s1 & [= <- <-] & Ht).
  unfold cfg_is in *. rewrite Hd in Hd1, Hd2, Hd3.
  injection Hd1 as <-. injection Hd2 as <-. injection Hd3 as <-.
  assert (Hdesc : mkDescriptor u (detect_request_method (heap s) d) p mp
                  = descriptor (heap s) d).
  { unfold descriptor. by rewrite Hu, Hp, Hmp. }
  rewrite Hdesc in Ht.
  destruct (wire s) as [|r rest] eqn:Ew.
  - injection Ht as <-. eexists d, _, []. split; [done|].
    destruct s; cbn in *. by subst.
  - destruct r; try (injection Ht as <-; eexists d, _, rest; split; done).
    done.
Qed.

Lemma change_proxy_effect `{Library} s s' :
  change_proxy s = (Ok tt, s') ->
  self s' = self s /\ sent s' = sent s /\ wire s' = wire s /\ stays_cleared s s'.
Proof.
  unfold change_proxy. intros Hc.
  apply bind_inv_ok in Hc as (g & s0 & [= <- <-] & Hc).
  destruct (proxylist (self s)) as [|p0 pl].
  { injection Hc as <-. repeat split. by apply stays_cleared_same. }
  apply bind_inv_ok in Hc as (i & s1 & H1 & Hc).
  assert (Hs1 : heap s1 = heap s /\ self s1 = self s /\ sent s1 = sent s
                /\ wire s1 = wire s).
  { unfold draw in H1. destruct (entropy s); injection H1 as <- <-; done. }
  destruct Hs1 as (Hh & Hg & Hse & Hw).
  destruct (proxy_type _) as [ty|]; [|done].
  apply setup_effect in Hc as (Hg' & Hse' & Hw' & _ & Hst).
  rewrite Hg', Hse', Hw', Hg, Hse, Hw. repeat split.
  eapply stays_cleared_trans; [apply stays_cleared_same; by rewrite ?Hh, ?Hg|].
  apply Hst. cbn. unfold avoids_one_shot. cbn. intuition discriminate.
Qed.

Lemma prepare_request_inv `{Library} kwargs s s' :
  prepare_request kwargs s = (Ok tt, s') ->
  config (self s') = config (self s) /\ sent s' = sent s /\
  (exists d' fate,
     cfg_is s' d' /\
     t_request (transport (self s')) = Some (descriptor (heap s') d', fate)) /\
  (avoids_one_shot (od_keys kwargs) -> stays_cleared s s').
Proof.
  unfold prepare_request. intros Hp.
  apply bind_inv_ok in Hp as ([] & s1 & H1 & Hp).
  rewrite reset_ok in H1. injection H1 as <-.
  set (s1 := set_self _ s) in *.
  apply bind_inv_ok in Hp as ([] & s2 & H2 & Hp).
  assert (Hs2 : self s2 = self s1 /\ sent s2 = sent s1 /\ wire s2 = wire s1 /\
                (avoids_one_shot (od_keys kwargs) -> stays_cleared s1 s2)).
  { destruct kwargs as [|kv kw].
    - injection H2 as <-. repeat split. intros _. by apply stays_cleared_same.
    - apply setup_effect in H2. tauto. }
  destruct Hs2 as (Hg2 & Hse2 & Hw2 & Hst2).
  apply bind_inv_ok in Hp as (g & s0 & [= <- <-] & Hp).
  apply bind_inv_ok in Hp as ([] & s3 & H3 & Hp).
  assert (Hs3 : self s3 = self s2 /\ sent s3 = sent s2 /\ stays_cleared s2 s3).
  { destruct (proxylist (self s2)).
    - injection H3 as <-. repeat split. by apply stays_cleared_same.
    - apply bind_inv_ok in H3 as (ac & s4 & H4 & H3).
      apply readonly_config_getitem in H4 as ->.
      apply bind_inv_ok in H3 as (b & s4 & H4 & H3).
      apply readonly_is_true in H4 as ->.
      destruct b.
      + apply change_proxy_effect in H3. tauto.
      + injection H3 as <-. repeat split. by apply stays_cleared_same. }
  destruct Hs3 as (Hg3 & Hse3 & Hst3).
  apply bind_inv_ok in Hp as (g & s0 & [= <- <-] & Hp).
  apply bind_inv_ok in Hp as (d & s4 & H4 & Hp).
  apply load_dict_inv in H4 as (-> & Hd).
  apply bind_inv_ok in Hp as (s0 & s4 & [= <- <-] & Hp).
  apply bind_inv_ok in Hp as ([] & s4 & [= <-] & Hp).
  apply transport_process_config_inv in Hp as (d' & fate & rest & Hd' & ->).
  split; [cbn; by rewrite Hg3, Hg2|].
  split; [cbn; by rewrite Hse3, Hse2|].
  split.
  - exists d', fate. split; [by unfold cfg_is in *|done].
  - intros Hav.
    eapply stays_cleared_trans; [|eapply stays_cleared_trans;
                                   [by apply Hst2|eapply stays_cleared_trans; [exact Hst3|]]].
    + by apply stays_cleared_same.
    + by apply stays_cleared_same.
Qed.

Lemma wrap_inv {A} (m : M A) s a s' :
  wrap_transport_error m s = (Ok a, s') -> m s = (Ok a, s').
Proof. unfold wrap_transport_error. by destruct (m s) as [[a0|e] s0]. Qed.

Lemma transport_request_inv s s' :
  transport_request s = (Ok tt, s') ->
  exists req fate,
    t_request (transport (self s)) = Some (req, fate) /\
    heap s' = heap s /\ config (self s') = config (self s) /\
    sent s' = (sent s ++ [req])%list.
Proof.
  unfold transport_request. intros Ht.
  apply bind_inv_ok in Ht as (g & s0 & [= <- <-] & Ht).
  destruct (t_request (transport (self s))) as [[req fate]|]; [|done].
  exists req, fate. split; [done|].
  apply bind_inv_ok in Ht as ([] & s1 & [= <-] & Ht).
  apply bind_inv_ok in Ht as ([] & s2 & H2 & Ht).
  apply wrap_inv in H2.
  assert (s2 = set_sent (sent s ++ [req]) s) as ->.
  { destruct fate as [e|e|e|d]; try by injection H2 as <-.
    destruct e as [ge|[]| | | | |]; done. }
  by injection Ht as <-.
Qed.

Lemma try_transport_request_inv s s' :
  try_transport_request s = (Ok tt, s') -> transport_request s = (Ok tt, s').
Proof.
  unfold try_transport_request.
  destruct (transport_request s) as [[[]|e] s0]; [done|].
  destruct e; [|done..]. intros Hr.
  apply bind_inv_ok in Hr as (a & s1 & _ & Hr). done.
Qed.

Lemma log_request_inv s s' :
  log_request s = (Ok tt, s') ->
  heap s' = heap s /\ self s' = self s /\ sent s' = sent s.
Proof.
  unfold log_request. intros Hl.
  apply bind_inv_ok in Hl as (p & s1 & H1 & Hl).
  apply readonly_config_getitem in H1 as ->.
  apply bind_inv_ok in Hl as (b & s1 & H1 & Hl).
  apply readonly_is_true in H1 as ->.
  apply bind_inv_ok in Hl as ([] & s1 & H1 & Hl).
  assert (s1 = s) as ->.
  { destruct b; [|by injection H1 as <-].
    revert H1. apply readonly_bind; [apply readonly_config_getitem|].
    intros _. apply readonly_bind; [apply readonly_config_getitem|].
    intros _. apply readonly_ret. }
  clear H1.
  apply bind_inv_ok in Hl as (g & s1 & [= <- <-] & Hl).
  apply bind_inv_ok in Hl as (u & s1 & H1 & Hl).
  apply readonly_config_getitem in H1 as ->.
  by injection Hl as <-.
Qed.

Lemma process_request_result_inv s d s' :
  process_request_result s = (Ok d, s') ->
  config (self s') = config (self s) /\ sent s' = sent s /\
  exists d', cfg_is s' d' /\ one_shot_cleared d'.
Proof.
  unfold process_request_result. intros Hp.
  apply bind_inv_ok in Hp as (now & s1 & H1 & Hp).
  injection H1 as <- <-.
  apply bind_inv_ok in Hp as ([] & s1 & H1 & Hp).
  apply reset_temporary_options_inv in H1 as (d0 & Hd0 & ->).
  set (s1 := set_heap _ s) in *.
  assert (Hc1 : cfg_is s1 (cleared d0))
    by (unfold cfg_is, s1; cbn; eauto using heap_insert_same).
  apply bind_inv_ok in Hp as (od & s2 & H2 & Hp).
  assert (s2 = s1) as ->.
  { revert H2. unfold transport_prepare_response.
    apply readonly_bind; [apply readonly_get_self|]. intros g.
    destruct (negb _); [apply readonly_ret|].
    destruct (t_request (transport g)) as [[? []]|];
      try apply readonly_raise; apply readonly_ret. }
  clear H2.
  apply bind_inv_ok in Hp as ([] & s2 & [= <-] & Hp).
  apply bind_inv_ok in Hp as (reuse & s2 & H3 & Hp).
  apply readonly_config_getitem in H3 as ->.
  apply bind_inv_ok in Hp as (b & s2 & H3 & Hp).
  apply readonly_is_true in H3 as ->.
  destruct od as [dc|]; [|done].
  apply bind_inv_ok in Hp as ([] & s2 & H3 & Hp).
  apply bind_inv_ok in Hp as ([] & s3 & [= <-] & Hp).
  injection Hp as <- <-.
  assert (Hs2 : heap s2 = heap s1 /\ config (self s2) = config (self s1)
                /\ sent s2 = sent s1).
  { destruct b; by injection H3 as <-. }
  destruct Hs2 as (Hh & Hc & Hs).
  cbn. rewrite Hc, Hs. repeat split.
  exists (cleared d0). split; [|apply cleared_one_shot].
  unfold cfg_is in *. cbn. by rewrite Hh, Hc.
Qed.

Lemma descriptor_hop_cleared `{Library} h d :
  one_shot_cleared d -> hop_cleared (descriptor h d).
Proof.
  intros Ho. destruct (descriptor_cleared h d Ho) as [Hp Hm].
  split; [done|]. split; [done|]. by exists h, d.
Qed.

Lemma loop_ok_inv `{Library} fuel :
  forall count s doc s',
  request_loop fuel count s = (Ok (Some doc), s') ->
  (exists d', cfg_is s' d' /\ one_shot_cleared d') /\
  exists cur fate hops,
    t_request (transport (self s)) = Some (cur, fate) /\
    sent s' = (sent s ++ cur :: hops)%list /\ Forall hop_cleared hops.
Proof.
  induction fuel as [|fuel IH]; intros count s doc s' Hl; [done|].
  cbn [request_loop] in Hl.
  apply bind_inv_ok in Hl as ([] & s1 & H1 & Hl).
  apply log_request_inv in H1 as (Hh1 & Hg1 & Hs1).
  apply bind_inv_ok in Hl as ([] & s2 & H2 & Hl).
  apply try_transport_request_inv, transport_request_inv in H2
    as (cur & fate & Ht & Hh2 & Hc2 & Hs2).
  rewrite Hg1 in Ht. rewrite Hs1 in Hs2.
  apply bind_inv_ok in Hl as (d & s3 & H3 & Hl).
  apply wrap_inv, process_request_result_inv in H3 as (Hc3 & Hs3 & d3 & Hd3 & Ho3).
  apply bind_inv_ok in Hl as (o & s4 & H4 & Hl).
  apply readonly_find_redirect_url in H4 as ->.
  destruct o as [loc|].
  - cbn zeta in Hl.
    apply bind_inv_ok in Hl as (limit & s4 & H4 & Hl).
    apply readonly_config_getitem in H4 as ->.
    apply bind_inv_ok in Hl as (over & s4 & H4 & Hl).
    apply readonly_exceeds in H4 as ->.
    destruct over; [done|].
    apply bind_inv_ok in Hl as (u & s4 & H4 & Hl).
    apply readonly_make_url_absolute in H4 as ->.
    apply bind_inv_ok in Hl as ([] & s5 & H5 & Hl).
    apply prepare_request_inv in H5 as (Hc5 & Hs5 & (d5 & fate5 & Hd5 & Ht5) & Hst).
    destruct (IH _ _ _ _ Hl) as (Hfinal & cur' & fate' & hops & Ht' & Hsent & Hall).
    split; [exact Hfinal|].
    rewrite Ht5 in Ht'. injection Ht' as <- <-.
    exists cur, fate, (descriptor (heap s5) d5 :: hops).
    split; [done|]. split.
    + rewrite Hsent, Hs5, Hs3, Hs2. by rewrite <- app_assoc.
    + apply Forall_cons. split; [|done].
      apply descriptor_hop_cleared.
      destruct (Hst) with (d := d3) as (d5' & Hd5' & Ho5); [|done|done|].
      { cbn. unfold avoids_one_shot. cbn. intuition discriminate. }
      unfold cfg_is in *. rewrite Hd5 in Hd5'. by injection Hd5' as <-.
  - injection Hl as <- <-.
    split; [by exists d3|].
    exists cur, fate, []. split; [done|]. split; [|done].
    by rewrite Hs3, Hs2.
Qed.

(** C10: whenever [request] returns a document, the config it leaves has
    [post], [multipart_post] and [method] set to [None], so that the
    descriptor built from it carries no payload; and every request put on
    the wire after the first one of the call (every followed redirect hop)
    carries no payload and has its method detected from a config whose
    one-shot options are [None]. *)
Theorem one_shot_cleared_after_request `{Library} (fuel : nat)
    (u : option string) (kwargs : dict) (s s' : state) (d : Document) :
  request fuel u kwargs s = (Ok (Some d), s') ->
  (exists d',
     heap s' !! config (self s') = Some (ODict d') /\ one_shot_cleared d' /\
     req_post (descriptor (heap s') d') = VNone /\
     req_multipart_post (descriptor (heap s') d') = VNone) /\
  (exists first hops,
     sent s' = (sent s ++ first :: hops)%list /\ Forall hop_cleared hops).
Proof.
  unfold request. intros Hr.
  apply bind_inv_ok in Hr as ([] & s1 & H1 & Hr).
  apply prepare_request_inv in H1 as (_ & Hs1 & _ & _).
  apply loop_ok_inv in Hr as ((d' & Hd' & Ho') & cur & fate & hops & _ & Hsent & Hall).
  split.
  - exists d'. destruct (descriptor_cleared (heap s') d' Ho') as [Hp Hm]. done.
  - exists cur, hops. by rewrite Hsent, Hs1.
Qed.

(** ** Reading the body *)

Module Urllib3TransportFacts.
Import Urllib3Transport.

Lemma read_loop_cap fuel req chunk_size K :
  config_body_maxsize req = Some K -> (0 < K)%Z -> (0 < chunk_size)%Z ->
  forall (chunks : list (list Byte.byte)) (sk : Socket) (bytes_read : Z),
  in_time req sk ->
  bytes_read = Z.of_nat (length (concat chunks)) ->
  (bytes_read <= K)%Z ->
  (K < bytes_read + Z.of_nat (length (pending sk)))%Z ->
  length (pending sk) < fuel ->
  exists chunks' sk',
    read_loop fuel req chunk_size bytes_read chunks sk = Some (Ok chunks', sk')
    /\ (concat chunks' ++ pending sk' = concat chunks ++ pending sk)%list
    /\ (K < Z.of_nat (length (concat chunks')) <= K + chunk_size)%Z.
Proof.
  intros Hmax HK Hcs.
  induction fuel as [|fuel IH]; intros chunks sk bytes_read Htime Hbr Hle Hlt Hfuel;
    [lia|].
  cbn [read_loop]. unfold read.
  assert (Hamt : (chunk_size <? 0)%Z = false) by (apply Z.ltb_ge; lia).
  rewrite Hamt.
  set (avail := match bursts sk with b :: _ => Nat.max 1 b | [] => Z.to_nat chunk_size end).
  set (k := Nat.min (Z.to_nat chunk_size) avail).
  assert (Hk : 1 <= k).
  { unfold k, avail. destruct (bursts sk); lia. }
  assert (Hkc : (Z.of_nat k <= chunk_size)%Z) by (unfold k; lia).
  destruct (pending sk) as [|b0 rest] eqn:Ep; [simpl in Hlt; lia|].
  destruct k as [|k']; [lia|].
  cbn [firstn skipn].
  rewrite Hmax. cbn [truthy_int default from_option id andb].
  assert (HK0 : negb (K =? 0)%Z = true) by (apply negb_true_iff, Z.eqb_neq; lia).
  rewrite HK0. cbn [andb].
  set (chunk := b0 :: firstn k' rest).
  assert (Hsplit : (chunk ++ skipn k' rest = b0 :: rest)%list).
  { unfold chunk. cbn. by rewrite firstn_skipn. }
  assert (Hcat : concat (chunks ++ [chunk]) = (concat chunks ++ chunk)%list).
  { rewrite concat_app. cbn. by rewrite app_nil_r. }
  destruct (K <? bytes_read + Z.of_nat (length chunk))%Z eqn:Eover.
  - apply Z.ltb_lt in Eover. eexists _, _. split; [reflexivity|]. cbn [pending].
    split.
    + rewrite Hcat, <- app_assoc. by rewrite Hsplit.
    + rewrite Hcat, length_app.
      assert (length chunk <= S k') by (unfold chunk; cbn; rewrite length_firstn; lia).
      lia.
  - apply Z.ltb_ge in Eover.
    assert (Hnext : forall sk2,
              pending sk2 = skipn k' rest -> in_time req sk2 ->
              exists chunks' sk',
                read_loop fuel req chunk_size
                  (bytes_read + Z.of_nat (length chunk)) (chunks ++ [chunk]) sk2
                = Some (Ok chunks', sk')
                /\ (concat chunks' ++ pending sk'
                    = concat (chunks ++ [chunk]) ++ pending sk2)%list
                /\ (K < Z.of_nat (length (concat chunks')) <= K + chunk_size)%Z).
    { intros sk2 Hp2 Ht2. apply IH; [done| | | |].
      - rewrite Hcat, length_app. lia.
      - lia.
      - rewrite Hp2. rewrite <- Hsplit, length_app in Hlt. lia.
      - rewrite Hp2. rewrite <- Hsplit, length_app in Hfuel.
        assert (1 <= length chunk) by (unfold chunk; cbn; lia). lia. }
    assert (Hfin : forall sk2 chunks' sk',
              pending sk2 = skipn k' rest ->
              (concat chunks' ++ pending sk'
               = concat (chunks ++ [chunk]) ++ pending sk2)%list ->
              (concat chunks' ++ pending sk' = concat chunks ++ b0 :: rest)%list).
    { intros sk2 chunks' sk' Hp2 ->. rewrite Hcat, Hp2, <- app_assoc. by rewrite Hsplit. }
    destruct (truthy_int (timeout req)) eqn:Et.
    + unfold time_time. cbn [time time_calls pending bursts].
      assert (Hok : (default 0%Z (timeout req) <? time sk (time_calls sk) - op_started req)%Z
                    = false).
      { apply Z.ltb_ge. by apply Htime. }
      rewrite Hok.
      edestruct Hnext as (chunks' & sk' & Hrun & Hcat' & Hlen); [| |].
      3:{ exists chunks', sk'. split; [exact Hrun|]. split; [|exact Hlen].
          eapply Hfin; [|exact Hcat']. reflexivity. }
      * reflexivity.
      * exact Htime.
    + edestruct Hnext as (chunks' & sk' & Hrun & Hcat' & Hlen); [| |].
      3:{ exists chunks', sk'. split; [exact Hrun|]. split; [|exact Hlen].
          eapply Hfin; [|exact Hcat']. reflexivity. }
      * reflexivity.
      * exact Htime.
Qed.

(** C7: with a maximum body size K > 0, body reading enabled and the
    total timeout not expiring, a response whose body is longer than K is
    read without error whatever the sizes in which the bytes arrive: the
    loop stops as soon as more than K bytes have been read (at most one
    chunk beyond the cap), and the body returned is exactly the first K
    bytes. *)
Theorem body_is_capped (K : Z) (req : Request) (sk : Socket)
    (body : list Byte.byte) :
  (0 < K)%Z ->
  config_body_maxsize req = Some K ->
  config_nobody req = false ->
  pending sk = body ->
  (K < Z.of_nat (length body))%Z ->
  in_time req sk ->
  exists (sk' : Socket) (r : nat),
    read_with_timeout req sk = Some (Ok (firstn (Z.to_nat K) body), sk')
    /\ pending sk' = skipn r body
    /\ (K < Z.of_nat r <= K + Z.min 10000 (K + 1))%Z.
Proof.
  intros HK Hmax Hnobody Hbody Hlen Htime.
  unfold read_with_timeout. rewrite Hnobody, Hmax.
  cbn [truthy_int default from_option id].
  assert (HK0 : negb (K =? 0)%Z = true) by (apply negb_true_iff, Z.eqb_neq; lia).
  rewrite HK0.
  destruct (read_loop_cap (S (length (pending sk))) req (Z.min 10000 (K + 1)) K
              Hmax HK ltac:(lia) [] sk 0%Z Htime eq_refl ltac:(lia))
    as (chunks' & sk' & Hrun & Hcat & Hr).
  { rewrite Hbody. lia. }
  { lia. }
  rewrite Hrun. cbn [concat app] in Hcat. rewrite Hbody in Hcat.
  exists sk', (length (concat chunks')). split; [|split; [|exact Hr]].
  - f_equal. f_equal. unfold slice_to.
    assert (H0 : (0 <=? K)%Z = true) by (apply Z.leb_le; lia). rewrite H0.
    rewrite <- Hcat. rewrite firstn_app.
    assert (Hz : Z.to_nat K - length (concat chunks') = 0) by lia.
    rewrite Hz. cbn [firstn]. by rewrite app_nil_r.
  - rewrite <- Hcat. rewrite skipn_app, skipn_all, Nat.sub_diag. done.
Qed.

Lemma body_is_capped_witness :
  let req := mkRequest "http://www.example.com/" "GET" None None None None []
               None 0 None None false (Some 3%Z) None in
  let body := [Byte.x61; Byte.x62; Byte.x63; Byte.x64; Byte.x65] in
  let sk := mkSocket body [2; 1; 5] (fun _ => 0%Z) 0 in
  exists (sk' : Socket) (r : nat),
    read_with_timeout req sk = Some (Ok [Byte.x61; Byte.x62; Byte.x63], sk')
    /\ pending sk' = skipn r body
    /\ (3 < Z.of_nat r <= 3 + Z.min 10000 (3 + 1))%Z.
Proof.
  intros req body sk.
  apply (body_is_capped 3 req sk body).
  - lia.
  - reflexivity.
  - reflexivity.
  - reflexivity.
  - simpl. lia.
  - intros Ht. discriminate Ht.
Defined.

End Urllib3TransportFacts.

(** ** The cookies of a request *)

Module CookieFacts.
Import CookieManager Urllib3TransportCookies.

Lemma jar_get_set_same c jar :
  jar_get (c_domain c) (c_path c) (c_name c) (set_cookie c jar) = Some c.
Proof. unfold jar_get, set_cookie. by rewrite !od_get_set_eq. Qed.

Lemma jar_get_set_other_name c jar name :
  name <> c_name c ->
  jar_get (c_domain c) (c_path c) name (set_cookie c jar)
  = jar_get (c_domain c) (c_path c) name jar.
Proof.
  intros Hn. unfold jar_get, set_cookie. rewrite !od_get_set_eq.
  rewrite od_get_set_ne by done.
  destruct (od_get (c_domain c) jar) as [paths|]; cbn; [|done].
  by destruct (od_get (c_path c) paths).
Qed.

Lemma od_get_In_pair {V} k (v : V) (d : odict V) : od_get k d = Some v -> In (k, v) d.
Proof.
  induction d as [|[k' v'] d IH]; simpl; [done|].
  destruct (String.eqb k k') eqn:E.
  - apply String.eqb_eq in E. intros [= ->]. subst. by left.
  - intros Hg. right. by apply IH.
Qed.

Lemma jar_get_In domain path name jar c :
  jar_get domain path name jar = Some c -> In c (jar_cookies jar).
Proof.
  unfold jar_get, jar_cookies. intros Hg.
  destruct (od_get domain jar) as [paths|] eqn:Ed; [|done].
  destruct (od_get path paths) as [names|] eqn:Ep; [|done].
  apply od_get_In_pair in Ed, Ep, Hg.
  apply in_flat_map. exists (domain, paths). split; [done|].
  apply in_flat_map. exists (path, names). split; [done|].
  apply in_map_iff. by exists (name, c).
Qed.

Lemma broadcast_get `{Platform} items domain name value :
  NoDup (od_keys items) -> od_get name items = Some (VStr value) ->
  forall jar,
  jar_get domain "/" name (broadcast items domain jar)
  = Some (mkCookie name value domain "/" None false).
Proof.
  unfold broadcast.
  induction items as [|[k v] items IH]; intros Hnd Hget jar; [done|].
  simpl in Hget. cbn [fold_left fst snd].
  apply NoDup_cons in Hnd as [Hnotin Hnd].
  destruct (String.eqb name k) eqn:E.
  - apply String.eqb_eq in E. subst k. injection Hget as ->. cbn [text_of].
    assert (Hkeep : forall its j,
              ~ In name (od_keys its) ->
              jar_get domain "/" name
                (fold_left (fun j kv => CookieManager.set (fst kv) (text_of (snd kv)) domain j) its j)
              = jar_get domain "/" name j).
    { clear. induction its as [|[k v] its IHi]; intros j Hn; [done|].
      cbn [fold_left fst snd]. rewrite IHi by (intros Hin; apply Hn; by right).
      unfold CookieManager.set.
      apply (jar_get_set_other_name (mkCookie k (text_of v) domain "/" None false)).
      cbn. intros ->. apply Hn. by left. }
    rewrite Hkeep by (by rewrite <- list_elem_of_In).
    unfold CookieManager.set.
    apply (jar_get_set_same (mkCookie name value domain "/" None false)).
  - by apply IH.
Qed.

Lemma for_each_broadcast `{Platform} items domain s :
  for_each items (fun kv =>
    update_self (fun g =>
      set_cookies (CookieManager.set (fst kv) (text_of (snd kv)) domain (cookies g)) g)) s
  = (Ok tt, set_self (set_cookies (broadcast items domain (cookies (self s))) (self s)) s).
Proof.
  revert s. induction items as [|kv items IH]; intros s.
  - cbn. by destruct s as [h [c j dc rm pl t] w snt lg now ent].
  - cbn [for_each]. erewrite bind_ok by reflexivity.
    rewrite IH. by destruct s as [h [c j dc rm pl t] w snt lg now ent].
Qed.

Lemma append_empty (a b : string) : a ++ b = "" -> a = "" /\ b = "".
Proof. destruct a; cbn; [done|discriminate]. Qed.

Lemma concat_empty sep (attrs : list string) :
  String.concat sep attrs = "" -> forall x, In x attrs -> x = "".
Proof.
  induction attrs as [|a attrs IH]; [done|].
  destruct attrs as [|b attrs].
  - cbn. intros -> x [<-|[]]. done.
  - cbn [String.concat]. intros Hc.
    apply append_empty in Hc as [-> Hc]. apply append_empty in Hc as [_ Hc].
    intros x [<-|Hin]; [done|]. by apply IH.
Qed.

Lemma concat_nonempty sep (attrs : list string) x :
  In x attrs -> x <> "" -> String.concat sep attrs <> "".
Proof. intros Hin Hx Hc. apply Hx. by eapply concat_empty. Qed.

Lemma cookies_are_sent `{Platform} s d lc items name value hdrs u host dom file :
  cfg_is s d ->
  od_get "cookiefile" d = Some file -> (file = VNone \/ exists p, file = VStr p) ->
  od_get "cookies" d = Some (VRef lc) -> heap s !! lc = Some (ODict items) ->
  NoDup (od_keys items) -> od_get name items = Some (VStr value) ->
  od_mem "Cookie" hdrs = false ->
  urlsplit_hostname u = Some host -> host <> "" ->
  (if String.prefix "www." host
   then String.substring 4 (String.length host - 4) host else host) = dom ->
  domain_match host dom = true -> request_path u = "/" ->
  exists hdr s1,
    process_cookie_options u hdrs s = (Ok (Some hdr), s1)
    /\ heap s1 = heap s /\ config (self s1) = config (self s)
    /\ In (mkCookie name value dom "/" None false) (jar_cookies (cookies (self s1)))
    /\ carries hdr name value.
Proof.
  intros Hd Hfile Hfv Hck Hlc Hnd Hget Hhdr Hhost Hne Hdom Hmatch Hpath.
  unfold process_cookie_options.
  erewrite bind_ok by (by eapply config_getitem_ok). cbn beta.
  erewrite bind_ok by reflexivity. cbn beta.
  assert (Hstep1 : exists s0,
    (if truthy (heap s) file
     then match file with
          | VStr path =>
              match load_cookie_file path with
              | Some cs => update_self (fun g =>
                  set_cookies (CookieManager.load_from_file cs (cookies g)) g)
              | None => ret tt
              end
          | _ => raise TypeError
          end
     else ret tt) s = (Ok tt, s0)
    /\ heap s0 = heap s /\ config (self s0) = config (self s) /\ utcnow s0 = utcnow s).
  { destruct Hfv as [->|[p ->]]; [by exists s|].
    cbn [truthy]. destruct (negb (String.eqb p "")); [|by exists s].
    destruct (load_cookie_file p); [|by exists s].
    eexists. split; [reflexivity|]. done. }
  destruct Hstep1 as (s0 & Hrun0 & Hh0 & Hc0 & Hn0).
  erewrite bind_ok by exact Hrun0. cbn beta.
  assert (Hd0 : heap s0 !! config (self s0) = Some (ODict d)) by by rewrite Hh0, Hc0.
  rewrite Hhost. apply String.eqb_neq in Hne. rewrite Hne. cbn [negb].
  rewrite Hdom.
  set (s1 := set_self (set_cookies (broadcast items dom (cookies (self s0))) (self s0)) s0).
  erewrite (bind_ok _ _ s0 tt s1).
  2:{ erewrite bind_ok by (by eapply config_getitem_ok). cbn beta.
      erewrite bind_ok by reflexivity. cbn beta.
      cbn [truthy]. rewrite Hh0, Hlc.
      assert (Hlen : negb (Nat.eqb (length items) 0) = true).
      { destruct items; [done|done]. }
      rewrite Hlen.
      erewrite bind_ok.
      2:{ unfold load. by rewrite Hh0, Hlc. }
      cbn beta. apply for_each_broadcast. }
  erewrite bind_ok by reflexivity. cbn beta.
  erewrite bind_ok by reflexivity. cbn beta.
  set (c := mkCookie name value dom "/" None false).
  assert (Hin : In c (jar_cookies (cookies (self s1)))).
  { eapply jar_get_In. unfold s1. cbn. by apply broadcast_get. }
  assert (Hok : return_ok u (utcnow s1) c = true).
  { unfold return_ok, c. cbn. rewrite Hhost. cbn. rewrite Hmatch, Hpath. done. }
  unfold get_cookie_header. rewrite Hhdr.
  set (attrs := map cookie_attr _).
  assert (Hattr : In (name ++ "=" ++ value) attrs).
  { unfold attrs. apply in_map_iff. exists c. split; [done|].
    apply filter_In. done. }
  destruct attrs as [|a attrs'] eqn:Ea; [done|].
  assert (Hnz : String.concat "; " (a :: attrs') <> "").
  { eapply concat_nonempty; [exact Hattr|]. by destruct name. }
  apply String.eqb_neq in Hnz. rewrite Hnz.
  eexists _, s1. split; [reflexivity|].
  split; [by rewrite <- Hh0|]. split; [by rewrite <- Hc0|].
  split; [exact Hin|]. by exists (a :: attrs').
Qed.

(** C9: a cookie configured by name and value only is stored, on a request
    to [http://www.example.com/], with domain [example.com] (path [/]), and
    the [Cookie] header of that request carries [name=value]; a following
    request to [http://example.com/] carries it too.  (The cookie file, if
    one is configured, is a path; the request has no [Cookie] header of its
    own.) *)
Theorem cookie_broadcast `{Platform} (s : state) (d items : dict) (lc : nat)
    (name value : string) (hdrs : dict) (file : val) :
  cfg_is s d ->
  od_get "cookiefile" d = Some file -> (file = VNone \/ exists p, file = VStr p) ->
  od_get "cookies" d = Some (VRef lc) -> heap s !! lc = Some (ODict items) ->
  NoDup (od_keys items) -> od_get name items = Some (VStr value) ->
  od_mem "Cookie" hdrs = false ->
  urlsplit_hostname "http://www.example.com/" = Some "www.example.com" ->
  request_path "http://www.example.com/" = "/" ->
  urlsplit_hostname "http://example.com/" = Some "example.com" ->
  request_path "http://example.com/" = "/" ->
  exists hdr1 s1 hdr2 s2,
    process_cookie_options "http://www.example.com/" hdrs s = (Ok (Some hdr1), s1)
    /\ In (mkCookie name value "example.com" "/" None false)
          (jar_cookies (cookies (self s1)))
    /\ carries hdr1 name value
    /\ process_cookie_options "http://example.com/" hdrs s1 = (Ok (Some hdr2), s2)
    /\ carries hdr2 name value.
Proof.
  intros Hd Hfile Hfv Hck Hlc Hnd Hget Hhdr Hh1 Hp1 Hh2 Hp2.
  destruct (cookies_are_sent s d lc items name value hdrs
              "http://www.example.com/" "www.example.com" "example.com" file)
    as (hdr1 & s1 & Hrun1 & Hheap1 & Hcfg1 & Hin1 & Hc1); try done.
  destruct (cookies_are_sent s1 d lc items name value hdrs
              "http://example.com/" "example.com" "example.com" file)
    as (hdr2 & s2 & Hrun2 & _ & _ & _ & Hc2); try done.
  { unfold cfg_is in *. by rewrite Hheap1, Hcfg1. }
  { by rewrite Hheap1. }
  exists hdr1, s1, hdr2, s2. done.
Qed.

Lemma cookie_broadcast_witness :
  exists hdr1 s1 hdr2 s2,
    @process_cookie_options reference_platform "http://www.example.com/" []
      cookie_session = (Ok (Some hdr1), s1)
    /\ In (mkCookie "a" "1" "example.com" "/" None false)
          (jar_cookies (cookies (self s1)))
    /\ carries hdr1 "a" "1"
    /\ @process_cookie_options reference_platform "http://example.com/" [] s1
       = (Ok (Some hdr2), s2)
    /\ carries hdr2 "a" "1".
Proof.
  eapply (@cookie_broadcast reference_platform cookie_session _ _ 1 "a" "1" [] VNone).
  - reflexivity.
  - reflexivity.
  - left. reflexivity.
  - reflexivity.
  - reflexivity.
  - apply (bool_decide_unpack _). vm_compute. exact I.
  - reflexivity.
  - reflexivity.
  - reflexivity.
  - reflexivity.
  - reflexivity.
  - reflexivity.
Defined.

End CookieFacts.

(** C8: [setup] checks every supplied key against the option set of the
    config before it applies any of them.  If some key is unknown it raises
    [GrabMisuseError] (naming the first unknown key) and the whole state,
    the config included, is as it was; if every key is known the call
    succeeds and each override is stored, the url one after it has been
    resolved against the url of the previous request, while the options
    that were not supplied keep their values. *)
Theorem setup_all_or_nothing `{Library} (kwargs d : dict) (s : state) :
  heap s !! config (self s) = Some (ODict d) ->
  (forall k, In k (od_keys kwargs) -> od_mem k d = false ->
     exists k', In k' (od_keys kwargs) /\ od_mem k' d = false /\
       setup kwargs s
       = (Raise (GrabError (GrabMisuseError ("Unknown option: " ++ k'))), s))
  /\
  ((forall k, In k (od_keys kwargs) -> od_mem k d = true) ->
   NoDup (od_keys kwargs) ->
   (forall u, od_get "url" kwargs = Some u -> is_url u) ->
   (forall u, od_get "url" d = Some u -> is_url u) ->
   exists d',
     setup kwargs s
     = (Ok tt, set_heap (<[config (self s) := ODict d']> (heap s)) s)
     /\ (forall k v, od_get k kwargs = Some v -> k <> "url" ->
          od_get k d' = Some v)
     /\ (forall u, od_get "url" kwargs = Some u ->
          od_get "url" d' = Some (resolved_url d u))
     /\ (forall k, od_get k kwargs = None -> od_get k d' = od_get k d)).
Proof.
  intros Hd. split.
  - intros k Hin Hk.
    destruct (find (fun k => negb (od_mem k d)) (od_keys kwargs)) as [k'|] eqn:Ef.
    + exists k'. apply find_some in Ef as Hf. destruct Hf as [Hin' Hk'].
      apply negb_true_iff in Hk'. split; [done|]. split; [done|].
      by apply (setup_unknown kwargs d).
    + eapply find_none in Ef; [|exact Hin]. by rewrite Hk in Ef.
  - intros Hall Hnd Hku Hdu.
    eexists. split; [by apply setup_known|].
    destruct (od_get "url" kwargs) as [u|] eqn:Eu.
    + assert (Hmem : od_mem "url" kwargs = true) by (unfold od_mem; by rewrite Eu).
      split; [|split].
      * intros k v Hk Hne. apply od_get_update_in.
        -- by rewrite od_keys_set_mem.
        -- by rewrite od_get_set_ne.
      * intros u' [= <-]. apply od_get_update_in.
        -- by rewrite od_keys_set_mem.
        -- apply od_get_set_eq.
      * intros k Hk. apply od_get_update_notin.
        rewrite od_keys_set_mem by done. by apply od_get_None_not_In.
    + split; [|split].
      * intros k v Hk _. by apply od_get_update_in.
      * intros u' [=].
      * intros k Hk. apply od_get_update_notin. by apply od_get_None_not_In.
Qed.

Lemma setup_all_or_nothing_witness :
  let s := @fresh_session reference_library in
  (exists k',
     In k' ["timeout"; "bogus"; "url"] /\
     @setup reference_library
       [("timeout", VInt 5); ("bogus", VNone); ("url", VStr "http://example.com/")] s
     = (Raise (GrabError (GrabMisuseError ("Unknown option: " ++ k'))), s))
  /\
  (exists d',
     @setup reference_library
       [("timeout", VInt 5); ("url", VStr "http://example.com/")] s
     = (Ok tt, set_heap (<[config (self s) := ODict d']> (heap s)) s)
     /\ od_get "timeout" d' = Some (VInt 5)
     /\ od_get "url" d' = Some (VStr "http://example.com/")
     /\ od_get "redirect_limit" d' = Some (VInt 10)).
Proof.
  intros s. split.
  - edestruct (@setup_all_or_nothing reference_library
                 [("timeout", VInt 5); ("bogus", VNone);
                  ("url", VStr "http://example.com/")] _ s eq_refl)
      as [Hbad _].
    destruct (Hbad "bogus") as (k' & Hin & _ & Hrun);
      [simpl; tauto | reflexivity |].
    exists k'. split; [exact Hin | exact Hrun].
  - edestruct (@setup_all_or_nothing reference_library
                 [("timeout", VInt 5); ("url", VStr "http://example.com/")]
                 _ s eq_refl)
      as [_ Hgood].
    destruct Hgood as (d' & Hrun & Hset & Hurl & Hkeep).
    + intros k [<-|[<-|[]]]; reflexivity.
    + apply (bool_decide_unpack _). vm_compute. exact I.
    + intros u [= <-]. exact I.
    + intros u [= <-]. exact I.
    + exists d'. split; [exact Hrun|]. split; [|split].
      * apply Hset; [reflexivity | discriminate].
      * apply (Hurl (VStr "http://example.com/")). reflexivity.
      * rewrite (Hkeep "redirect_limit"); reflexivity.
Defined.

Lemma redirect_is_followed_witness :
  let s := set_wire [Responds example_redirect; Responds example_page]
             (@fresh_session reference_library) in
  exists s' first second,
    @request reference_library 2 (Some "http://www.example.com/") [] s
    = (Ok (Some (set_timestamp (utcnow s) example_page)), s')
    /\ sent s' = (sent s ++ [first; second])%list
    /\ req_url first = VStr "http://www.example.com/"
    /\ req_url second = VStr "http://www.example.com/next"
    /\ doc (self s') = Some (set_timestamp (utcnow s) example_page)
    /\ wire s' = [].
Proof.
  intros s.
  eapply (@redirect_is_followed reference_library 0 s _
            "http://www.example.com/" "http://www.example.com/" "/next" 10
            example_redirect example_page []).
  - reflexivity.
  - apply completeb_complete. reflexivity.
  - intros v [= <-]. exact I.
  - reflexivity.
  - reflexivity.
  - lia.
  - reflexivity.
  - reflexivity.
  - discriminate.
  - reflexivity.
  - split; [|split];
      [apply (bool_decide_unpack _); reflexivity|reflexivity|discriminate].
  - discriminate.
  - reflexivity.
  - reflexivity.
Defined.

Lemma too_many_redirects_witness :
  let s := set_wire (map Responds [example_redirect; example_redirect] ++ [])
             (@with_options reference_library [("redirect_limit", VInt 1)]
                (@fresh_session reference_library)) in
  exists s' first hops,
    @request reference_library 2 (Some "http://www.example.com/") [] s
    = (Raise (GrabError GrabTooManyRedirectsError), s')
    /\ sent s' = (sent s ++ first :: hops)%list
    /\ length hops = 1
    /\ wire s' = [].
Proof.
  intros s.
  eapply (@too_many_redirects reference_library 2
            [example_redirect; example_redirect] [] s _
            "http://www.example.com/" 2).
  - lia.
  - reflexivity.
  - repeat constructor; exists "/next";
      (split; [|split];
       [apply (bool_decide_unpack _); reflexivity|reflexivity|discriminate]).
  - reflexivity.
  - apply completeb_complete. reflexivity.
  - intros v [= <-]. exact I.
  - reflexivity.
  - reflexivity.
  - reflexivity.
  - reflexivity.
  - lia.
Defined.

Lemma transport_error_clears_payload_witness :
  let e := Urllib3Error ConnectTimeoutError in
  let ge := GrabConnectionError "ConnectTimeoutError" in
  let s := set_wire [RequestRaises e] (@fresh_session reference_library) in
  let s1 := @with_prepared reference_library
              [("url", VStr "http://www.example.com/"); ("post", VStr "a=1")] s in
  (exists s',
     @request_loop reference_library 1 0 s1 = (Raise (GrabError ge), s')
     /\ (exists d', heap s' !! config (self s') = Some (ODict d')
                    /\ od_get "post" d' = Some VNone)
     /\ length (sent s') = 1 /\ wire s' = [])
  /\
  (exists s' d' first,
     @request reference_library 1 (Some "http://www.example.com/")
       [("post", VStr "a=1")] s
     = (Raise (GrabError ge), s')
     /\ heap s' !! config (self s') = Some (ODict d')
     /\ one_shot_cleared d'
     /\ req_post (@descriptor reference_library (heap s') d') = VNone
     /\ req_multipart_post (@descriptor reference_library (heap s') d') = VNone
     /\ sent s' = (sent s ++ [first])%list /\ wire s' = []).
Proof.
  intros e ge s s1.
  destruct (@transport_error_clears_payload reference_library 0 e ge eq_refl)
    as [Hloop Hcall].
  split.
  - edestruct (Hloop 0%Z s1) as (s' & Hrun & Hd' & Hsent & Hwire).
    + reflexivity.
    + apply completeb_complete. reflexivity.
    + reflexivity.
    + exists s'. split; [exact Hrun|]. split; [|split].
      * eexists. split; [exact Hd'|reflexivity].
      * rewrite Hsent. reflexivity.
      * rewrite Hwire. reflexivity.
  - eapply (Hcall (Some "http://www.example.com/") [("post", VStr "a=1")] s).
    + reflexivity.
    + apply completeb_complete. reflexivity.
    + intros k [<-|[]]. reflexivity.
    + intros v [=].
    + intros v [= <-]. exact I.
    + reflexivity.
    + reflexivity.
Defined.

Lemma one_shot_cleared_after_request_witness :
  let s := set_wire [Responds example_redirect; Responds example_page]
             (@fresh_session reference_library) in
  let s' := snd (@request reference_library 2 (Some "http://www.example.com/")
                   [("post", VStr "a=1")] s) in
  (exists d',
     heap s' !! config (self s') = Some (ODict d') /\ one_shot_cleared d' /\
     req_post (@descriptor reference_library (heap s') d') = VNone /\
     req_multipart_post (@descriptor reference_library (heap s') d') = VNone) /\
  (exists first hops,
     sent s' = (sent s ++ first :: hops)%list /\
     Forall (@hop_cleared reference_library) hops).
Proof.
  intros s s'.
  apply (@one_shot_cleared_after_request reference_library 2
           (Some "http://www.example.com/") [("post", VStr "a=1")] s s'
           (set_timestamp 0 example_page)).
  vm_compute. reflexivity.
Defined.

(** * [grab/client.py]: which documents the hooks are shown *)

Module HttpClientFacts.
Import HttpClient.

Section facts.
Context {E : Type}.
Implicit Types (c : client E) (tr new : list event) (d doc : Document).

Lemma responses_app tr1 tr2 : responses (tr1 ++ tr2) = (responses tr1 ++ responses tr2)%list.
Proof. unfold responses. by rewrite flat_map_app. Qed.

Lemma posted_app i tr1 tr2 : posted i (tr1 ++ tr2) = (posted i tr1 ++ posted i tr2)%list.
Proof. unfold posted. by rewrite flat_map_app. Qed.

Lemma retried_app tr1 tr2 : retried (tr1 ++ tr2) = (retried tr1 ++ retried tr2)%list.
Proof. unfold retried. by rewrite flat_map_app. Qed.

Lemma extends_refl c : extends c c [].
Proof. split; [by rewrite app_nil_r|done]. Qed.

Lemma extends_trans c1 c2 c3 new1 new2 :
  extends c1 c2 new1 -> extends c2 c3 new2 -> extends c1 c3 (new1 ++ new2).
Proof.
  intros [H1 G1] [H2 G2]. split; [|congruence].
  by rewrite H2, H1, app_assoc.
Qed.

Lemma call_extends {A} (h : ST E A) c r c' : call h c = (r, c') -> extends c c' [].
Proof.
  unfold call. destruct (h (ext c)) as [r0 e]. intros [= _ <-].
  split; [by rewrite app_nil_r|done].
Qed.

Lemma observe_extends ev c r c' : observe ev c = (r, c') -> extends c c' [ev].
Proof. intros [= _ <-]. by split. Qed.

Lemma handlers_inv c h c' : handlers c = (Ok h, c') -> h = ext_handlers c /\ c' = c.
Proof. by intros [= <- <-]. Qed.

Lemma run_pre_extends hs : forall i req c req' c',
  run_pre i hs req c = (Ok req', c') ->
  exists new, extends c c' new /\ responses new = [] /\ retried new = []
              /\ forall k, posted k new = [].
Proof.
  induction hs as [|f hs IH]; intros i req c req' c' Hr.
  - injection Hr as <- <-. exists []. split; [apply extends_refl|done].
  - cbn [run_pre] in Hr.
    apply bind_inv_ok in Hr as ([] & c1 & H1 & Hr).
    apply observe_extends in H1.
    apply bind_inv_ok in Hr as (req1 & c2 & H2 & Hr).
    apply call_extends in H2.
    apply IH in Hr as (new & Hext & Hres & Hret & Hpost).
    exists ([EvPre i req] ++ [] ++ new)%list. split.
    + eapply extends_trans; [exact H1|]. eapply extends_trans; [exact H2|exact Hext].
    + cbn. done.
Qed.

Lemma run_cookies_extends hs : forall req jar c jar' c',
  run_cookies hs req jar c = (Ok jar', c') -> extends c c' [].
Proof.
  induction hs as [|f hs IH]; intros req jar c jar' c' Hr.
  - injection Hr as <- <-. apply extends_refl.
  - cbn [run_cookies] in Hr.
    apply bind_inv_ok in Hr as (jar1 & c1 & H1 & Hr).
    apply call_extends in H1. apply IH in Hr.
    apply (extends_trans _ _ _ [] [] H1 Hr).
Qed.

Lemma run_post_extends hs : forall i req doc c c',
  run_post i hs req doc c = (Ok tt, c') ->
  exists new, extends c c' new /\ responses new = [] /\ retried new = []
              /\ forall k, posted k new
                           = if Nat.leb i k && Nat.ltb k (i + length hs)
                             then [doc] else [].
Proof.
  induction hs as [|f hs IH]; intros i req doc c c' Hr.
  - injection Hr as <-. exists []. split; [apply extends_refl|].
    split; [done|]. split; [done|]. intros k.
    assert (Hf : Nat.leb i k && Nat.ltb k (i + 0) = false).
    { apply andb_false_iff. destruct (Nat.leb i k) eqn:E1; [right|by left].
      apply Nat.ltb_ge. apply Nat.leb_le in E1. lia. }
    change (length (@nil (HttpRequest -> Document -> ST E unit))) with 0.
    by rewrite Hf.
  - cbn [run_post] in Hr.
    apply bind_inv_ok in Hr as ([] & c1 & H1 & Hr).
    apply observe_extends in H1.
    apply bind_inv_ok in Hr as ([] & c2 & H2 & Hr).
    apply call_extends in H2.
    apply IH in Hr as (new & Hext & Hres & Hret & Hpost).
    exists ([EvPost i req doc] ++ [] ++ new)%list. split.
    + eapply extends_trans; [exact H1|]. eapply extends_trans; [exact H2|exact Hext].
    + split; [done|]. split; [done|]. intros k.
      rewrite posted_app. cbn [app]. rewrite Hpost.
      change (length (f :: hs)) with (S (length hs)).
      change (posted k [EvPost i req doc]) with
        ((if Nat.eqb k i then [doc] else []) ++ [])%list.
      rewrite app_nil_r.
      destruct (Nat.eqb k i) eqn:Ek.
      * apply Nat.eqb_eq in Ek. subst k.
        assert (Nat.leb (S i) i && Nat.ltb i (S i + length hs) = false) as ->.
        { apply andb_false_iff. left. apply Nat.leb_gt. lia. }
        assert (Nat.leb i i && Nat.ltb i (i + S (length hs)) = true) as ->.
        { apply andb_true_iff. split; [apply Nat.leb_le|apply Nat.ltb_lt]; lia. }
        done.
      * apply Nat.eqb_neq in Ek. cbn [app].
        destruct (Nat.leb (S i) k && Nat.ltb k (S i + length hs)) eqn:E1.
        -- apply andb_true_iff in E1 as [E1 E2].
           apply Nat.leb_le in E1. apply Nat.ltb_lt in E2.
           assert (Nat.leb i k && Nat.ltb k (i + S (length hs)) = true) as ->.
           { apply andb_true_iff. split; [apply Nat.leb_le|apply Nat.ltb_lt]; lia. }
           done.
        -- assert (Nat.leb i k && Nat.ltb k (i + S (length hs)) = false) as ->; [|done].
           apply andb_false_iff in E1. apply andb_false_iff.
           destruct E1 as [E1|E1].
           ++ apply Nat.leb_gt in E1. left. apply Nat.leb_gt. lia.
           ++ apply Nat.ltb_ge in E1. right. apply Nat.ltb_ge. lia.
Qed.

Lemma any_retry_extends hs : forall i retry req doc c item c',
  any_retry i hs retry req doc c = (Ok item, c') ->
  exists new, extends c c' new /\ responses new = []
              /\ (forall k, posted k new = [])
              /\ retried new = match item with Some _ => [doc] | None => [] end.
Proof.
  induction hs as [|f hs IH]; intros i retry req doc c item c' Hr.
  - injection Hr as <- <-. exists []. split; [apply extends_refl|done].
  - cbn [any_retry] in Hr.
    apply bind_inv_ok in Hr as ([] & c1 & H1 & Hr).
    apply observe_extends in H1.
    apply bind_inv_ok in Hr as (it & c2 & H2 & Hr).
    apply call_extends in H2.
    destruct it as [it|].
    + apply bind_inv_ok in Hr as ([] & c3 & H3 & Hr).
      apply observe_extends in H3. injection Hr as <- <-.
      exists ([EvRetryAsked i req doc] ++ [] ++ [EvRetrySignalled i doc])%list.
      split; [|done].
      eapply extends_trans; [exact H1|]. eapply extends_trans; [exact H2|exact H3].
    + apply IH in Hr as (new & Hext & Hres & Hpost & Hret).
      exists ([EvRetryAsked i req doc] ++ [] ++ new)%list. split.
      * eapply extends_trans; [exact H1|]. eapply extends_trans; [exact H2|exact Hext].
      * cbn. done.
Qed.

Lemma client_wrap_inv {A} (m : C A) c a c' : wrap m c = (Ok a, c') -> m c = (Ok a, c').
Proof. unfold wrap. by destruct (m c) as [[a0|e] c0]. Qed.

Lemma process_request_result_extends req c doc c' :
  process_request_result req c = (Ok doc, c') ->
  exists new, extends c c' new /\ responses new = [doc] /\ retried new = []
              /\ forall k, k < length (on_response_post (ext_handlers c)) ->
                           posted k new = [doc].
Proof.
  unfold process_request_result. intros Hr.
  apply bind_inv_ok in Hr as (d & c1 & H1 & Hr).
  assert (Hprep : extends c c1 [EvResponse d]).
  { unfold prepare_response in H1.
    apply bind_inv_ok in H1 as (c0 & c0' & [= <- <-] & H1).
    destruct (pending c) as [[e|e|e|d0]|]; try done.
    apply bind_inv_ok in H1 as ([] & c2 & H2 & H1).
    apply observe_extends in H2. by injection H1 as <- <-. }
  apply bind_inv_ok in Hr as (h & c2 & H2 & Hr).
  apply handlers_inv in H2 as [-> ->].
  apply bind_inv_ok in Hr as ([] & c3 & H3 & Hr).
  injection Hr as <- <-.
  apply run_post_extends in H3 as (new & Hext & Hres & Hret & Hpost).
  exists ([EvResponse d] ++ new)%list. split; [by eapply extends_trans|].
  rewrite responses_app, retried_app, Hres, Hret. split; [done|]. split; [done|].
  intros k Hk. rewrite posted_app, Hpost. cbn [posted flat_map app].
  destruct Hprep as [_ Hh]. rewrite Hh.
  assert (Nat.leb 0 k && Nat.ltb k (0 + length (on_response_post (ext_handlers c))) = true) as ->.
  { apply andb_true_iff. split; [apply Nat.leb_le|apply Nat.ltb_lt]; lia. }
  done.
Qed.

Lemma transport_request_extends req jar c c' :
  transport_request req jar c = (Ok tt, c') ->
  extends c c' [EvSent req jar].
Proof.
  unfold transport_request. intros Hr.
  apply bind_inv_ok in Hr as ([] & c1 & H1 & Hr).
  apply observe_extends in H1.
  apply bind_inv_ok in Hr as (c0 & c2 & [= <- <-] & Hr).
  destruct (cwire c1) as [|r rest]; [done|].
  apply bind_inv_ok in Hr as ([] & c3 & H3 & Hr).
  assert (c3 = mkClient (ext c1) (ext_handlers c1) (Some r) rest (calls c1)) as ->
    by (by injection H3).
  assert (c' = mkClient (ext c1) (ext_handlers c1) (Some r) rest (calls c1)) as ->.
  { destruct r; try done; by injection Hr. }
  destruct H1 as [Hc Hh]. split; cbn; done.
Qed.

Lemma request_loop_trace (fuel : nat) :
  forall (retry : Retry) (req : HttpRequest) (c c' : client E) (doc : Document),
  request_loop fuel retry req c = (Ok (Some doc), c') ->
  exists (new : list event) (again : list Document),
    calls c' = (calls c ++ new)%list
    /\ responses new = (again ++ [doc])%list
    /\ retried new = again
    /\ forall k, k < length (on_response_post (ext_handlers c)) ->
                 posted k new = (again ++ [doc])%list.
Proof.
  induction fuel as [|fuel IH]; intros retry req c c' doc Hr; [done|].
  cbn [request_loop] in Hr.
  apply bind_inv_ok in Hr as (h & c0 & H0 & Hr).
  apply handlers_inv in H0 as [-> ->].
  apply bind_inv_ok in Hr as (req1 & c1 & H1 & Hr).
  apply run_pre_extends in H1 as (n1 & He1 & Hres1 & Hret1 & Hpost1).
  apply bind_inv_ok in Hr as ([] & c2 & [= <-] & Hr).
  apply bind_inv_ok in Hr as (jar & c3 & H3 & Hr).
  assert (He3 : extends c1 c3 []).
  { unfold get_request_cookies in H3.
    apply bind_inv_ok in H3 as (h & c0 & [= <- <-] & H3).
    apply run_cookies_extends in H3. destruct H3 as [Hc Hh]. by split. }
  apply bind_inv_ok in Hr as ([] & c4 & H4 & Hr).
  apply transport_request_extends in H4.
  apply bind_inv_ok in Hr as (d & c5 & H5 & Hr).
  apply client_wrap_inv, process_request_result_extends in H5
    as (n5 & He5 & Hres5 & Hret5 & Hpost5).
  apply bind_inv_ok in Hr as (item & c6 & H6 & Hr).
  apply any_retry_extends in H6 as (n6 & He6 & Hres6 & Hpost6 & Hret6).
  pose proof (extends_trans _ _ _ _ _ He1
                (extends_trans _ _ _ _ _ He3
                   (extends_trans _ _ _ _ _ H4
                      (extends_trans _ _ _ _ _ He5 He6)))) as [Hcalls Hh].
  assert (Hh4 : ext_handlers c4 = ext_handlers c).
  { destruct He1 as [_ G1]. destruct He3 as [_ G3]. destruct H4 as [_ G4]. congruence. }
  destruct item as [[retry' req']|].
  - apply IH in Hr as (new & again & Hc' & Hres & Hret & Hpost).
    exists ((n1 ++ [] ++ [EvSent req1 jar] ++ n5 ++ n6) ++ new)%list, (d :: again).
    split; [rewrite Hc', Hcalls; symmetry; apply app_assoc|].
    rewrite !responses_app, !retried_app, Hres1, Hret1, Hres5, Hret5, Hres6, Hret6, Hres, Hret.
    split; [done|]. split; [done|].
    intros k Hk. rewrite !posted_app, Hpost1, Hpost6.
    rewrite Hpost5 by by rewrite Hh4.
    rewrite Hpost by by rewrite Hh. done.
  - injection Hr as <- <-.
    exists (n1 ++ [] ++ [EvSent req1 jar] ++ n5 ++ n6)%list, [].
    split; [exact Hcalls|].
    rewrite !responses_app, !retried_app, Hres1, Hret1, Hres5, Hret5, Hres6, Hret6.
    split; [done|]. split; [done|].
    intros k Hk. rewrite !posted_app, Hpost1, Hpost6.
    rewrite Hpost5 by by rewrite Hh4. done.
Qed.

Lemma all_init_extends hs : forall retry c retry' c',
  all_init hs retry c = (Ok retry', c') -> extends c c' [].
Proof.
  induction hs as [|x hs IH]; intros retry c retry' c' Hr.
  - injection Hr as <- <-. apply extends_refl.
  - cbn [all_init] in Hr.
    apply bind_inv_ok in Hr as ([ok retry1] & c1 & H1 & Hr).
    apply call_extends in H1. destruct ok.
    + apply IH in Hr. apply (extends_trans _ _ _ [] [] H1 Hr).
    + injection Hr as <- <-. exact H1.
Qed.

(** C5, as the code has it: a call of [request] that returns [doc] has
    received from the transport the documents [again ++ [doc]], where
    [again] are those on which a [retry] handler signalled a retry, in
    order; every [response:post] handler was called on each of them, the
    retried ones as well as the returned one, once and in that order. *)
Theorem post_hooks_run_on_every_document
    (fuel : nat) (req : option (string + HttpRequest)) (request_kwargs : dict)
    (c c' : client E) (doc : Document) :
  request fuel req request_kwargs c = (Ok (Some doc), c') ->
  exists (new : list event) (again : list Document),
    calls c' = (calls c ++ new)%list
    /\ responses new = (again ++ [doc])%list
    /\ retried new = again
    /\ forall k, k < length (on_response_post (ext_handlers c)) ->
                 posted k new = (again ++ [doc])%list.
Proof.
  unfold request. intros Hr.
  apply bind_inv_ok in Hr as (h & c0 & H0 & Hr).
  apply handlers_inv in H0 as [-> ->].
  apply bind_inv_ok in Hr as (retry & c1 & H1 & Hr).
  apply all_init_extends in H1 as [Hc1 Hh1].
  apply request_loop_trace in Hr as (new & again & Hc & Hres & Hret & Hpost).
  exists new, again. rewrite Hc, Hc1, app_nil_r.
  split; [done|]. split; [done|]. split; [done|].
  intros k Hk. apply Hpost. by rewrite Hh1.
Qed.

End facts.

Lemma post_hooks_run_on_every_document_witness :
  exists (new : list event) (again : list Document),
    calls (snd (request 2 (Some (inl "http://www.example.com/")) [] example_client))
    = (calls example_client ++ new)%list
    /\ responses new = (again ++ [example_page])%list
    /\ retried new = again
    /\ forall k, k < length (on_response_post (ext_handlers example_client)) ->
                 posted k new = (again ++ [example_page])%list.
Proof.
  apply (post_hooks_run_on_every_document
           2 (Some (inl "http://www.example.com/")) [] example_client).
  vm_compute. reflexivity.
Defined.

(** C5, as it is stated, fails: the first attempt is answered by a redirect,
    on which the [retry] handler signals a retry; the [response:post]
    handler has been called on that document all the same, before the one
    that is returned. *)
Lemma post_hook_sees_retried_document :
  fst (request 2 (Some (inl "http://www.example.com/")) [] example_client)
  = Ok (Some example_page)
  /\ posted 0 (calls (snd (request 2 (Some (inl "http://www.example.com/")) []
                                   example_client)))
     = [example_redirect; example_page]
  /\ retried (calls (snd (request 2 (Some (inl "http://www.example.com/")) []
                                  example_client)))
     = [example_redirect]
  /\ example_redirect <> example_page
  /\ ext (snd (request 2 (Some (inl "http://www.example.com/")) [] example_client))
     = [302; 200]%Z.
Proof. vm_compute. repeat split; try reflexivity. discriminate. Qed.

End HttpClientFacts.

(** * Cookie jars: the list of a jar's cookies rebuilds it *)

Module JarFacts.
Local Close Scope string_scope.

Section od.
Context {V : Type}.
Implicit Types (d pre : odict V).

Lemma od_keys_app d1 d2 : od_keys (d1 ++ d2) = (od_keys d1 ++ od_keys d2)%list.
Proof. unfold od_keys. apply map_app. Qed.

Lemma od_set_new k v pre : k ∉ od_keys pre -> od_set k v pre = (pre ++ [(k, v)])%list.
Proof.
  induction pre as [|[k' v'] pre IH]; intros Hk; [done|].
  cbn in Hk. apply not_elem_of_cons in Hk as [Hne Hk].
  cbn. apply String.eqb_neq in Hne. rewrite Hne. by rewrite IH.
Qed.

Lemma od_set_last k v v0 pre :
  k ∉ od_keys pre -> od_set k v (pre ++ [(k, v0)]) = (pre ++ [(k, v)])%list.
Proof.
  induction pre as [|[k' v'] pre IH]; intros Hk.
  - cbn. by rewrite String.eqb_refl.
  - cbn in Hk. apply not_elem_of_cons in Hk as [Hne Hk].
    cbn. apply String.eqb_neq in Hne. rewrite Hne. by rewrite IH.
Qed.

Lemma od_get_last k v0 pre : k ∉ od_keys pre -> od_get k (pre ++ [(k, v0)]) = Some v0.
Proof.
  induction pre as [|[k' v'] pre IH]; intros Hk.
  - cbn. by rewrite String.eqb_refl.
  - cbn in Hk. apply not_elem_of_cons in Hk as [Hne Hk].
    cbn. apply String.eqb_neq in Hne. rewrite Hne. by apply IH.
Qed.

Lemma od_get_absent k pre : k ∉ od_keys pre -> od_get k pre = None.
Proof.
  induction pre as [|[k' v'] pre IH]; intros Hk; [done|].
  cbn in Hk. apply not_elem_of_cons in Hk as [Hne Hk].
  cbn. apply String.eqb_neq in Hne. rewrite Hne. by apply IH.
Qed.

Lemma od_set_nonempty k v d : od_set k v d <> [].
Proof. destruct d as [|[k' v'] d]; [done|]. cbn. by destruct (String.eqb k k'). Qed.

Lemma od_keys_set k v d :
  (od_keys (od_set k v d) = od_keys d)
  \/ ((k ∉ od_keys d) /\ od_keys (od_set k v d) = (od_keys d ++ [k])%list).
Proof.
  unfold od_keys. induction d as [|[k' v'] d IH]; cbn [od_set].
  - right. split; [apply not_elem_of_nil|done].
  - destruct (String.eqb k k') eqn:E.
    + apply String.eqb_eq in E. subst. by left.
    + apply String.eqb_neq in E. cbn [map fst app].
      destruct IH as [IH|[Hn IH]]; rewrite IH; [by left|right].
      split; [|done]. by apply not_elem_of_cons.
Qed.

Lemma od_set_NoDup k v d : NoDup (od_keys d) -> NoDup (od_keys (od_set k v d)).
Proof.
  intros Hnd. destruct (od_keys_set k v d) as [->|[Hn ->]]; [done|].
  apply NoDup_app. split; [done|]. split; [|apply NoDup_singleton].
  intros x Hx Hx'. apply list_elem_of_singleton in Hx'. by subst.
Qed.

Lemma od_set_Forall (P : string * V -> Prop) k v d :
  Forall P d -> P (k, v) -> Forall P (od_set k v d).
Proof.
  intros Hall Hp. induction d as [|[k' v'] d IH]; cbn.
  - by apply Forall_cons.
  - apply Forall_cons in Hall as [Hh Hall]. destruct (String.eqb k k').
    + by apply Forall_cons.
    + apply Forall_cons. split; [done|]. by apply IH.
Qed.

Lemma od_get_Forall (P : string * V -> Prop) k v d :
  Forall P d -> od_get k d = Some v -> P (k, v).
Proof.
  intros Hall. induction d as [|[k' v'] d IH]; cbn; [done|].
  apply Forall_cons in Hall as [Hh Hall]. destruct (String.eqb k k') eqn:E.
  - apply String.eqb_eq in E. subst. by intros [= <-].
  - by apply IH.
Qed.

End od.

(** The three ways a cookie enters a jar: under a new domain, under a new
    path of the last domain, under a new name of its last path. *)
Lemma set_cookie_new_domain c (pre1 : CookieJar) :
  c_domain c ∉ od_keys pre1 ->
  set_cookie c pre1
  = (pre1 ++ [(c_domain c, [(c_path c, [(c_name c, c)])])])%list.
Proof.
  intros H1. unfold set_cookie. rewrite (od_get_absent _ _ H1). cbn.
  by apply od_set_new.
Qed.

Lemma set_cookie_new_path c (pre1 : CookieJar) pre2 :
  c_domain c ∉ od_keys pre1 -> c_path c ∉ od_keys pre2 ->
  set_cookie c (pre1 ++ [(c_domain c, pre2)])
  = (pre1 ++ [(c_domain c, pre2 ++ [(c_path c, [(c_name c, c)])])])%list.
Proof.
  intros H1 H2. unfold set_cookie.
  rewrite (od_get_last _ _ _ H1). cbn [default from_option id].
  rewrite (od_get_absent _ _ H2). cbn [default from_option id od_set].
  rewrite (od_set_new _ _ _ H2). by apply od_set_last.
Qed.

Lemma set_cookie_new_name c (pre1 : CookieJar) pre2 pre3 :
  c_domain c ∉ od_keys pre1 -> c_path c ∉ od_keys pre2 ->
  c_name c ∉ od_keys pre3 ->
  set_cookie c (pre1 ++ [(c_domain c, pre2 ++ [(c_path c, pre3)])])
  = (pre1 ++ [(c_domain c, pre2 ++ [(c_path c, pre3 ++ [(c_name c, c)])])])%list.
Proof.
  intros H1 H2 H3. unfold set_cookie.
  rewrite (od_get_last _ _ _ H1). cbn [default from_option id].
  rewrite (od_get_last _ _ _ H2). cbn [default from_option id].
  rewrite (od_set_new _ _ _ H3), (od_set_last _ _ _ _ H2).
  by apply od_set_last.
Qed.


Lemma files_app cs1 cs2 jar : files (cs1 ++ cs2) jar = files cs2 (files cs1 jar).
Proof. apply fold_left_app. Qed.

Lemma files_names dom pth (pre1 : CookieJar) pre2 : forall names pre3,
  dom ∉ od_keys pre1 -> pth ∉ od_keys pre2 ->
  NoDup (od_keys (pre3 ++ names)) ->
  Forall (fun kv => c_name (snd kv) = fst kv /\ c_domain (snd kv) = dom
                    /\ c_path (snd kv) = pth) names ->
  files (map snd names) (pre1 ++ [(dom, pre2 ++ [(pth, pre3)])])
  = (pre1 ++ [(dom, pre2 ++ [(pth, pre3 ++ names)])])%list.
Proof.
  induction names as [|[n c] names IH]; intros pre3 H1 H2 Hnd Hall.
  - by rewrite app_nil_r.
  - apply Forall_cons in Hall as [(Hn & Hd & Hp) Hall]. cbn in Hn, Hd, Hp. subst n dom pth.
    cbn [map snd files fold_left].
    change (fold_left _ ?cs ?j) with (files cs j).
    rewrite od_keys_app in Hnd. cbn in Hnd.
    pose proof Hnd as Hnd'. apply NoDup_app in Hnd' as (_ & Hdis & _).
    rewrite set_cookie_new_name; [|done|done|].
    + rewrite IH; [|done|done| |done].
      * by rewrite <- app_assoc.
      * rewrite <- app_assoc. by rewrite od_keys_app.
    + intros Hin. apply (Hdis _ Hin). by left.
Qed.

Lemma files_paths dom (pre1 : CookieJar) : forall paths pre2,
  dom ∉ od_keys pre1 ->
  NoDup (od_keys (pre2 ++ paths)) ->
  Forall (fun kv => wf_names dom (fst kv) (snd kv)) paths ->
  files (flat_map (fun pth => map snd (snd pth)) paths) (pre1 ++ [(dom, pre2)])
  = (pre1 ++ [(dom, pre2 ++ paths)])%list.
Proof.
  induction paths as [|[pth names] paths IH]; intros pre2 H1 Hnd Hall.
  - by rewrite app_nil_r.
  - apply Forall_cons in Hall as [(Hne & Hnn & Hnames) Hall]. cbn in Hne, Hnn, Hnames.
    destruct names as [|[n c] names]; [done|].
    pose proof Hnames as Hc. apply Forall_cons in Hc as [(Hn & Hd & Hp) _].
    cbn in Hn, Hd, Hp. subst n dom pth.
    rewrite od_keys_app in Hnd. cbn in Hnd.
    pose proof Hnd as Hnd'. apply NoDup_app in Hnd' as (_ & Hdis & _).
    assert (H2 : c_path c ∉ od_keys pre2).
    { intros Hin. apply (Hdis _ Hin). by left. }
    cbn [flat_map snd map app].
    cbn [files fold_left]. change (fold_left _ ?cs ?j) with (files cs j).
    rewrite set_cookie_new_path by done. rewrite files_app.
    apply Forall_cons in Hnames as [_ Hnames'].
    etrans.
    { apply (f_equal (files _)).
      by apply (files_names (c_domain c) (c_path c) pre1 pre2 names [(c_name c, c)]). }
    cbn [app]. etrans.
    { apply IH; [done| |done]. rewrite <- app_assoc. by rewrite od_keys_app. }
    by rewrite <- app_assoc.
Qed.

Lemma files_jar : forall (jar pre1 : CookieJar),
  NoDup (od_keys (pre1 ++ jar)) ->
  Forall (fun kv => wf_paths (fst kv) (snd kv)) jar ->
  files (jar_cookies jar) pre1 = (pre1 ++ jar)%list.
Proof.
  induction jar as [|[dom paths] jar IH]; intros pre1 Hnd Hall.
  - by rewrite app_nil_r.
  - apply Forall_cons in Hall as [(Hne & Hnp & Hpaths) Hall]. cbn in Hne, Hnp, Hpaths.
    destruct paths as [|[pth names] paths]; [done|].
    pose proof Hpaths as Hp. apply Forall_cons in Hp as [(Hne' & Hnn & Hnames) Hpaths'].
    cbn in Hne', Hnn, Hnames.
    destruct names as [|[n c] names]; [done|].
    pose proof Hnames as Hc. apply Forall_cons in Hc as [(Hn & Hd & Hpp) Hnames'].
    cbn in Hn, Hd, Hpp. subst n dom pth.
    rewrite od_keys_app in Hnd. cbn in Hnd.
    pose proof Hnd as Hnd'. apply NoDup_app in Hnd' as (_ & Hdis & _).
    assert (H1 : c_domain c ∉ od_keys pre1).
    { intros Hin. apply (Hdis _ Hin). by left. }
    unfold jar_cookies. cbn [flat_map snd map app].
    cbn [files fold_left]. change (fold_left _ ?cs ?j) with (files cs j).
    rewrite set_cookie_new_domain by done. rewrite <- app_assoc, !files_app.
    etrans.
    { apply (f_equal (files _)), (f_equal (files _)).
      by apply (files_names (c_domain c) (c_path c) pre1 [] names [(c_name c, c)]);
        [|apply not_elem_of_nil| |]. }
    cbn [app]. etrans.
    { apply (f_equal (files _)).
      by apply (files_paths (c_domain c) pre1 paths [(c_path c, (c_name c, c) :: names)]). }
    cbn [app]. etrans.
    { apply IH; [|done]. rewrite <- app_assoc. by rewrite od_keys_app. }
    by rewrite <- app_assoc.
Qed.

(** A jar rebuilt from the list of its cookies is the jar. *)
Lemma from_cookie_list_jar_cookies (jar : CookieJar) :
  wf_jar jar -> from_cookie_list (jar_cookies jar) = jar.
Proof. intros [Hnd Hall]. apply (files_jar jar [] Hnd Hall). Qed.

(** Every jar that [set_cookie] builds is of that shape. *)
Lemma wf_jar_empty : wf_jar [].
Proof. split; [apply NoDup_nil_2|apply Forall_nil_2]. Qed.

Lemma set_cookie_wf c jar : wf_jar jar -> wf_jar (set_cookie c jar).
Proof.
  intros [Hnd Hall]. unfold set_cookie. split; [by apply od_set_NoDup|].
  apply od_set_Forall; [done|]. cbn [fst snd].
  assert (H2 : default [] (od_get (c_domain c) jar) = []
               \/ wf_paths (c_domain c) (default [] (od_get (c_domain c) jar))).
  { destruct (od_get (c_domain c) jar) as [c2|] eqn:E2; [right|by left].
    apply (od_get_Forall _ _ _ _ Hall E2). }
  set (c2 := default [] (od_get (c_domain c) jar)) in *.
  assert (Hnd2 : NoDup (od_keys c2)).
  { destruct H2 as [->|(_ & H & _)]; [apply NoDup_nil_2|done]. }
  assert (Hall2 : Forall (fun kv => wf_names (c_domain c) (fst kv) (snd kv)) c2).
  { destruct H2 as [->|(_ & _ & H)]; [apply Forall_nil_2|done]. }
  split; [apply od_set_nonempty|]. split; [by apply od_set_NoDup|].
  apply od_set_Forall; [done|]. cbn [fst snd].
  assert (H3 : default [] (od_get (c_path c) c2) = []
               \/ wf_names (c_domain c) (c_path c) (default [] (od_get (c_path c) c2))).
  { destruct (od_get (c_path c) c2) as [c3|] eqn:E3; [right|by left].
    apply (od_get_Forall _ _ _ _ Hall2 E3). }
  set (c3 := default [] (od_get (c_path c) c2)) in *.
  split; [apply od_set_nonempty|]. split.
  - apply od_set_NoDup. destruct H3 as [->|(_ & H & _)]; [apply NoDup_nil_2|done].
  - apply od_set_Forall; [|done].
    destruct H3 as [->|(_ & _ & H)]; [apply Forall_nil_2|done].
Qed.

Lemma from_cookie_list_wf cs : wf_jar (from_cookie_list cs).
Proof.
  unfold from_cookie_list. generalize wf_jar_empty. generalize (@nil (string * odict (odict Cookie))).
  induction cs as [|c cs IH]; intros jar Hwf; [done|].
  cbn [fold_left]. by apply IH, set_cookie_wf.
Qed.

Lemma jar_update_wf other jar : wf_jar jar -> wf_jar (jar_update other jar).
Proof.
  unfold jar_update. generalize (jar_cookies other). intros cs. revert jar.
  induction cs as [|c cs IH]; intros jar Hwf; [done|].
  cbn [fold_left]. by apply IH, set_cookie_wf.
Qed.

End JarFacts.

(** * Copies of the config: [copy_config], [dump_config], [load_config], [clone] *)

(** ** Facts *)

Section store_facts.

Lemma returns_ret {A} (a : A) s (Q : A -> state -> Prop) : Q a s -> returns (ret a) s Q.
Proof. intros Hq. by exists a, s. Qed.

Lemma returns_bind {A B} (m : M A) (f : A -> M B) s (Q : B -> state -> Prop) :
  returns m s (fun a s1 => returns (f a) s1 Q) -> returns (bind m f) s Q.
Proof.
  intros (a & s1 & Hm & b & s2 & Hf & Hq). exists b, s2.
  split; [|done]. by rewrite (bind_ok _ _ _ _ _ Hm).
Qed.

Lemma returns_mono {A} (m : M A) s (Q Q' : A -> state -> Prop) :
  returns m s Q -> (forall a s', Q a s' -> Q' a s') -> returns m s Q'.
Proof. intros (a & s' & Hm & Hq) Himp. exists a, s'. eauto. Qed.

Lemma returns_eq {A} (m : M A) s a s' (Q : A -> state -> Prop) :
  m s = (Ok a, s') -> Q a s' -> returns m s Q.
Proof. intros Hm Hq. by exists a, s'. Qed.

Lemma leaves_refl P h : leaves P h h.
Proof. by split. Qed.

Lemma leaves_trans P h1 h2 h3 : leaves P h1 h2 -> leaves P h2 h3 -> leaves P h1 h3.
Proof.
  intros (Hl1 & Hh1) (Hl2 & Hh2). split; [lia|].
  intros l Hl Hp. rewrite Hh2 by (done || lia). by apply Hh1.
Qed.

Lemma leaves_weaken (P Q : nat -> Prop) h h' :
  (forall l, Q l -> P l) -> leaves P h h' -> leaves Q h h'.
Proof. intros Himp (Hl & Hh). split; [done|]. eauto. Qed.

Lemma leaves_fresh h h1 h2 c :
  leaves (fun _ => True) h h1 -> leaves (fun l => l <> c) h1 h2 -> length h <= c ->
  leaves (fun _ => True) h h2.
Proof.
  intros (Hl1 & Hh1) (Hl2 & Hh2) Hc. split; [lia|].
  intros l Hl _. rewrite Hh2 by lia. by apply Hh1.
Qed.

Lemma alloc_leaves P o h : leaves P h (h ++ [o]).
Proof.
  split; [rewrite length_app; lia|]. intros l Hl _. by apply lookup_app_l.
Qed.

Lemma store_leaves l o h : leaves (fun l' => l' <> l) h (<[l := o]> h).
Proof.
  split; [by rewrite length_insert|].
  intros l' _ Hp. by apply list_lookup_insert_ne.
Qed.

Lemma steady_refl s : steady s s.
Proof. split; [done|apply leaves_refl]. Qed.

Lemma steady_trans s1 s2 s3 : steady s1 s2 -> steady s2 s3 -> steady s1 s3.
Proof.
  intros [Hs1 Hl1] [Hs2 Hl2]. split; [congruence|by eapply leaves_trans].
Qed.

Lemma alloc_steady o s : steady s (set_heap (heap s ++ [o]) s).
Proof. split; [done|apply alloc_leaves]. Qed.

Lemma alloc_lookup o s : heap (set_heap (heap s ++ [o]) s) !! length (heap s) = Some o.
Proof. cbn. rewrite lookup_app_r by lia. by rewrite Nat.sub_diag. Qed.

Lemma steady_lookup s s' l o : steady s s' -> heap s !! l = Some o -> heap s' !! l = Some o.
Proof.
  intros (_ & _ & Hh) Hl. rewrite Hh; [done| |done]. by eapply lookup_lt_Some.
Qed.

Lemma setitem_ok l d key v s :
  heap s !! l = Some (ODict d) ->
  setitem l key v s = (Ok tt, set_heap (<[l := ODict (od_set key v d)]> (heap s)) s).
Proof. intros Hd. munfold. by rewrite Hd. Qed.

Lemma copy_returns v s :
  bound (heap s) v ->
  returns (copy v) s (fun v' s' => steady s s' /\ copied (heap s) (heap s') v v').
Proof.
  intros Hb. destruct v as [| | | | |l]; try (apply returns_ret; split; [apply steady_refl|done]).
  specialize (Hb l eq_refl). destruct (lookup_lt_is_Some_2 _ _ Hb) as [o Ho].
  eapply returns_eq.
  { unfold copy. munfold. rewrite Ho. reflexivity. }
  split; [apply alloc_steady|]. exists (length (heap s)). cbn. rewrite length_app. cbn.
  split; [done|]. split; [lia|]. split; [lia|].
  rewrite lookup_app_r by lia. by rewrite Nat.sub_diag.
Qed.


Lemma copy_keys_returns c cl d ks : forall s dc,
  cl <> c ->
  heap s !! c = Some (ODict d) ->
  heap s !! cl = Some (ODict dc) ->
  (forall key, key ∈ ks ->
     exists v, od_get key d = Some v
               /\ forall l, v = VRef l -> l < length (heap s) /\ l <> cl) ->
  returns (for_each ks (copy_key c cl)) s (fun _ s' =>
    self s' = self s /\
    leaves (fun l => l <> cl) (heap s) (heap s') /\
    exists dc', heap s' !! cl = Some (ODict dc')
      /\ (forall key, key ∉ ks -> od_get key dc' = od_get key dc)
      /\ (forall key v, key ∈ ks -> od_get key d = Some v ->
            exists v', od_get key dc' = Some v' /\ copied (heap s) (heap s') v v')).
Proof.
  induction ks as [|k ks IH]; intros s dc Hne Hc Hcl Hks.
  - apply returns_ret. split; [done|]. split; [apply leaves_refl|]. exists dc.
    split; [done|]. split; [done|]. intros key v Hin. by apply elem_of_nil in Hin.
  - destruct (Hks k) as (v & Hv & Hvb); [by left|].
    destruct (copy_returns v s) as (v' & s1 & Hcopy & [Hs1 Hl1] & Hcp).
    { intros l ->. by apply Hvb. }
    pose proof (lookup_lt_Some _ _ _ Hc) as Hclt.
    pose proof (lookup_lt_Some _ _ _ Hcl) as Hcllt.
    assert (Hcl1 : heap s1 !! cl = Some (ODict dc)).
    { destruct Hl1 as (_ & Hh). by rewrite Hh. }
    assert (Hc1 : heap s1 !! c = Some (ODict d)).
    { destruct Hl1 as (_ & Hh). by rewrite Hh. }
    set (s2 := set_heap (<[cl := ODict (od_set k v' dc)]> (heap s1)) s1).
    assert (Hstep : copy_key c cl k s = (Ok tt, s2)).
    { unfold copy_key. rewrite (bind_ok _ _ _ _ _ (getitem_ok _ _ _ _ _ Hc Hv)).
      rewrite (bind_ok _ _ _ _ _ Hcopy). by apply setitem_ok. }
    assert (Hl12 : leaves (fun l => l <> cl) (heap s1) (heap s2)) by apply store_leaves.
    assert (Hl2 : leaves (fun l => l <> cl) (heap s) (heap s2)).
    { eapply leaves_trans; [|exact Hl12]. by eapply leaves_weaken; [|exact Hl1]. }
    destruct (IH s2 (od_set k v' dc))
      as ([] & s' & Hrun & Hs' & Hl' & dc' & Hcl' & Hout & Hin); [done| | | |].
    { destruct Hl2 as (_ & Hh). by rewrite Hh. }
    { apply list_lookup_insert_eq. destruct Hl1 as (Hlen & _). lia. }
    { intros key Hkey. destruct (Hks key) as (vk & Hvk & Hvkb); [by right|].
      exists vk. split; [done|]. intros l Hl. destruct (Hvkb l Hl) as [Hlt Hn].
      split; [|done]. destruct Hl2 as (Hlen & _). lia. }
    exists tt, s'. split.
    { cbn [for_each]. by rewrite (bind_ok _ _ _ _ _ Hstep). }
    split; [by rewrite Hs'|].
    split; [by eapply leaves_trans|]. exists dc'. split; [done|]. split.
    + intros key Hkey. apply not_elem_of_cons in Hkey as [Hkk Hkey].
      rewrite Hout by done. by apply od_get_set_ne.
    + intros key vk Hkey Hvk.
      destruct (decide (key ∈ ks)) as [Hkin|Hknot].
      * destruct (Hin key vk Hkin Hvk) as (v'' & Hv'' & Hcp'').
        exists v''. split; [done|].
        destruct (Hks key Hkey) as (vk' & Hvk' & Hvkb). rewrite Hvk in Hvk'.
        injection Hvk' as <-.
        destruct vk as [| | | | |l]; try done.
        destruct Hcp'' as (l' & -> & Hge & Hlt & Hlook).
        destruct (Hvkb l eq_refl) as [Hllt Hln].
        exists l'. split; [done|].
        destruct Hl2 as (Hlen2 & Hh2).
        split; [lia|]. split; [done|]. rewrite Hlook. by apply Hh2.
      * apply elem_of_cons in Hkey as [->|Hkey]; [|done].
        rewrite Hv in Hvk. injection Hvk as <-.
        exists v'. split; [rewrite Hout by done; apply od_get_set_eq|].
        destruct v as [| | | | |l]; try done.
        destruct Hcp as (l' & -> & Hge & Hlt & Hlook).
        exists l'. split; [done|]. split; [done|].
        pose proof (leaves_trans _ _ _ _ Hl12 Hl') as (Hlen & Hh).
        split; [lia|]. rewrite <- Hlook. apply Hh; [done|lia].
Qed.

Lemma copy_config_unfold c :
  copy_config c
  = (cloned_config ← copy_object c;
     for_each MUTABLE_CONFIG_KEYS (copy_key c cloned_config);;
     mret cloned_config).
Proof. reflexivity. Qed.

(** [copy_config]: a new dict with the keys of the original; under the
    mutable keys one-level copies, under the others the original's values. *)
Lemma copy_config_returns c d s :
  heap s !! c = Some (ODict d) ->
  (forall key, key ∈ MUTABLE_CONFIG_KEYS ->
     exists v, od_get key d = Some v /\ bound (heap s) v) ->
  returns (copy_config c) s (fun c' s' =>
    c' = length (heap s) /\ steady s s' /\
    exists d', heap s' !! c' = Some (ODict d')
      /\ (forall key, key ∉ MUTABLE_CONFIG_KEYS -> od_get key d' = od_get key d)
      /\ (forall key v, key ∈ MUTABLE_CONFIG_KEYS -> od_get key d = Some v ->
            exists v', od_get key d' = Some v' /\ v' <> VRef c'
                       /\ copied (heap s) (heap s') v v')).
Proof.
  intros Hc Hks. rewrite copy_config_unfold.
  pose proof (lookup_lt_Some _ _ _ Hc) as Hclt.
  set (cl := length (heap s)).
  set (s0 := set_heap (heap s ++ [ODict d]) s).
  assert (H0 : copy_object c s = (Ok cl, s0)).
  { unfold copy_object. munfold. by rewrite Hc. }
  assert (Hl0 : steady s s0) by apply alloc_steady.
  destruct (copy_keys_returns c cl d MUTABLE_CONFIG_KEYS s0 d)
    as ([] & s' & Hrun & Hs' & Hl' & d' & Hd' & Hout & Hin).
  { unfold cl. lia. }
  { cbn. by apply lookup_app_l_Some. }
  { apply alloc_lookup. }
  { intros key Hkey. destruct (Hks key Hkey) as (v & Hv & Hb). exists v.
    split; [done|]. intros l ->. specialize (Hb l eq_refl). cbn.
    rewrite length_app. cbn. unfold cl. lia. }
  exists cl, s'. split.
  { rewrite (bind_ok _ _ _ _ _ H0). by rewrite (bind_ok _ _ _ _ _ Hrun). }
  split; [done|]. split.
  { destruct Hl0 as (Hs0 & Hl0). split; [congruence|].
    eapply leaves_fresh; [exact Hl0|exact Hl'|done]. }
  exists d'. split; [done|]. split; [done|].
  intros key v Hkey Hv. destruct (Hin key v Hkey Hv) as (v' & Hv' & Hcp).
  exists v'. split; [done|].
  destruct v as [| | | | |l]; try (cbn in Hcp; by subst v').
  destruct Hcp as (l' & -> & Hge & Hlt & Hlook).
  destruct (Hks key Hkey) as (v0 & Hv0 & Hb). rewrite Hv in Hv0. injection Hv0 as <-.
  specialize (Hb l eq_refl).
  revert Hge Hlook. cbn. rewrite length_app. cbn. intros Hge Hlook.
  split; [intros [= ->]; unfold cl in Hge; lia|].
  exists l'. split; [done|]. split; [lia|]. split; [done|].
  rewrite Hlook. by apply lookup_app_l.
Qed.

(** ** Snapshots through a store that grows *)

Lemma snapshot_frame n : forall h h' v,
  closed h -> leaves (fun _ => True) h h' -> bound h v ->
  snapshot n h' v = snapshot n h v.
Proof.
  induction n as [|n IH]; intros h h' v Hcl Hl Hb; destruct v as [| | | | |l]; try done.
  specialize (Hb l eq_refl). cbn [snapshot].
  destruct Hl as [Hlen Hh]. rewrite (Hh l Hb I).
  destruct (h !! l) as [o|] eqn:Ho; [|done].
  pose proof (Hcl l o Ho) as Hit. destruct o as [d|vs]; cbn [items_of] in Hit; f_equal.
  - apply (proj1 (List.Forall_map _ _ _)) in Hit. apply map_ext_Forall.
    eapply List.Forall_impl; [|exact Hit]. intros [k v] Hv. cbn in *.
    f_equal. apply IH; [done|by split|done].
  - apply map_ext_Forall. eapply List.Forall_impl; [|exact Hit].
    intros v Hv. apply IH; [done|by split|done].
Qed.

Lemma snapshot_copied n h h' v v' :
  closed h -> leaves (fun _ => True) h h' -> bound h v ->
  copied h h' v v' -> snapshot n h' v' = snapshot n h v.
Proof.
  intros Hcl Hl Hb Hcp.
  destruct v as [| | | | |l]; try (cbn in Hcp; subst v'; by destruct n).
  destruct Hcp as (l' & -> & Hge & Hlt & Hlook).
  destruct n as [|n]; [done|]. cbn [snapshot]. rewrite Hlook.
  destruct (h !! l) as [o|] eqn:Ho; [|done].
  pose proof (Hcl l o Ho) as Hit. destruct o as [d|vs]; cbn [items_of] in Hit; f_equal.
  - apply (proj1 (List.Forall_map _ _ _)) in Hit. apply map_ext_Forall.
    eapply List.Forall_impl; [|exact Hit]. intros [k v] Hv. cbn in *.
    f_equal. by apply snapshot_frame.
  - apply map_ext_Forall. eapply List.Forall_impl; [|exact Hit].
    intros v Hv. by apply snapshot_frame.
Qed.

Lemma closedb_closed h : closedb h = true -> closed h.
Proof.
  unfold closedb. intros Hc l o Ho.
  rewrite forallb_forall in Hc.
  apply list_elem_of_lookup_2, list_elem_of_In in Ho. specialize (Hc o Ho).
  rewrite forallb_forall in Hc. apply List.Forall_forall. intros v Hv.
  specialize (Hc v Hv). intros l' ->. cbn in Hc. by apply Nat.ltb_lt in Hc.
Qed.

Lemma closed_bound h l d k v :
  closed h -> h !! l = Some (ODict d) -> od_get k d = Some v -> bound h v.
Proof.
  intros Hcl Hl Hk. specialize (Hcl l _ Hl). cbn in Hcl.
  rewrite List.Forall_forall in Hcl. apply Hcl.
  clear Hcl Hl. induction d as [|[k' v'] d IH]; cbn in *; [done|].
  destruct (String.eqb k k'); [left; congruence|right; by apply IH].
Qed.

(** ** [dump_config] and [load_config] *)

Lemma state_not_mutable : "state" ∉ MUTABLE_CONFIG_KEYS.
Proof. apply (bool_decide_unpack _). reflexivity. Qed.

Lemma mutable_are_options key : key ∈ MUTABLE_CONFIG_KEYS -> In key option_names.
Proof.
  intros Hk. unfold MUTABLE_CONFIG_KEYS in Hk.
  repeat (apply elem_of_cons in Hk as [->|Hk]; [cbn; tauto|]).
  by apply elem_of_nil in Hk.
Qed.

Lemma mutable_bound h c d :
  closed h -> h !! c = Some (ODict d) -> complete d ->
  forall key, key ∈ MUTABLE_CONFIG_KEYS ->
    exists v, od_get key d = Some v /\ bound h v.
Proof.
  intros Hcl Hc Hd key Hk.
  destruct (complete_get d key Hd (mutable_are_options key Hk)) as [v Hv].
  exists v. split; [done|]. by eapply closed_bound.
Qed.

Lemma copied_steady h h1 h2 v v1 :
  leaves (fun _ => True) h h1 -> bound h v ->
  copied h1 h2 v v1 -> copied h h2 v v1.
Proof.
  intros [Hlen Hh] Hb Hcp. destruct v as [| | | | |l]; try done.
  destruct Hcp as (l' & -> & Hge & Hlt & Hlook).
  exists l'. split; [done|]. split; [lia|]. split; [done|].
  rewrite Hlook. apply Hh; [by apply Hb|done].
Qed.

Lemma copied_leaves (P : nat -> Prop) h h1 h2 v v1 :
  leaves P h1 h2 -> (forall l, v1 = VRef l -> P l) ->
  copied h h1 v v1 -> copied h h2 v v1.
Proof.
  intros [Hlen Hh] Hp Hcp. destruct v as [| | | | |l]; try done.
  destruct Hcp as (l' & -> & Hge & Hlt & Hlook).
  exists l'. split; [done|]. split; [done|]. split; [lia|].
  rewrite <- Hlook. apply Hh; [done|by apply Hp].
Qed.

Lemma copied_twice h h1 h2 v v1 v2 :
  copied h h1 v v1 -> copied h1 h2 v1 v2 -> copied h h2 v v2.
Proof.
  intros H1 H2. destruct v as [| | | | |l]; try (cbn in H1; subst v1; exact H2).
  destruct H1 as (l1 & -> & Hge1 & Hlt1 & Hlook1).
  destruct H2 as (l2 & -> & Hge2 & Hlt2 & Hlook2).
  exists l2. split; [done|]. split; [lia|]. split; [done|]. congruence.
Qed.

Lemma copied_bound h h' v v' : copied h h' v v' -> bound h v -> bound h' v'.
Proof.
  intros Hcp Hb. destruct v as [| | | | |l]; try (cbn in Hcp; by subst v').
  destruct Hcp as (l' & -> & _ & Hlt & _). by intros ? [= <-].
Qed.

Lemma dump_config_returns s d :
  cfg_is s d ->
  (forall key, key ∈ MUTABLE_CONFIG_KEYS ->
     exists v, od_get key d = Some v /\ bound (heap s) v) ->
  returns dump_config s (fun conf s' =>
    conf = length (heap s) /\ steady s s' /\
    exists d' st cl,
      heap s' !! conf = Some (ODict d')
      /\ od_get "state" d' = Some (VRef st)
      /\ heap s' !! st = Some (ODict [("cookiejar_cookies", VRef cl)])
      /\ heap s' !! cl = Some (OList (map VCookie (jar_cookies (cookies (self s)))))
      /\ (forall key, key ∉ MUTABLE_CONFIG_KEYS -> key <> "state" ->
            od_get key d' = od_get key d)
      /\ (forall key v, key ∈ MUTABLE_CONFIG_KEYS -> od_get key d = Some v ->
            exists v', od_get key d' = Some v' /\ copied (heap s) (heap s') v v')).
Proof.
  intros Hc Hks.
  destruct (copy_config_returns _ _ _ Hc Hks)
    as (conf & s1 & Hrun & -> & [Hs1 Hl1] & d1 & Hd1 & Hout & Hin).
  set (cs := OList (map VCookie (jar_cookies (cookies (self s))))).
  set (s2 := set_heap (heap s1 ++ [cs]) s1).
  set (st := ODict [("cookiejar_cookies", VRef (length (heap s1)))]).
  set (s3 := set_heap (heap s2 ++ [st]) s2).
  set (s4 := set_heap (<[length (heap s) := ODict (od_set "state" (VRef (length (heap s2))) d1)]>
                         (heap s3)) s3).
  pose proof (lookup_lt_Some _ _ _ Hd1) as Hconf.
  assert (H13 : leaves (fun _ => True) (heap s1) (heap s3)).
  { eapply leaves_trans; apply alloc_leaves. }
  assert (H34 : leaves (fun l => l <> length (heap s)) (heap s3) (heap s4))
    by apply store_leaves.
  assert (H14 : leaves (fun l => l <> length (heap s)) (heap s1) (heap s4)).
  { eapply leaves_trans; [|exact H34]. by eapply leaves_weaken; [|exact H13]. }
  exists (length (heap s)), s4. split.
  { unfold dump_config. rewrite (bind_ok _ _ s (self s) s) by done.
    rewrite (bind_ok _ _ _ _ _ Hrun).
    rewrite (bind_ok _ _ s1 (length (heap s1)) s2) by done.
    rewrite (bind_ok _ _ s2 (length (heap s2)) s3) by done.
    rewrite (bind_ok _ _ s3 tt s4); [done|].
    apply setitem_ok. cbn. by do 2 apply lookup_app_l_Some. }
  split; [done|]. split.
  { split; [by rewrite <- Hs1|].
    eapply leaves_fresh; [|exact H34|done]. by eapply leaves_trans. }
  exists (od_set "state" (VRef (length (heap s2))) d1), (length (heap s2)), (length (heap s1)).
  split.
  { apply list_lookup_insert_eq. destruct H13. lia. }
  split; [apply od_get_set_eq|].
  assert (Hlen2 : length (heap s2) = S (length (heap s1))).
  { cbn. rewrite length_app. cbn. lia. }
  split.
  { destruct H34 as [_ Hh]. rewrite Hh.
    - apply alloc_lookup.
    - cbn. rewrite !length_app. cbn. lia.
    - lia. }
  split.
  { destruct H34 as [_ Hh]. rewrite Hh.
    - cbn. apply lookup_app_l_Some. rewrite lookup_app_r by lia. by rewrite Nat.sub_diag.
    - cbn. rewrite !length_app. cbn. lia.
    - lia. }
  split.
  { intros key Hk Hne. rewrite od_get_set_ne by done. by apply Hout. }
  intros key v Hk Hv. destruct (Hin key v Hk Hv) as (v' & Hv' & Hnc & Hcp).
  exists v'. split.
  { rewrite od_get_set_ne; [done|]. intros ->. by apply state_not_mutable. }
  eapply copied_leaves; [exact H14| |exact Hcp].
  intros l ->. congruence.
Qed.

Lemma as_cookies_ok cs s : as_cookies (map VCookie cs) s = (Ok cs, s).
Proof.
  induction cs as [|c cs IH]; [done|]. cbn [map as_cookies].
  by rewrite (bind_ok _ _ _ _ _ IH).
Qed.

Lemma load_config_returns conf s d1 st cl cs :
  heap s !! conf = Some (ODict d1) ->
  (forall key, key ∈ MUTABLE_CONFIG_KEYS ->
     exists v, od_get key d1 = Some v /\ bound (heap s) v) ->
  od_get "state" d1 = Some (VRef st) ->
  heap s !! st = Some (ODict [("cookiejar_cookies", VRef cl)]) ->
  heap s !! cl = Some (OList (map VCookie cs)) ->
  returns (load_config conf) s (fun _ s' =>
    leaves (fun _ => True) (heap s) (heap s') /\
    self s' = set_cookies (from_cookie_list cs) (set_config (length (heap s)) (self s)) /\
    exists d', heap s' !! length (heap s) = Some (ODict d')
      /\ (forall key, key ∉ MUTABLE_CONFIG_KEYS -> od_get key d' = od_get key d1)
      /\ (forall key v, key ∈ MUTABLE_CONFIG_KEYS -> od_get key d1 = Some v ->
            exists v', od_get key d' = Some v' /\ copied (heap s) (heap s') v v')).
Proof.
  intros Hc Hks Hst Hsto Hclo.
  destruct (copy_config_returns _ _ _ Hc Hks)
    as (c & s1 & Hrun & -> & Hsteady & d' & Hd' & Hout & Hin).
  pose proof Hsteady as [Hs1 Hl1].
  set (s2 := set_self (set_config (length (heap s)) (self s1)) s1).
  set (s3 := set_self (set_cookies (from_cookie_list cs) (self s2)) s2).
  assert (Hc2 : heap s2 !! conf = Some (ODict d1))
    by (cbn; eapply steady_lookup; eauto).
  assert (Hst2 : heap s2 !! st = Some (ODict [("cookiejar_cookies", VRef cl)]))
    by (cbn; eapply steady_lookup; eauto).
  assert (Hcl2 : heap s2 !! cl = Some (OList (map VCookie cs)))
    by (cbn; eapply steady_lookup; eauto).
  exists tt, s3. split.
  { unfold load_config. rewrite (bind_ok _ _ _ _ _ Hrun).
    rewrite (bind_ok _ _ s1 tt s2) by done.
    rewrite (bind_ok _ _ _ _ _ (getitem_ok _ _ _ _ _ Hc2 Hst)).
    rewrite (bind_ok _ _ s2 true s2).
    2:{ unfold contains_key. munfold. by rewrite Hst2. }
    cbn [negb].
    rewrite (bind_ok _ _ _ _ _ (getitem_ok _ _ _ _ _ Hc2 Hst)).
    rewrite (bind_ok _ _ s2 (VRef cl) s2).
    2:{ unfold subscript. by apply (getitem_ok _ _ _ _ _ Hst2). }
    rewrite (bind_ok _ _ s2 cs s2); [done|].
    unfold cookies_of_iterable. rewrite (bind_ok _ _ s2 (OList (map VCookie cs)) s2).
    - apply as_cookies_ok.
    - munfold. by rewrite Hcl2. }
  split; [done|]. split; [cbn; by rewrite Hs1|].
  exists d'. split; [done|]. split; [done|].
  intros key v Hk Hv. destruct (Hin key v Hk Hv) as (v' & Hv' & _ & Hcp). eauto.
Qed.

Lemma on_returns {A} (other : Grab) (m : M A) s (Q : A -> state -> Prop) :
  returns m (set_self other s) Q ->
  returns (on other m) s (fun r s' =>
    exists s1, Q (fst r) s1 /\ snd r = self s1 /\ s' = set_self (self s) s1).
Proof.
  intros (a & s1 & Hm & Hq). exists (a, self s1), (set_self (self s) s1).
  split; [unfold on; by rewrite Hm|]. by exists s1.
Qed.

End store_facts.

Section round_trip.

(** C4, as the code has it: in a session with a complete config, a closed
    store and a jar as [set_cookie] builds them, [dump_config] returns a config that
    [load_config] accepts on any session, and the session that loaded it
    has
    - a jar equal to the source's: the same (name, domain, value) triples,
      in the same order;
    - a config that reads as the source's does, to any depth, under every
      option; [state] apart, which is where the dump keeps the cookie
      records:
    - under [state], the record whose [cookiejar_cookies] is the list of
      the source jar's cookies, in the order of the jar, which is also the
      order of the loaded jar.
    The source session and its objects are as they were. *)
Theorem dump_then_load (s : state) (d : dict) (other : Grab) :
  cfg_is s d -> complete d -> closed (heap s) -> wf_jar (cookies (self s)) ->
  exists conf s1 g s2,
    dump_config s = (Ok conf, s1)
    /\ on other (load_config conf) s1 = (Ok (tt, g), s2)
    /\ steady s s2
    /\ cookies g = cookies (self s)
    /\ cookie_triples (cookies g) = cookie_triples (cookies (self s))
    /\ exists d2, heap s2 !! config g = Some (ODict d2)
       /\ (forall key n, key <> "state" ->
             option_map (snapshot n (heap s2)) (od_get key d2)
             = option_map (snapshot n (heap s)) (od_get key d))
       /\ exists st cl,
            od_get "state" d2 = Some (VRef st)
            /\ heap s2 !! st = Some (ODict [("cookiejar_cookies", VRef cl)])
            /\ heap s2 !! cl
               = Some (OList (map VCookie (jar_cookies (cookies (self s)))))
            /\ jar_cookies (cookies g) = jar_cookies (cookies (self s)).
Proof.
  intros Hc Hd Hcl Hwf.
  pose proof (mutable_bound _ _ _ Hcl Hc Hd) as Hks.
  destruct (dump_config_returns s d Hc Hks)
    as (conf & s1 & Hdump & -> & Hsteady1 & d1 & st & cl
        & Hd1 & Hst & Hsto & Hclo & Hout1 & Hin1).
  pose proof Hsteady1 as [Hs1 Hl1].
  destruct (load_config_returns (length (heap s)) (set_self other s1) d1 st cl
              (jar_cookies (cookies (self s))))
    as ([] & s' & Hload & Hl' & Hself & d2 & Hd2 & Hout2 & Hin2); [done| |done|done|done|].
  { intros key Hk. destruct (Hks key Hk) as (v & Hv & Hb).
    destruct (Hin1 key v Hk Hv) as (v1 & Hv1 & Hcp). exists v1.
    split; [done|]. by eapply copied_bound. }
  cbn [heap set_self self] in Hl', Hself, Hd2, Hin2.
  assert (Hl : leaves (fun _ => True) (heap s) (heap s')) by by eapply leaves_trans.
  exists (length (heap s)), s1, (self s'), (set_self (self s1) s').
  split; [done|]. split; [unfold on; by rewrite Hload|].
  assert (Hjar : cookies (self s') = cookies (self s)).
  { rewrite Hself. cbn. by apply JarFacts.from_cookie_list_jar_cookies. }
  split; [by split|]. split; [done|]. split; [by rewrite Hjar|].
  rewrite Hjar, Hself. cbn [config set_cookies set_config heap set_self].
  exists d2. split; [done|]. split.
  - intros key n Hne. destruct (decide (key ∈ MUTABLE_CONFIG_KEYS)) as [Hk|Hk].
    + destruct (Hks key Hk) as (v & Hv & Hb).
      destruct (Hin1 key v Hk Hv) as (v1 & Hv1 & Hcp1).
      destruct (Hin2 key v1 Hk Hv1) as (v2 & Hv2 & Hcp2).
      rewrite Hv, Hv2. cbn. f_equal.
      apply snapshot_copied; [done|done|done|]. by eapply copied_twice.
    + rewrite (Hout2 key Hk), (Hout1 key Hk Hne).
      destruct (od_get key d) as [v|] eqn:Hv; [|done]. cbn. f_equal.
      apply snapshot_frame; [done|done|]. by eapply closed_bound.
  - exists st, cl. split.
    { rewrite (Hout2 "state" state_not_mutable). done. }
    destruct Hl' as [_ Hh].
    split; [rewrite Hh; [done| |done]; by eapply lookup_lt_Some|].
    split; [rewrite Hh; [done| |done]; by eapply lookup_lt_Some|done].
Qed.

End round_trip.

Section cloning.
Context `{Library}.

Lemma randint_returns a b s :
  returns (randint a b) s (fun _ s' => heap s' = heap s /\ self s' = self s).
Proof.
  unfold randint, draw. destruct (entropy s) as [|e es] eqn:E.
  - eexists _, _. split; [cbv [bind ret]; rewrite E; reflexivity|done].
  - eexists _, _. split; [cbv [bind ret]; rewrite E; reflexivity|done].
Qed.

Lemma default_config_returns s :
  returns default_config s (fun c s' =>
    steady s s' /\ length (heap s) <= c /\ exists dd, heap s' !! c = Some (ODict dd)).
Proof.
  eexists _, _. split; [reflexivity|]. cbn [heap set_heap].
  split; [|split].
  - split; [done|]. cbn [heap set_heap].
    eapply leaves_trans; [|apply alloc_leaves].
    eapply leaves_trans; apply alloc_leaves.
  - rewrite !length_app. cbn. lia.
  - eexists. rewrite lookup_app_r by lia. by rewrite Nat.sub_diag.
Qed.

Lemma common_headers_returns s :
  returns common_headers s (fun _ s' => steady s s').
Proof.
  unfold common_headers.
  destruct (randint_returns 2 5 s) as (q1 & s1 & H1 & Hh1 & Hs1).
  destruct (randint_returns 5 9 s1) as (q2 & s2 & H2 & Hh2 & Hs2).
  destruct (randint_returns 5 7 s2) as (q3 & s3 & H3 & Hh3 & Hs3).
  eexists _, _. split.
  { rewrite (bind_ok _ _ _ _ _ H1), (bind_ok _ _ _ _ _ H2), (bind_ok _ _ _ _ _ H3).
    reflexivity. }
  split; [cbn; congruence|]. cbn [heap set_heap].
  replace (heap s) with (heap s3) at 1 by congruence. apply alloc_leaves.
Qed.

Lemma Grab_init_returns t s :
  returns (Grab_init t []) s (fun g s' =>
    steady s s' /\ transport g = mkTransport None false).
Proof.
  unfold Grab_init.
  destruct (default_config_returns s) as (c & s1 & H1 & Hst1 & Hc & dd & Hdd).
  destruct (common_headers_returns s1) as (h & s2 & H2 & Hst2).
  pose proof (steady_lookup _ _ _ _ Hst2 Hdd) as Hdd2.
  eexists _, _. split.
  { rewrite (bind_ok _ _ _ _ _ H1), (bind_ok _ _ _ _ _ H2).
    rewrite (bind_ok _ _ _ _ _ (setitem_ok _ _ _ _ _ Hdd2)). reflexivity. }
  pose proof (steady_trans _ _ _ Hst1 Hst2) as [Hs Hl].
  split; [|reflexivity].
  split; [done|]. cbn [heap set_heap set_self].
  eapply leaves_fresh; [exact Hl|apply store_leaves|done].
Qed.

(** C3, as the code has it: in a session with a complete config and a
    closed store, [clone()] returns a session whose config is a new dict;
    under each of [post], [multipart_post], [headers] and [cookies] it
    holds a one-level copy of the original's value (the same scalar, or a
    new object with the same items), which reads as the original's does;
    and whatever is stored in place of that new object, the original's
    value reads as before, to any depth.  The items themselves are not
    copied.  Every object of the store is as it was, and so is the
    original session but for its transport: the clone holds the same
    transport, which has been reset. *)
Theorem clone_copies_one_level (s : state) (d : dict) :
  cfg_is s d -> complete d -> closed (heap s) ->
  exists g s',
    clone [] s = (Ok g, s')
    /\ self s' = set_transport (mkTransport None false) (self s)
    /\ transport g = transport (self s')
    /\ leaves (fun _ => True) (heap s) (heap s')
    /\ length (heap s) <= config g
    /\ exists d', heap s' !! config g = Some (ODict d')
       /\ forall key v, key ∈ MUTABLE_CONFIG_KEYS -> od_get key d = Some v ->
            exists v', od_get key d' = Some v'
              /\ copied (heap s) (heap s') v v'
              /\ (forall n, snapshot n (heap s') v' = snapshot n (heap s) v)
              /\ (forall l' o' n, v' = VRef l' ->
                    snapshot n (<[l' := o']> (heap s')) v = snapshot n (heap s) v).
Proof.
  intros Hc Hd Hcl.
  pose proof (mutable_bound _ _ _ Hcl Hc Hd) as Hks.
  destruct (Grab_init_returns (transport (self s)) s)
    as (g0 & s1 & Hinit & Hst1 & Ht0).
  pose proof Hst1 as [Hs1 Hl1].
  set (s1' := set_self (set_transport (transport g0) (self s1)) s1).
  destruct (dump_config_returns s1' d) as (conf & s2 & Hdump & -> & Hst2 & d' & st & cl
        & Hd' & _ & _ & _ & _ & Hin).
  { unfold cfg_is, s1'. cbn [heap self set_self config set_transport].
    rewrite Hs1. by eapply steady_lookup. }
  { intros key Hk. destruct (Hks key Hk) as (v & Hv & Hb). exists v. split; [done|].
    intros l Hl. specialize (Hb l Hl). destruct Hl1. unfold s1'. cbn [heap set_self]. lia. }
  destruct Hst2 as [Hs2 Hl2]. cbn [heap self set_self] in Hs2, Hl2.
  assert (Hl : leaves (fun _ => True) (heap s) (heap s2)) by by eapply leaves_trans.
  eexists _, s2. split.
  { unfold clone. rewrite (bind_ok _ _ s (self s) s) by done.
    rewrite (bind_ok _ _ _ _ _ Hinit).
    rewrite (bind_ok _ _ s1 tt s1') by done.
    rewrite (bind_ok _ _ _ _ _ Hdump). reflexivity. }
  split; [rewrite Hs2; unfold s1'; cbn [self set_self]; by rewrite Ht0, Hs1|].
  cbn [config transport set_cookies set_config set_doc].
  split; [rewrite Hs2; unfold s1'; by cbn [self set_self transport set_transport]|].
  split; [done|].
  split; [by destruct Hl1|]. exists d'. split; [done|].
  intros key v Hk Hv. destruct (Hin key v Hk Hv) as (v' & Hv' & Hcp).
  unfold s1' in Hcp. cbn [heap set_self] in Hcp.
  destruct (Hks key Hk) as (v0 & Hv0 & Hb). rewrite Hv in Hv0. injection Hv0 as <-.
  assert (Hcp' : copied (heap s) (heap s2) v v')
    by by apply (copied_steady _ (heap s1)).
  exists v'. split; [done|]. split; [done|]. split.
  - intros n. apply snapshot_copied; [done|done|done|done].
  - intros l' o' n ->. apply snapshot_frame; [done| |done].
    destruct v as [| | | | |l]; try done.
    destruct Hcp' as (l'' & [= <-] & Hge & _).
    eapply leaves_fresh; [done|apply store_leaves|done].
Qed.

End cloning.

Lemma clone_copies_one_level_witness :
  exists g s',
    @clone reference_library [] nested_session = (Ok g, s')
    /\ self s' = set_transport (mkTransport None false) (self nested_session)
    /\ transport g = transport (self s')
    /\ leaves (fun _ => True) (heap nested_session) (heap s')
    /\ length (heap nested_session) <= config g
    /\ exists d', heap s' !! config g = Some (ODict d')
       /\ forall key v, key ∈ MUTABLE_CONFIG_KEYS -> od_get key nested_config = Some v ->
            exists v', od_get key d' = Some v'
              /\ copied (heap nested_session) (heap s') v v'
              /\ (forall n, snapshot n (heap s') v' = snapshot n (heap nested_session) v)
              /\ (forall l' o' n, v' = VRef l' ->
                    snapshot n (<[l' := o']> (heap s')) v
                    = snapshot n (heap nested_session) v).
Proof.
  apply (@clone_copies_one_level reference_library nested_session nested_config).
  - vm_compute. reflexivity.
  - apply completeb_complete. vm_compute. reflexivity.
  - apply closedb_closed. vm_compute. reflexivity.
Defined.

(** C3, as it is stated, fails: the clone's [post] is a new dict, but the
    list it holds is the original's, and appending to it through the clone
    changes what the original session's [post] reads. *)
Lemma clone_shares_nested_values :
  exists g s1 s2,
    @clone reference_library [] nested_session = (Ok g, s1)
    /\ append_tag g (VStr "b") s1 = (Ok tt, s2)
    /\ od_get "post" nested_config = Some (VRef 5)
    /\ heap s2 !! config (self s2) = Some (ODict nested_config)
    /\ snapshot 2 (heap nested_session) (VRef 5)
       = TDict [("tags", TList [TScalar (VStr "a")])]
    /\ snapshot 2 (heap s2) (VRef 5)
       = TDict [("tags", TList [TScalar (VStr "a"); TScalar (VStr "b")])].
Proof.
  eexists _, _, _. split; [vm_compute; reflexivity|].
  split; [vm_compute; reflexivity|]. vm_compute. repeat split.
Qed.

Lemma dump_then_load_witness :
  exists conf s1 g s2,
    dump_config (snd two_sessions) = (Ok conf, s1)
    /\ on (fst two_sessions) (load_config conf) s1 = (Ok (tt, g), s2)
    /\ steady (snd two_sessions) s2
    /\ cookies g = cookies (self (snd two_sessions))
    /\ cookie_triples (cookies g) = cookie_triples (cookies (self (snd two_sessions)))
    /\ exists d2, heap s2 !! config g = Some (ODict d2)
       /\ (forall key n, key <> "state" ->
             option_map (snapshot n (heap s2)) (od_get key d2)
             = option_map (snapshot n (heap (snd two_sessions))) (od_get key nested_config))
       /\ exists st cl,
            od_get "state" d2 = Some (VRef st)
            /\ heap s2 !! st = Some (ODict [("cookiejar_cookies", VRef cl)])
            /\ heap s2 !! cl
               = Some (OList (map VCookie
                                (jar_cookies (cookies (self (snd two_sessions))))))
            /\ jar_cookies (cookies g)
               = jar_cookies (cookies (self (snd two_sessions))).
Proof.
  apply (dump_then_load (snd two_sessions) nested_config (fst two_sessions)).
  - vm_compute. reflexivity.
  - apply completeb_complete. vm_compute. reflexivity.
  - apply closedb_closed. vm_compute. reflexivity.
  - apply JarFacts.from_cookie_list_wf.
Defined.

(** C4, as it is stated, fails: the option [state] is one that the round
    trip does not keep.  The source session's is the empty dict of a new
    session, the loaded config's is the record of the dump. *)
Lemma loaded_state_is_the_snapshot :
  exists conf s1 g s2 d2 st,
    dump_config (snd two_sessions) = (Ok conf, s1)
    /\ on (fst two_sessions) (load_config conf) s1 = (Ok (tt, g), s2)
    /\ heap (snd two_sessions) !! config (self (snd two_sessions))
       = Some (ODict nested_config)
    /\ od_get "state" nested_config = Some (VRef 1)
    /\ heap s2 !! config g = Some (ODict d2)
    /\ od_get "state" d2 = Some (VRef st)
    /\ snapshot 1 (heap (snd two_sessions)) (VRef 1) = TDict []
    /\ snapshot 1 (heap s2) (VRef st) = TDict [("cookiejar_cookies", TDeeper)].
Proof.
  eexists _, _, _, _, _, _. split; [vm_compute; reflexivity|].
  split; [vm_compute; reflexivity|]. vm_compute. repeat split.
Qed.

(** * Further properties

    ** [Urllib3Transport.read_with_timeout] *)

Module Urllib3TransportMore.
Import Urllib3Transport.
Local Close Scope string_scope.

Lemma read_spec amt sk :
  (0 < amt)%Z ->
  exists k,
    read amt sk = (firstn k (pending sk),
                   mkSocket (skipn k (pending sk)) (tl (bursts sk)) (time sk) (time_calls sk))
    /\ 1 <= k /\ (Z.of_nat k <= amt)%Z.
Proof.
  intros Hamt. unfold read.
  assert (H0 : (amt <? 0)%Z = false) by (apply Z.ltb_ge; lia). rewrite H0.
  eexists. split; [reflexivity|]. destruct (bursts sk); lia.
Qed.

Lemma read_empty amt sk : pending sk = [] -> fst (read amt sk) = [].
Proof.
  intros Hp. unfold read. destruct (amt <? 0)%Z; cbn; rewrite Hp; [done|].
  by rewrite firstn_nil.
Qed.

Lemma concat_snoc (chunks : list (list Byte.byte)) chunk :
  concat (chunks ++ [chunk]) = concat chunks ++ chunk.
Proof. rewrite concat_app. cbn. by rewrite app_nil_r. Qed.


(** The loop when nothing stops it: it reads to the end of the body. *)
Lemma read_loop_whole req chunk_size :
  (0 < chunk_size)%Z ->
  forall fuel (chunks : list (list Byte.byte)) (sk : Socket) (bytes_read : Z),
  in_time req sk ->
  (truthy_int (config_body_maxsize req) = true ->
   (bytes_read + Z.of_nat (length (pending sk))
    <= default 0%Z (config_body_maxsize req))%Z) ->
  length (pending sk) < fuel ->
  exists chunks' sk',
    read_loop fuel req chunk_size bytes_read chunks sk = Some (Ok chunks', sk')
    /\ concat chunks' = concat chunks ++ pending sk
    /\ pending sk' = [].
Proof.
  intros Hcs. induction fuel as [|fuel IH]; intros chunks sk bytes_read Htime Hcap Hfuel;
    [lia|].
  cbn [read_loop].
  destruct (read_spec chunk_size sk Hcs) as (k & -> & Hk1 & Hk2).
  destruct (firstn k (pending sk)) as [|b0 chunk0] eqn:Echunk.
  { assert (Hp : pending sk = []).
    { destruct (pending sk) as [|p ps]; [done|]. destruct k; [lia|done]. }
    eexists _, _. split; [reflexivity|]. cbn [pending].
    rewrite Hp, skipn_nil. by rewrite app_nil_r. }
  set (chunk := b0 :: chunk0) in *.
  assert (Hsplit : chunk ++ skipn k (pending sk) = pending sk).
  { rewrite <- Echunk. apply firstn_skipn. }
  assert (Hlenp : length (pending sk) = length chunk + length (skipn k (pending sk))).
  { rewrite <- Hsplit at 1. by rewrite length_app. }
  assert (Hover : truthy_int (config_body_maxsize req)
                  && (default 0%Z (config_body_maxsize req)
                      <? bytes_read + Z.of_nat (length chunk))%Z = false).
  { destruct (truthy_int (config_body_maxsize req)); [|done]. cbn [andb].
    apply Z.ltb_ge. specialize (Hcap eq_refl). lia. }
  rewrite Hover.
  assert (Hnext : forall sk2, pending sk2 = skipn k (pending sk) -> in_time req sk2 ->
            exists chunks' sk',
              read_loop fuel req chunk_size (bytes_read + Z.of_nat (length chunk))
                (chunks ++ [chunk]) sk2 = Some (Ok chunks', sk')
              /\ concat chunks' = concat chunks ++ pending sk
              /\ pending sk' = []).
  { intros sk2 Hp2 Ht2.
    destruct (IH (chunks ++ [chunk]) sk2 (bytes_read + Z.of_nat (length chunk))%Z)
      as (chunks' & sk' & Hrun & Hcat & Hend); [done| |rewrite Hp2; cbn in *; lia|].
    { intros Ht. specialize (Hcap Ht). rewrite Hp2. lia. }
    exists chunks', sk'. split; [done|]. split; [|done].
    rewrite Hcat, concat_snoc, Hp2, <- app_assoc. by rewrite Hsplit. }
  destruct (truthy_int (timeout req)) eqn:Et.
  - unfold time_time. cbn [time time_calls pending bursts].
    assert (Hok : (default 0%Z (timeout req) <? time sk (time_calls sk) - op_started req)%Z
                  = false).
    { apply Z.ltb_ge. by apply Htime. }
    rewrite Hok. by apply Hnext.
  - by apply Hnext.
Qed.

Lemma chunk_size_positive (maxsize : option Z) :
  (forall K, maxsize = Some K -> (0 <= K)%Z) ->
  (0 < (if truthy_int maxsize then Z.min 10000 (default 0%Z maxsize + 1) else 10000))%Z.
Proof.
  intros HK. destruct maxsize as [K|]; cbn; [|lia].
  specialize (HK K eq_refl). destruct (K =? 0)%Z; cbn; lia.
Qed.

(** X1: when the body is to be read ([nobody] is off), the total timeout
    does not expire, and the size cap is unset, zero, or at least the
    length of what the server sends, [read_with_timeout] returns the whole
    body, whatever the sizes in which the bytes arrive, and leaves nothing
    unread. *)
Theorem body_within_cap_is_whole (req : Request) (sk : Socket) :
  config_nobody req = false ->
  (config_body_maxsize req = None \/ config_body_maxsize req = Some 0%Z
   \/ exists K, config_body_maxsize req = Some K
                /\ (Z.of_nat (length (pending sk)) <= K)%Z) ->
  in_time req sk ->
  exists sk',
    read_with_timeout req sk = Some (Ok (pending sk), sk') /\ pending sk' = [].
Proof.
  intros Hnobody Hmax Htime. unfold read_with_timeout. rewrite Hnobody.
  assert (Hpos : forall K, config_body_maxsize req = Some K -> (0 <= K)%Z).
  { intros K HK. destruct Hmax as [H|[H|(K' & H & HK')]]; rewrite H in HK.
    - discriminate.
    - injection HK as <-. lia.
    - injection HK as <-. lia. }
  destruct (read_loop_whole req _ (chunk_size_positive _ Hpos)
              (S (length (pending sk))) [] sk 0%Z Htime)
    as (chunks' & sk' & Hrun & Hcat & Hend).
  { intros Ht. destruct Hmax as [H|[H|(K & H & HK)]]; rewrite H in Ht |- *;
      cbn in Ht |- *; try discriminate. lia. }
  { lia. }
  cbn zeta. rewrite Hrun. exists sk'. split; [|done]. cbn in Hcat.
  f_equal. f_equal. rewrite Hcat.
  destruct Hmax as [H|[H|(K & H & HK)]]; rewrite H; cbn; try done.
  destruct (K =? 0)%Z eqn:EK; cbn; [done|]. unfold slice_to.
  assert (H0 : (0 <=? K)%Z = true) by (apply Z.leb_le; lia). rewrite H0.
  f_equal. apply firstn_all2. lia.
Qed.


(** X3: the total timeout, with no size cap: when the time since the
    request started exceeds the timeout at the first reading of the clock,
    a body that has bytes is abandoned with [GrabTimeoutError] after one
    chunk (at most 10000 bytes) has been read; an empty body is returned
    whatever the clock. *)
Theorem slow_response_times_out (req : Request) (sk : Socket) (T : Z) :
  config_nobody req = false ->
  truthy_int (config_body_maxsize req) = false ->
  timeout req = Some T -> T <> 0%Z ->
  (T < time sk (time_calls sk) - op_started req)%Z ->
  (pending sk = [] -> exists sk', read_with_timeout req sk = Some (Ok [], sk'))
  /\ (pending sk <> [] ->
      exists sk' r,
        read_with_timeout req sk = Some (Raise (GrabError GrabTimeoutError), sk')
        /\ pending sk' = skipn r (pending sk)
        /\ (1 <= Z.of_nat r <= 10000)%Z).
Proof.
  intros Hnobody Hmax Ht HT Hlate. unfold read_with_timeout.
  rewrite Hnobody, Hmax. cbn zeta. cbn [read_loop].
  destruct (read_spec 10000 sk ltac:(lia)) as (k & -> & Hk1 & Hk2).
  split.
  - intros Hp. rewrite Hp, firstn_nil. eexists. reflexivity.
  - intros Hp. destruct (pending sk) as [|b0 ps] eqn:Ep; [done|].
    destruct k as [|k]; [lia|]. cbn [firstn]. rewrite Hmax. cbn [andb].
    rewrite Ht. cbn [truthy_int].
    assert (HT0 : negb (T =? 0)%Z = true) by (apply negb_true_iff, Z.eqb_neq; lia).
    rewrite HT0. unfold time_time. cbn [time time_calls pending bursts default from_option id].
    assert (Hexp : (T <? time sk (time_calls sk) - op_started req)%Z = true)
      by by apply Z.ltb_lt.
    rewrite Hexp. eexists _, (S k). split; [reflexivity|]. cbn [pending].
    split; [done|lia].
Qed.

Lemma body_within_cap_is_whole_witness :
  let req := mkRequest "http://www.example.com/"%string "GET"%string None None
               None None [] None 0 None None false (Some 5%Z) None in
  let body := [Byte.x61; Byte.x62; Byte.x63] in
  let sk := mkSocket body [2; 1] (fun _ => 0%Z) 0 in
  exists sk', read_with_timeout req sk = Some (Ok body, sk') /\ pending sk' = [].
Proof.
  intros req body sk.
  apply (body_within_cap_is_whole req sk).
  - reflexivity.
  - right. right. exists 5%Z. split; [reflexivity|]. simpl. lia.
  - intros Ht. discriminate Ht.
Defined.


Lemma slow_response_times_out_witness :
  let req := mkRequest "http://www.example.com/"%string "GET"%string None None
               None None [] None 0 (Some 5%Z) None false None None in
  let body := [Byte.x61; Byte.x62; Byte.x63] in
  let sk := mkSocket body [2; 1] (fun _ => 9%Z) 0 in
  exists sk' r,
    read_with_timeout req sk = Some (Raise (GrabError GrabTimeoutError), sk')
    /\ pending sk' = skipn r body
    /\ (1 <= Z.of_nat r <= 10000)%Z.
Proof.
  intros req body sk.
  apply (slow_response_times_out req sk 5).
  - reflexivity.
  - reflexivity.
  - reflexivity.
  - lia.
  - simpl. lia.
  - discriminate.
Defined.

End Urllib3TransportMore.
(** ** [Urllib3Transport.process_cookie_options] *)

Module CookieStepFacts.
Import CookieManager Urllib3TransportCookies.

Section cookie_step.
Context `{Platform}.

Lemma cookie_file_step_skipped s file :
  no_cookie_file (heap s) file ->
  (if truthy (heap s) file then
     match file with
     | VStr path =>
         match load_cookie_file path with
         | Some cs =>
             update_self (fun g => set_cookies (CookieManager.load_from_file cs (cookies g)) g)
         | None => mret tt
         end
     | _ => raise TypeError
     end
   else mret tt) s = (Ok tt, s).
Proof.
  intros [Hf|(path & -> & Hload)].
  - by rewrite Hf.
  - rewrite Hload. by destruct (truthy (heap s) (VStr path)).
Qed.

(** X4: when no cookie file is loaded and the url of the request has no
    host, [process_cookie_options] stores none of the cookies of the
    [cookies] option, whatever that option holds: the session is as it
    was, and the result is the [Cookie] header that the jar gives for the
    url ([None] when it is empty). *)
Theorem no_host_no_configured_cookies (s : state) (d : dict) (file : val)
    (u : string) (hdrs : dict) :
  cfg_is s d ->
  od_get "cookiefile" d = Some file -> no_cookie_file (heap s) file ->
  urlsplit_hostname u = None \/ urlsplit_hostname u = Some "" ->
  process_cookie_options u hdrs s
  = (Ok (match get_cookie_header u hdrs (utcnow s) (cookies (self s)) with
         | Some hdr => if String.eqb hdr "" then None else Some hdr
         | None => None
         end), s).
Proof.
  intros Hd Hfile Hno Hhost. unfold process_cookie_options.
  rewrite (bind_ok _ _ _ _ _ (config_getitem_ok _ _ _ _ Hd Hfile)).
  rewrite (bind_ok _ _ _ _ _ (is_true_ok _ _)).
  rewrite (bind_ok _ _ _ _ _ (cookie_file_step_skipped _ _ Hno)).
  rewrite (bind_ok _ _ s tt s) by (destruct Hhost as [-> | ->]; done).
  munfold. by destruct (get_cookie_header _ _ _ _) as [hdr|]; [destruct (String.eqb hdr "")|].
Qed.

(** X5: when the url of the request has a host, a [cookies] option that
    is truthy and is not a dict is refused with [GrabMisuseError]
    ([cookies option should be a dict]), and the session is as it was. *)
Theorem cookies_option_must_be_a_dict (s : state) (d : dict) (file cks : val)
    (u host : string) (hdrs : dict) :
  cfg_is s d ->
  od_get "cookiefile" d = Some file -> no_cookie_file (heap s) file ->
  urlsplit_hostname u = Some host -> host <> "" ->
  od_get "cookies" d = Some cks ->
  truthy (heap s) cks = true ->
  (forall l items, cks = VRef l -> heap s !! l <> Some (ODict items)) ->
  process_cookie_options u hdrs s
  = (Raise (GrabError (GrabMisuseError "cookies option should be a dict")), s).
Proof.
  intros Hd Hfile Hno Hhost Hne Hcks Htrue Hnd. unfold process_cookie_options.
  rewrite (bind_ok _ _ _ _ _ (config_getitem_ok _ _ _ _ Hd Hfile)).
  rewrite (bind_ok _ _ _ _ _ (is_true_ok _ _)).
  rewrite (bind_ok _ _ _ _ _ (cookie_file_step_skipped _ _ Hno)).
  erewrite bind_raise; [reflexivity|].
  rewrite Hhost. apply String.eqb_neq in Hne. rewrite Hne. cbn [negb].
  rewrite (bind_ok _ _ _ _ _ (config_getitem_ok _ _ _ _ Hd Hcks)).
  rewrite (bind_ok _ _ _ _ _ (is_true_ok _ _)). rewrite Htrue.
  destruct cks as [| | | | |l]; try reflexivity.
  cbn in Htrue. unfold load, bind.
  destruct (heap s !! l) as [[items|vs]|] eqn:El; [|reflexivity|discriminate].
  by destruct (Hnd l items eq_refl).
Qed.

End cookie_step.

Lemma no_host_no_configured_cookies_witness :
  @process_cookie_options reference_platform "/next" [] cookie_session
  = (Ok (match @get_cookie_header reference_platform "/next" []
                 (utcnow cookie_session) (cookies (self cookie_session)) with
         | Some hdr => if String.eqb hdr "" then None else Some hdr
         | None => None
         end), cookie_session).
Proof.
  apply (@no_host_no_configured_cookies reference_platform cookie_session
           [("cookiefile", VNone); ("cookies", VRef 1)] VNone "/next" []).
  - reflexivity.
  - reflexivity.
  - left. reflexivity.
  - left. reflexivity.
Defined.

Lemma cookies_option_must_be_a_dict_witness :
  let s := mkState [ODict [("cookiefile", VNone); ("cookies", VStr "a=1")]]
             (mkGrab 0 [] None None [] (mkTransport None false)) [] [] [] 0 [] in
  @process_cookie_options reference_platform "http://www.example.com/" [] s
  = (Raise (GrabError (GrabMisuseError "cookies option should be a dict")), s).
Proof.
  intros s.
  apply (@cookies_option_must_be_a_dict reference_platform s
           [("cookiefile", VNone); ("cookies", VStr "a=1")] VNone (VStr "a=1")
           "http://www.example.com/" "www.example.com" []).
  - reflexivity.
  - reflexivity.
  - left. reflexivity.
  - reflexivity.
  - discriminate.
  - reflexivity.
  - reflexivity.
  - intros l items Hl. discriminate Hl.
Defined.

End CookieStepFacts.
(** ** [Grab.request]: responses and errors *)

Section engine_more.
Context `{Library}.

(** X6: with an empty proxy pool, a call [request(url)] whose first
    response is not a redirect to follow ([follow_location] is [False], or
    the response is not a redirect with a location) sends one request, to
    the url resolved against the configured one, and returns that
    response, stamped with the time, as the document of the session; the
    rest of what the wire holds is not consumed. *)
Theorem response_not_followed (fuel : nat) (s : state) (d : dict) (u : string)
    (d1 : Document) (rest : list reply) (b : bool) :
  cfg_is s d -> complete d ->
  (forall v, od_get "url" d = Some v -> is_url v) ->
  od_get "follow_location" d = Some (VBool b) ->
  proxylist (self s) = [] ->
  wire s = Responds d1 :: rest ->
  b = false \/ location_of d1 = None ->
  exists s' first,
    request (S fuel) (Some u) [] s = (Ok (Some (set_timestamp (utcnow s) d1)), s')
    /\ sent s' = (sent s ++ [first])%list
    /\ req_url first = resolved_url d (VStr u)
    /\ doc (self s') = Some (set_timestamp (utcnow s) d1)
    /\ wire s' = rest.
Proof.
  intros Hd Hc Hu Hf Hpl Hw Hterm.
  destruct (complete_get d "url" Hc) as [vu Hvu]; [simpl; tauto|].
  set (d0 := first_config d [("url", VStr u)]).
  assert (Hprep : prepare_request [("url", VStr u)] s
            = (Ok tt, prepared s d0 (Responds d1) rest)).
  { apply prepare_request_ok; try done.
    - intros k [<-|[]]. cbn. unfold od_mem. by rewrite Hvu.
    - by intros v [= <-]. }
  rewrite (request_unfold (S fuel) (Some u) [] s _ Hprep).
  destruct (prepared_facts s d d0 (Responds d1) rest Hd)
    as (Hd1 & Hpl1 & Ht1 & Hw1 & Hs1 & Hnow1 & _).
  set (s1 := prepared _ _ _ _) in *.
  assert (Hc0 : complete d0) by by apply url_config_complete.
  eexists _, (descriptor (heap s1) d0). split.
  { erewrite loop_terminal; [|exact Hd1|exact Hc0|exact Ht1| |].
    - by rewrite Hnow1.
    - unfold d0. rewrite url_config_get by done. exact Hf.
    - cbn [truthy]. destruct Hterm as [-> | ->]; [done|by destruct b]. }
  cbn [sent after_response dispatched set_self set_heap set_netlog set_sent
       self doc wire netlog utcnow].
  split; [by rewrite Hs1|]. split.
  { unfold descriptor. cbn [req_url]. unfold d0. by rewrite url_config_url. }
  split; [by rewrite Hnow1|exact Hw1].
Qed.

Lemma process_request_result_raises s d req e :
  cfg_is s d -> complete d ->
  transport (self s) = mkTransport (Some (req, ResponseRaises e)) true ->
  process_request_result s
  = (Raise e, set_heap (<[config (self s) := ODict (cleared d)]> (heap s)) s).
Proof.
  intros Hd Hc Ht. unfold process_request_result.
  rewrite (bind_ok _ _ s (utcnow s) s) by done.
  mstep reset_temporary_options_ok.
  erewrite bind_raise; [reflexivity|].
  unfold transport_prepare_response. munfold. cbn. by rewrite Ht.
Qed.

(** X7: when the request was sent and building the response raises [e],
    the call leaves with [e] as [wrap_transport_error] classifies it (a
    urllib3 timeout becomes [GrabTimeoutError], and so on); the one-shot
    options [post], [multipart_post] and [method] are cleared all the
    same, one request was sent, and there is no retry. *)
Theorem response_error_is_classified (fuel : nat) (count : Z) (s : state)
    (d : dict) (req : Descriptor) (e : exn) :
  cfg_is s d -> complete d ->
  t_request (transport (self s)) = Some (req, ResponseRaises e) ->
  exists s',
    request_loop (S fuel) count s = (Raise (reclassify e), s')
    /\ cfg_is s' (cleared d) /\ one_shot_cleared (cleared d)
    /\ sent s' = (sent s ++ [req])%list
    /\ wire s' = wire s.
Proof.
  intros Hd Hc Ht. cbn [request_loop].
  eexists. split.
  { mstep log_request_ok.
    erewrite bind_ok by (eapply try_transport_request_ok; [exact Ht|done]).
    cbn beta. erewrite bind_raise; [reflexivity|].
    unfold wrap_transport_error.
    erewrite process_request_result_raises; [reflexivity|exact Hd|exact Hc|].
    reflexivity. }
  split; [unfold cfg_is in *; cbn; eauto using heap_insert_same|].
  split; [apply cleared_one_shot|]. done.
Qed.

(** X8: when [transport.request] leaves with an error that is not a
    [GrabError], that error leaves the call as it is, and the session and
    its config are as they were before the attempt: the one-shot options
    are not cleared on this path. *)
Theorem unclassified_error_keeps_payload (fuel : nat) (count : Z) (s : state)
    (d : dict) (req : Descriptor) (e : exn) :
  cfg_is s d -> complete d ->
  t_request (transport (self s)) = Some (req, RequestRaises e) ->
  (forall ge, request_error e <> GrabError ge) ->
  exists s',
    request_loop (S fuel) count s = (Raise e, s')
    /\ heap s' = heap s /\ self s' = self s
    /\ sent s' = (sent s ++ [req])%list
    /\ wire s' = wire s.
Proof.
  intros Hd Hc Ht He. cbn [request_loop].
  assert (Hee : request_error e = e).
  { destruct e as [ge|[]| | | | |]; try done; by destruct (He _ eq_refl). }
  eexists. split.
  { mstep log_request_ok. erewrite bind_raise; [reflexivity|].
    unfold try_transport_request.
    erewrite transport_request_raises by exact Ht.
    rewrite Hee. destruct e as [ge|ue| | | | |]; try reflexivity.
    by destruct (He ge). }
  done.
Qed.

End engine_more.

Lemma response_not_followed_witness :
  let s := set_wire [Responds example_page] (@fresh_session reference_library) in
  exists s' first,
    @request reference_library 1 (Some "http://www.example.com/") [] s
    = (Ok (Some (set_timestamp (utcnow s) example_page)), s')
    /\ sent s' = (sent s ++ [first])%list
    /\ req_url first = VStr "http://www.example.com/"
    /\ doc (self s') = Some (set_timestamp (utcnow s) example_page)
    /\ wire s' = [].
Proof.
  intros s.
  edestruct (@response_not_followed reference_library 0 s (config_of s)
               "http://www.example.com/" example_page [] true)
    as (s' & first & Hrun & Hsent & Hurl & Hdoc & Hwire).
  - reflexivity.
  - apply completeb_complete. reflexivity.
  - intros v [= <-]. exact I.
  - reflexivity.
  - reflexivity.
  - reflexivity.
  - right. reflexivity.
  - exists s', first. split; [exact Hrun|]. split; [exact Hsent|].
    split; [exact Hurl|]. split; [exact Hdoc|exact Hwire].
Defined.

Lemma response_error_is_classified_witness :
  let e := Urllib3Error ReadTimeoutError in
  let s := @with_prepared reference_library
             [("url", VStr "http://www.example.com/"); ("post", VStr "a=1")]
             (set_wire [ResponseRaises e] (@fresh_session reference_library)) in
  exists s' d req,
    @request_loop reference_library 1 0 s
    = (Raise (GrabError (GrabTimeoutError)), s')
    /\ cfg_is s' (cleared d) /\ one_shot_cleared (cleared d)
    /\ sent s' = (sent s ++ [req])%list
    /\ wire s' = wire s.
Proof.
  intros e s.
  edestruct (@response_error_is_classified reference_library 0 0%Z s
               (config_of s)
               (@descriptor reference_library (heap s) (config_of s)) e)
    as (s' & Hrun & Hrest).
  - reflexivity.
  - apply completeb_complete. reflexivity.
  - reflexivity.
  - exists s'. eexists _, _. split; [exact Hrun|exact Hrest].
Defined.

Lemma unclassified_error_keeps_payload_witness :
  let e := KeyError "charset" in
  let s := @with_prepared reference_library
             [("url", VStr "http://www.example.com/"); ("post", VStr "a=1")]
             (set_wire [RequestRaises e] (@fresh_session reference_library)) in
  exists s' req,
    @request_loop reference_library 1 0 s = (Raise e, s')
    /\ heap s' = heap s /\ self s' = self s
    /\ sent s' = (sent s ++ [req])%list
    /\ wire s' = wire s.
Proof.
  intros e s.
  edestruct (@unclassified_error_keeps_payload reference_library 0 0%Z s
               (config_of s)
               (@descriptor reference_library (heap s) (config_of s)) e)
    as (s' & Hrun & Hrest).
  - reflexivity.
  - apply completeb_complete. reflexivity.
  - reflexivity.
  - intros ge. discriminate.
  - exists s'. eexists. split; [exact Hrun|exact Hrest].
Defined.

(** ** [Grab.setup] and [Grab.request]: what is written *)

Section engine_frame.
Context `{Library}.



Lemma od_keys_update_known (kw d : dict) :
  (forall k, In k (od_keys kw) -> od_mem k d = true) ->
  od_keys (od_update kw d) = od_keys d.
Proof.
  unfold od_update. revert d. induction kw as [|[k v] kw IH]; intros d Hk; [done|].
  cbn [fold_left fst snd]. rewrite IH.
  - apply od_keys_set_mem. apply Hk. by left.
  - intros k' Hin. rewrite od_mem_set. apply orb_true_iff. right. apply Hk. by right.
Qed.

Lemma for_each_inv_ok {A} (xs : list A) (f : A -> M unit) s s' :
  (forall x, readonly (f x)) ->
  for_each xs f s = (Ok tt, s') ->
  s' = s /\ forall x, In x xs -> f x s = (Ok tt, s).
Proof.
  intros Hro. induction xs as [|x xs IH]; cbn [for_each].
  - intros [= <-]. split; [done|]. intros x [].
  - intros Hr. apply bind_inv_ok in Hr as ([] & s1 & H1 & Hr).
    pose proof (Hro x _ _ _ H1) as ->. destruct (IH Hr) as [-> Hall].
    split; [done|]. intros y [<-|Hy]; [done|by apply Hall].
Qed.

(** A [setup] that succeeds has found every key in the config. *)
Lemma setup_validates kwargs s s' d :
  setup kwargs s = (Ok tt, s') -> cfg_is s d ->
  forall k, In k (od_keys kwargs) -> od_mem k d = true.
Proof.
  unfold setup. intros Hs Hd.
  apply bind_inv_ok in Hs as (g & s0 & [= <- <-] & Hs).
  apply bind_inv_ok in Hs as ([] & s1 & H1 & _).
  apply for_each_inv_ok in H1 as [_ Hall].
  2:{ intros k. apply readonly_bind; [apply readonly_load_dict|]. intros d0.
      destruct (negb (od_mem k d0)); [apply readonly_raise|apply readonly_ret]. }
  intros k Hk. specialize (Hall k Hk). cbn beta in Hall.
  rewrite (bind_ok _ _ _ _ _ (load_dict_ok _ _ _ Hd)) in Hall.
  by destruct (od_mem k d).
Qed.

(** X9: whatever the error with which [setup] leaves (an unknown option,
    a missing config, a url that cannot be joined), the whole state, the
    config included, is as it was before the call. *)
Theorem setup_raise_is_atomic (kwargs : dict) (s s' : state) (e : exn) :
  setup kwargs s = (Raise e, s') -> s' = s.
Proof.
  unfold setup. intros Hs.
  apply bind_inv in Hs as [(g & s0 & [= <- <-] & Hs)|(e0 & [=] & _)].
  apply bind_inv in Hs as [([] & s1 & H1 & Hs)|(e0 & H1 & _)]; cycle 1.
  { revert H1. apply readonly_for_each. intros k.
    apply readonly_bind; [apply readonly_load_dict|]. intros d0.
    destruct (negb (od_mem k d0)); [apply readonly_raise|apply readonly_ret]. }
  assert (s1 = s) as ->.
  { revert H1. apply readonly_for_each. intros k.
    apply readonly_bind; [apply readonly_load_dict|]. intros d0.
    destruct (negb (od_mem k d0)); [apply readonly_raise|apply readonly_ret]. }
  assert (Hro : readonly
            (match od_get "url" kwargs with
             | Some u =>
                 cfg_url ← config_get "url";
                 has_url ← is_true cfg_url;
                 if has_url then
                   u' ← make_url_absolute u false;
                   mret (od_set "url" u' kwargs)
                 else mret kwargs
             | None => mret kwargs
             end)).
  { destruct (od_get "url" kwargs); [|apply readonly_ret].
    apply readonly_bind; [apply readonly_config_get|]. intros cu.
    apply readonly_bind; [apply readonly_is_true|]. intros [|]; [|apply readonly_ret].
    apply readonly_bind; [apply readonly_make_url_absolute|]. intros u'.
    apply readonly_ret. }
  apply bind_inv in Hs as [(kw' & s2 & H2 & Hs)|(e0 & H2 & _)]; cycle 1.
  { by apply Hro in H2. }
  apply Hro in H2 as ->.
  apply bind_inv in Hs as [(d & s3 & H3 & Hs)|(e0 & H3 & _)]; cycle 1.
  { by apply readonly_load_dict in H3. }
  discriminate Hs.
Qed.

Lemma setup_writes_config (kwargs d : dict) (s s' : state) :
  setup kwargs s = (Ok tt, s') -> cfg_is s d ->
  exists d',
    s' = set_heap (<[config (self s) := ODict d']> (heap s)) s
    /\ od_keys d' = od_keys d
    /\ forall k, ~ In k (od_keys kwargs) -> od_get k d' = od_get k d.
Proof.
  intros Hs Hd. pose proof (setup_validates _ _ _ _ Hs Hd) as Hknown.
  apply setup_inv in Hs as (d0 & kw' & Hd0 & Hk & ->).
  unfold cfg_is in *. rewrite Hd in Hd0. injection Hd0 as <-.
  exists (od_update kw' d). split; [done|]. split.
  - apply od_keys_update_known. by rewrite Hk.
  - intros k Hn. apply od_get_update_notin. by rewrite Hk.
Qed.

(** X10: a [setup] that returns writes the config dict and nothing else;
    the dict has the keys it had, in the same order (no option is ever
    added), and the values it had under the keys that were not given. *)
Theorem setup_keeps_keys (kwargs d : dict) (s s' : state) :
  setup kwargs s = (Ok tt, s') -> cfg_is s d ->
  exists d',
    s' = set_heap (<[config (self s) := ODict d']> (heap s)) s
    /\ od_keys d' = od_keys d
    /\ forall k, ~ In k (od_keys kwargs) -> od_get k d' = od_get k d.
Proof. apply setup_writes_config. Qed.














End engine_frame.

Lemma setup_raise_is_atomic_witness :
  let s := @fresh_session reference_library in
  snd (@setup reference_library [("timeout", VInt 5); ("bogus", VNone)] s) = s.
Proof.
  intros s.
  apply (@setup_raise_is_atomic reference_library
           [("timeout", VInt 5); ("bogus", VNone)] s _
           (GrabError (GrabMisuseError "Unknown option: bogus"))).
  vm_compute. reflexivity.
Defined.

Lemma setup_keeps_keys_witness :
  let s := @fresh_session reference_library in
  let s' := snd (@setup reference_library [("timeout", VInt 5)] s) in
  exists d',
    s' = set_heap (<[config (self s) := ODict d']> (heap s)) s
    /\ od_keys d' = od_keys (config_of s)
    /\ forall k, ~ In k ["timeout"] -> od_get k d' = od_get k (config_of s).
Proof.
  intros s s'.
  apply (@setup_keeps_keys reference_library [("timeout", VInt 5)]
           (config_of s) s s').
  - vm_compute. reflexivity.
  - reflexivity.
Defined.



(** ** [Grab.request]: which errors leave it *)

Section engine_errors.
Context `{Library}.

Lemma reclassify_classified e : classified (reclassify e).
Proof. unfold classified. by destruct e as [ge|[]| | | | |]. Qed.

Lemma tame_weaken {A} (P Q : exn -> Prop) (m : M A) :
  (forall e, P e -> Q e) -> tame P m -> tame Q m.
Proof. intros Hpq Hm s r s' Hw Hr. destruct (Hm s r s' Hw Hr). eauto. Qed.

Lemma tame_ret {A} P (a : A) : tame P (ret a).
Proof. intros s r s' Hw [= <- <-]. split; [done|]. intros e [=]. Qed.

Lemma tame_raise {A} (P : exn -> Prop) e : P e -> tame P (@raise state A e).
Proof. intros Hp s r s' Hw [= <- <-]. split; [done|]. by intros e0 [= <-]. Qed.

Lemma tame_bind {A B} P (m : M A) (f : A -> M B) :
  tame P m -> (forall a, tame P (f a)) -> tame P (bind m f).
Proof.
  intros Hm Hf s r s' Hw Hr.
  apply bind_inv in Hr as [(a & s1 & H1 & H2)|(e & H1 & ->)].
  - destruct (Hm _ _ _ Hw H1) as [Hw1 _]. by eapply Hf.
  - destruct (Hm _ _ _ Hw H1) as [Hw1 He]. split; [done|].
    intros e0 [= <-]. by apply He.
Qed.

Lemma tame_readonly {A} (P : exn -> Prop) (m : M A) :
  readonly m -> (forall s e s', m s = (Raise e, s') -> P e) -> tame P m.
Proof.
  intros Hro He s r s' Hw Hr. pose proof (Hro _ _ _ Hr) as ->.
  split; [done|]. intros e ->. by eapply He.
Qed.

Lemma tame_modify P (f : state -> state) :
  (forall s, wire (f s) = wire s) -> tame P (modify f).
Proof.
  intros Hf s r s' Hw [= <- <-]. split; [|intros e [=]].
  intros e. rewrite Hf. apply Hw.
Qed.

Lemma tame_update_self P f : tame P (update_self f).
Proof. by apply tame_modify. Qed.

Lemma tame_get P : tame P (@get state).
Proof. intros s r s' Hw [= <- <-]. split; [done|]. intros e [=]. Qed.

Lemma tame_get_self P : tame P get_self.
Proof. intros s r s' Hw [= <- <-]. split; [done|]. intros e [=]. Qed.

Lemma tame_load l : tame classified (load l).
Proof.
  apply tame_readonly; [apply readonly_load|]. intros s e s'. unfold load.
  destruct (heap s !! l); [done|]. by intros [= <- <-].
Qed.

Lemma tame_load_dict l : tame classified (load_dict l).
Proof.
  unfold load_dict. apply tame_bind; [apply tame_load|].
  intros [d|vs]; [apply tame_ret|by apply tame_raise].
Qed.

Lemma tame_getitem l k : tame classified (getitem l k).
Proof.
  unfold getitem. apply tame_bind; [apply tame_load_dict|]. intros d.
  destruct (od_get k d); [apply tame_ret|by apply tame_raise].
Qed.

Lemma tame_dict_get l k : tame classified (dict_get l k).
Proof.
  unfold dict_get. apply tame_bind; [apply tame_load_dict|]. intros d. apply tame_ret.
Qed.

Lemma tame_store l o : tame classified (store l o).
Proof. by apply tame_modify. Qed.

Lemma tame_setitem l k v : tame classified (setitem l k v).
Proof.
  unfold setitem. apply tame_bind; [apply tame_load_dict|]. intros d. apply tame_store.
Qed.

Lemma tame_config_getitem k : tame classified (config_getitem k).
Proof.
  unfold config_getitem. apply tame_bind; [apply tame_get_self|]. intros g.
  apply tame_getitem.
Qed.

Lemma tame_config_get k : tame classified (config_get k).
Proof.
  unfold config_get. apply tame_bind; [apply tame_get_self|]. intros g.
  apply tame_dict_get.
Qed.

Lemma tame_config_setitem k v : tame classified (config_setitem k v).
Proof.
  unfold config_setitem. apply tame_bind; [apply tame_get_self|]. intros g.
  apply tame_setitem.
Qed.

Lemma tame_is_true v : tame classified (is_true v).
Proof.
  unfold is_true. apply tame_bind; [apply tame_get|]. intros s. apply tame_ret.
Qed.

Lemma tame_for_each {A} P (xs : list A) (f : A -> M unit) :
  (forall x, tame P (f x)) -> tame P (for_each xs f).
Proof.
  intros Hf. induction xs as [|x xs IH]; [apply tame_ret|].
  cbn [for_each]. apply tame_bind; [apply Hf|]. intros _. exact IH.
Qed.

Lemma tame_py_urljoin b u : tame classified (py_urljoin b u).
Proof.
  unfold py_urljoin. apply tame_bind; [apply tame_is_true|]. intros hb.
  destruct (negb hb); [apply tame_ret|].
  apply tame_bind; [apply tame_is_true|]. intros hu.
  destruct (negb hu); [apply tame_ret|].
  destruct b, u; try (by apply tame_raise); apply tame_ret.
Qed.

Lemma tame_make_url_absolute u b : tame classified (make_url_absolute u b).
Proof.
  unfold make_url_absolute. apply tame_bind; [apply tame_config_getitem|]. intros cu.
  apply tame_bind; [apply tame_is_true|]. intros [|]; [|apply tame_ret].
  apply tame_bind; [apply tame_get_self|]. intros g.
  destruct (if b then doc g else None) as [dc|]; [|apply tame_py_urljoin].
  destruct (find_base_url (body dc)) as [base|]; [|apply tame_py_urljoin].
  destruct (negb _); apply tame_py_urljoin.
Qed.

Lemma tame_setup kwargs : tame classified (setup kwargs).
Proof.
  unfold setup. apply tame_bind; [apply tame_get_self|]. intros g.
  apply tame_bind.
  { apply tame_for_each. intros k. apply tame_bind; [apply tame_load_dict|].
    intros d. destruct (negb _); [by apply tame_raise|apply tame_ret]. }
  intros _. apply tame_bind.
  { destruct (od_get "url" kwargs); [|apply tame_ret].
    apply tame_bind; [apply tame_config_get|]. intros cu.
    apply tame_bind; [apply tame_is_true|]. intros [|]; [|apply tame_ret].
    apply tame_bind; [apply tame_make_url_absolute|]. intros u'. apply tame_ret. }
  intros kw. apply tame_bind; [apply tame_load_dict|]. intros d. apply tame_store.
Qed.

Lemma tame_reset_temporary_options : tame classified reset_temporary_options.
Proof.
  unfold reset_temporary_options.
  repeat (apply tame_bind; [apply tame_config_setitem|intros _]).
  apply tame_config_setitem.
Qed.

Lemma tame_draw : tame classified draw.
Proof.
  intros s r s' Hw. unfold draw. destruct (entropy s); intros [= <- <-];
    (split; [done|intros e [=]]).
Qed.

Lemma tame_change_proxy : tame classified change_proxy.
Proof.
  unfold change_proxy. apply tame_bind; [apply tame_get_self|]. intros g.
  destruct (proxylist g); [apply tame_ret|].
  apply tame_bind; [apply tame_draw|]. intros i.
  destruct (proxy_type _); [apply tame_setup|by apply tame_raise].
Qed.

Lemma tame_reset : tame classified reset.
Proof.
  unfold reset, transport_reset.
  apply tame_bind; [apply tame_update_self|]. intros _. apply tame_update_self.
Qed.

Lemma wire_ok_tail s r rest : wire s = r :: rest -> wire_ok s -> wire_ok (set_wire rest s).
Proof. intros Hw Hok e Hin. apply Hok. rewrite Hw. by right. Qed.

Lemma tame_transport_process_config : tame classified transport_process_config.
Proof.
  unfold transport_process_config.
  apply tame_bind; [apply tame_config_getitem|]. intros u.
  apply tame_bind; [apply tame_config_getitem|]. intros p.
  apply tame_bind; [apply tame_config_getitem|]. intros mp.
  apply tame_bind; [apply tame_get_self|]. intros g.
  apply tame_bind; [apply tame_load_dict|]. intros d.
  intros s r s' Hw Hr.
  apply bind_inv in Hr as [(s0 & s1 & [= <- <-] & Hr)|(e & [=] & _)].
  destruct (wire s) as [|r0 rest] eqn:Ew.
  { injection Hr as <- <-. split; [|intros e [=]]. intros e. cbn. rewrite Ew. by intros []. }
  assert (Hrest : wire_ok (set_wire rest s)) by by eapply wire_ok_tail.
  assert (Hhead : forall e, r0 = RejectsConfig e -> classified e).
  { intros e ->. apply Hw. rewrite Ew. by left. }
  destruct r0 as [e|e|e|dc]; revert Hr; cbv [bind modify raise update_self];
    intros [= <- <-]; (split; [done|]); intros e0 [=]; subst. by apply Hhead.
Qed.

Lemma tame_prepare_request kwargs : tame classified (prepare_request kwargs).
Proof.
  unfold prepare_request. apply tame_bind; [apply tame_reset|]. intros _.
  apply tame_bind; [destruct kwargs; [apply tame_ret|apply tame_setup]|]. intros _.
  apply tame_bind; [apply tame_get_self|]. intros g.
  apply tame_bind.
  { destruct (proxylist g); [apply tame_ret|].
    apply tame_bind; [apply tame_config_getitem|]. intros ac.
    apply tame_bind; [apply tame_is_true|]. intros [|];
      [apply tame_change_proxy|apply tame_ret]. }
  intros _. apply tame_bind; [apply tame_get_self|]. intros g'.
  apply tame_bind; [apply tame_load_dict|]. intros d.
  apply tame_bind; [apply tame_get|]. intros s0.
  apply tame_bind; [apply tame_update_self|]. intros _.
  apply tame_transport_process_config.
Qed.

Lemma tame_log_request : tame classified log_request.
Proof.
  unfold log_request.
  apply tame_bind; [apply tame_config_getitem|]. intros p.
  apply tame_bind; [apply tame_is_true|]. intros hp.
  apply tame_bind.
  { destruct hp; [|apply tame_ret].
    apply tame_bind; [apply tame_config_getitem|]. intros _.
    apply tame_bind; [apply tame_config_getitem|]. intros _. apply tame_ret. }
  intros _. apply tame_bind; [apply tame_get_self|]. intros g.
  apply tame_bind; [apply tame_config_getitem|]. intros u.
  by apply tame_modify.
Qed.

(** Whatever is raised under [wrap_transport_error] leaves classified. *)
Lemma tame_wrap {A} (m : M A) :
  tame (fun _ => True) m -> tame classified (wrap_transport_error m).
Proof.
  intros Hm s r s' Hw. unfold wrap_transport_error.
  destruct (m s) as [[a|e] s1] eqn:Em; intros [= <- <-];
    destruct (Hm _ _ _ Hw Em) as [Hw1 _]; (split; [done|]); intros e0 [=].
  subst. apply reclassify_classified.
Qed.

Lemma tame_transport_request : tame classified transport_request.
Proof.
  unfold transport_request. apply tame_bind; [apply tame_get_self|]. intros g.
  destruct (t_request (transport g)) as [[req r]|]; [|by apply tame_raise].
  apply tame_bind; [by apply tame_modify|]. intros _.
  apply tame_bind; [|intros _; apply tame_update_self].
  apply tame_wrap. destruct r as [e|e|e|dc]; try apply tame_ret.
  destruct e as [ge|[]| | | | |]; by apply tame_raise.
Qed.

Lemma tame_try_transport_request : tame classified try_transport_request.
Proof.
  intros s r s' Hw. unfold try_transport_request.
  destruct (transport_request s) as [[[]|e] s1] eqn:Et;
    destruct (tame_transport_request _ _ _ Hw Et) as [Hw1 He].
  { intros [= <- <-]. split; [done|]. intros e [=]. }
  destruct e as [ge| | | | | |]; try (intros [= <- <-]; split; [done|];
                                      intros e0 [= <-]; by apply He).
  intros Hr. eapply (tame_bind classified reset_temporary_options
                       (fun _ => raise (GrabError ge))); [| |exact Hw1|exact Hr].
  - apply tame_reset_temporary_options.
  - intros _. by apply tame_raise.
Qed.

Lemma tame_transport_prepare_response : tame (fun _ => True) transport_prepare_response.
Proof.
  unfold transport_prepare_response. apply tame_bind; [apply tame_get_self|]. intros g.
  destruct (negb _); [apply tame_ret|].
  destruct (t_request (transport g)) as [[req []]|]; try (by apply tame_raise).
  apply tame_ret.
Qed.

Lemma tame_process_request_result : tame (fun _ => True) process_request_result.
Proof.
  unfold process_request_result.
  apply tame_bind.
  { apply tame_bind; [apply tame_get|]. intros s. apply tame_ret. }
  intros now. apply tame_bind.
  { eapply tame_weaken; [|apply tame_reset_temporary_options]. done. }
  intros _. apply tame_bind; [apply tame_transport_prepare_response|]. intros d.
  apply tame_bind; [apply tame_update_self|]. intros _.
  apply tame_bind; [eapply tame_weaken; [|apply tame_config_getitem]; done|]. intros reuse.
  apply tame_bind; [eapply tame_weaken; [|apply tame_is_true]; done|]. intros b.
  destruct d as [dc|]; [|by apply tame_raise].
  apply tame_bind; [destruct b; [apply tame_update_self|apply tame_ret]|]. intros _.
  apply tame_bind; [apply tame_update_self|]. intros _. apply tame_ret.
Qed.

Lemma tame_find_redirect_url d : tame classified (find_redirect_url d).
Proof.
  unfold find_redirect_url. apply tame_bind; [apply tame_config_getitem|]. intros f.
  apply tame_bind; [apply tame_is_true|]. intros b.
  destruct (b && _); [|apply tame_ret].
  destruct (header_get _ _); [|apply tame_ret]. destruct (negb _); apply tame_ret.
Qed.

Lemma tame_exceeds c v : tame classified (exceeds c v).
Proof. destruct v; try (by apply tame_raise); apply tame_ret. Qed.

Lemma tame_request_loop fuel : forall count, tame classified (request_loop fuel count).
Proof.
  induction fuel as [|fuel IH]; intros count; [apply tame_ret|].
  cbn [request_loop].
  apply tame_bind; [apply tame_log_request|]. intros _.
  apply tame_bind; [apply tame_try_transport_request|]. intros _.
  apply tame_bind; [apply tame_wrap, tame_process_request_result|]. intros d.
  apply tame_bind; [apply tame_find_redirect_url|]. intros [loc|]; [|apply tame_ret].
  cbn zeta. apply tame_bind; [apply tame_config_getitem|]. intros limit.
  apply tame_bind; [apply tame_exceeds|]. intros [|]; [by apply tame_raise|].
  apply tame_bind; [apply tame_make_url_absolute|]. intros u.
  apply tame_bind; [apply tame_prepare_request|]. intros _. apply IH.
Qed.

(** X13: provided [process_config] itself raises none of them, none of
    the five errors that [wrap_transport_error] names (the urllib3
    [ReadTimeoutError], [ConnectTimeoutError], [ProtocolError] and
    [SSLError], and [ssl.SSLError]) ever leaves [request]: whatever the
    responses, the redirects and the errors on the way, an error that
    leaves the call is one that the wrapper lets through unchanged. *)
Theorem transport_errors_leave_classified (fuel : nat) (u : option string)
    (kwargs : dict) (s s' : state) (e : exn) :
  (forall e0, In (RejectsConfig e0) (wire s) -> reclassify e0 = e0) ->
  request fuel u kwargs s = (Raise e, s') ->
  reclassify e = e
  /\ e <> Urllib3Error ReadTimeoutError /\ e <> Urllib3Error ConnectTimeoutError
  /\ e <> Urllib3Error ProtocolError /\ e <> Urllib3Error SSLError
  /\ e <> SslSSLError.
Proof.
  intros Hw Hr.
  assert (Hc : classified e).
  { eapply (tame_bind classified (prepare_request _) (fun _ => request_loop fuel 0));
      [apply tame_prepare_request|intros _; apply tame_request_loop|exact Hw|exact Hr|done]. }
  split; [exact Hc|]. unfold classified in Hc.
  repeat split; intros ->; discriminate Hc.
Qed.

End engine_errors.

Lemma transport_errors_leave_classified_witness :
  let s := set_wire [RequestRaises (Urllib3Error ProtocolError)]
             (@fresh_session reference_library) in
  let e := GrabError (GrabConnectionError "ProtocolError") in
  fst (@request reference_library 1 (Some "http://www.example.com/") [] s)
  = Raise e
  /\ reclassify e = e
  /\ e <> Urllib3Error ReadTimeoutError /\ e <> Urllib3Error ConnectTimeoutError
  /\ e <> Urllib3Error ProtocolError /\ e <> Urllib3Error SSLError
  /\ e <> SslSSLError.
Proof.
  intros s e. split; [vm_compute; reflexivity|].
  apply (@transport_errors_leave_classified reference_library 1
           (Some "http://www.example.com/") [] s
           (snd (@request reference_library 1 (Some "http://www.example.com/")
                   [] s)) e).
  - intros e0 [Hin|[]]. discriminate Hin.
  - vm_compute. reflexivity.
Defined.

(** ** [copy_config], [Grab.load_config] and [Grab.change_proxy] *)

Section config_more.
Context `{Library}.

Lemma for_each_app {A} (xs ys : list A) (f : A -> M unit) s :
  for_each (xs ++ ys) f s = (for_each xs f;; for_each ys f) s.
Proof.
  revert s. induction xs as [|x xs IH]; intros s; [reflexivity|].
  cbn [app for_each]. unfold bind. destruct (f x s) as [[a|e] s1]; [|reflexivity].
  rewrite IH. reflexivity.
Qed.

(** X14: [copy_config] needs the four mutable options: on a config that
    has no value under one of [post], [multipart_post], [headers] and
    [cookies] (the first such, in that order) it raises [KeyError] with
    that key, and the session and every object of the store are as they
    were. *)
Theorem copy_config_needs_the_mutable_keys (c : nat) (d : dict) (s : state)
    (ks1 ks2 : list string) (k : string) :
  heap s !! c = Some (ODict d) ->
  MUTABLE_CONFIG_KEYS = (ks1 ++ k :: ks2)%list ->
  (forall key, key ∈ ks1 -> exists v, od_get key d = Some v /\ bound (heap s) v) ->
  od_get k d = None ->
  exists s',
    copy_config c s = (Raise (KeyError k), s')
    /\ steady s s'.
Proof.
  intros Hc Hks Hpresent Hmiss. rewrite copy_config_unfold, Hks.
  pose proof (lookup_lt_Some _ _ _ Hc) as Hclt.
  set (cl := length (heap s)).
  set (s0 := set_heap (heap s ++ [ODict d]) s).
  assert (H0 : copy_object c s = (Ok cl, s0)).
  { unfold copy_object. munfold. by rewrite Hc. }
  destruct (copy_keys_returns c cl d ks1 s0 d)
    as ([] & s1 & Hrun & Hs1 & Hl1 & d' & Hd' & _ & _).
  { unfold cl. lia. }
  { cbn. by apply lookup_app_l_Some. }
  { apply alloc_lookup. }
  { intros key Hkey. destruct (Hpresent key Hkey) as (v & Hv & Hb). exists v.
    split; [done|]. intros l ->. specialize (Hb l eq_refl). cbn.
    rewrite length_app. cbn. unfold cl. lia. }
  assert (Hc1 : heap s1 !! c = Some (ODict d)).
  { destruct Hl1 as [_ Hh]. rewrite Hh.
    - cbn. by apply lookup_app_l_Some.
    - cbn. rewrite length_app. lia.
    - unfold cl. lia. }
  exists s1. split.
  { rewrite (bind_ok _ _ _ _ _ H0). erewrite bind_raise; [reflexivity|].
    rewrite for_each_app. rewrite (bind_ok _ _ _ _ _ Hrun).
    cbn [for_each]. erewrite bind_raise; [reflexivity|].
    unfold copy_key. erewrite bind_raise; [reflexivity|].
    unfold getitem. rewrite (bind_ok _ _ _ _ _ (load_dict_ok _ _ _ Hc1)).
    by rewrite Hmiss. }
  split; [by rewrite Hs1|].
  eapply leaves_fresh; [apply (alloc_leaves _ (ODict d))|exact Hl1|done].
Qed.

(** X15: [load_config] on a config whose [state] has no
    [cookiejar_cookies] returns and leaves the jar of the session as it
    was; the config of the session is a new dict that holds one-level
    copies of the four mutable options and the other values as they are,
    and every object of the store is as it was. *)
Theorem load_config_without_cookies (conf : nat) (d1 items : dict) (st : nat)
    (s : state) :
  heap s !! conf = Some (ODict d1) ->
  (forall key, key ∈ MUTABLE_CONFIG_KEYS ->
     exists v, od_get key d1 = Some v /\ bound (heap s) v) ->
  od_get "state" d1 = Some (VRef st) ->
  heap s !! st = Some (ODict items) ->
  od_mem "cookiejar_cookies" items = false ->
  exists s' d',
    load_config conf s = (Ok tt, s')
    /\ cookies (self s') = cookies (self s)
    /\ config (self s') = length (heap s)
    /\ leaves (fun _ => True) (heap s) (heap s')
    /\ heap s' !! config (self s') = Some (ODict d')
    /\ (forall key, key ∉ MUTABLE_CONFIG_KEYS -> od_get key d' = od_get key d1)
    /\ (forall key v, key ∈ MUTABLE_CONFIG_KEYS -> od_get key d1 = Some v ->
          exists v', od_get key d' = Some v' /\ copied (heap s) (heap s') v v').
Proof.
  intros Hc Hks Hst Hsto Hno.
  destruct (copy_config_returns _ _ _ Hc Hks)
    as (c & s1 & Hrun & -> & Hsteady & d' & Hd' & Hout & Hin).
  pose proof Hsteady as [Hs1 Hl1].
  set (s2 := set_self (set_config (length (heap s)) (self s1)) s1).
  assert (Hc2 : heap s2 !! conf = Some (ODict d1))
    by (cbn; eapply steady_lookup; eauto).
  assert (Hst2 : heap s2 !! st = Some (ODict items))
    by (cbn; eapply steady_lookup; eauto).
  exists s2, d'. split.
  { unfold load_config. rewrite (bind_ok _ _ _ _ _ Hrun).
    rewrite (bind_ok _ _ s1 tt s2) by done.
    rewrite (bind_ok _ _ _ _ _ (getitem_ok _ _ _ _ _ Hc2 Hst)).
    rewrite (bind_ok _ _ s2 false s2); [done|].
    unfold contains_key. munfold. by rewrite Hst2, Hno. }
  split; [cbn; by rewrite Hs1|]. split; [done|]. split; [done|].
  split; [done|]. split; [done|].
  intros key v Hk Hv. destruct (Hin key v Hk Hv) as (v' & Hv' & _ & Hcp). eauto.
Qed.

(** X16: [load_config] on a config that has the four mutable options
    and no [state] option raises [KeyError] ([state]), but only after the
    session has taken the copy as its config: the config of the session is
    a new dict, not the one it had, while its jar is as it was. *)
Theorem load_config_without_state (conf : nat) (d1 : dict) (s : state) :
  heap s !! conf = Some (ODict d1) ->
  (forall key, key ∈ MUTABLE_CONFIG_KEYS ->
     exists v, od_get key d1 = Some v /\ bound (heap s) v) ->
  od_get "state" d1 = None ->
  exists s',
    load_config conf s = (Raise (KeyError "state"), s')
    /\ config (self s') = length (heap s)
    /\ config (self s') <> conf
    /\ cookies (self s') = cookies (self s).
Proof.
  intros Hc Hks Hst.
  destruct (copy_config_returns _ _ _ Hc Hks)
    as (c & s1 & Hrun & -> & Hsteady & d' & Hd' & Hout & Hin).
  pose proof Hsteady as [Hs1 Hl1].
  set (s2 := set_self (set_config (length (heap s)) (self s1)) s1).
  assert (Hc2 : heap s2 !! conf = Some (ODict d1))
    by (cbn; eapply steady_lookup; eauto).
  exists s2. split.
  { unfold load_config. rewrite (bind_ok _ _ _ _ _ Hrun).
    rewrite (bind_ok _ _ s1 tt s2) by done.
    erewrite bind_raise; [reflexivity|].
    unfold getitem. rewrite (bind_ok _ _ _ _ _ (load_dict_ok _ _ _ Hc2)).
    by rewrite Hst. }
  split; [done|]. split; [|cbn; by rewrite Hs1].
  cbn. apply lookup_lt_Some in Hc. lia.
Qed.

Lemma od_update_three (d : dict) k1 v1 k2 v2 k3 v3 :
  k1 <> k2 -> k1 <> k3 -> k2 <> k3 ->
  let d' := od_update [(k1, v1); (k2, v2); (k3, v3)] d in
  od_get k1 d' = Some v1 /\ od_get k2 d' = Some v2 /\ od_get k3 d' = Some v3
  /\ forall k, k <> k1 -> k <> k2 -> k <> k3 -> od_get k d' = od_get k d.
Proof.
  intros H12 H13 H23. cbn. repeat split.
  - rewrite !od_get_set_ne by done. apply od_get_set_eq.
  - rewrite od_get_set_ne by done. apply od_get_set_eq.
  - apply od_get_set_eq.
  - intros k Hk1 Hk2 Hk3. by rewrite !od_get_set_ne.
Qed.

(** X17: with a complete config and a pool that is not empty,
    [change_proxy] takes a server of the pool; if that server has no type
    it raises [GrabMisuseError] and the config is as it was; otherwise it
    returns with [proxy], [proxy_userpwd] and [proxy_type] set to the
    address, the credentials and the type of that server, and every other
    option as it was. *)
Theorem change_proxy_takes_a_pool_server (s : state) (d : dict) :
  cfg_is s d -> complete d ->
  (forall u, od_get "url" d = Some u -> is_url u) ->
  proxylist (self s) <> [] ->
  exists p r s',
    In p (proxylist (self s)) /\ change_proxy s = (r, s')
    /\ self s' = self s
    /\ match proxy_type p with
       | None =>
           r = Raise (GrabError (GrabMisuseError
                 "Could not use proxy without defined proxy type"))
           /\ heap s' = heap s
       | Some ty =>
           r = Ok tt
           /\ exists d', cfg_is s' d'
              /\ od_get "proxy" d' = Some (VStr (get_address p))
              /\ od_get "proxy_userpwd" d' = Some (opt_str (get_userpwd p))
              /\ od_get "proxy_type" d' = Some (VStr ty)
              /\ forall k, k <> "proxy" -> k <> "proxy_userpwd" -> k <> "proxy_type" ->
                   od_get k d' = od_get k d
       end.
Proof.
  intros Hd Hc Hu Hpl. unfold change_proxy.
  rewrite (bind_ok _ _ s (self s) s) by done.
  destruct (proxylist (self s)) as [|p0 pl] eqn:Epl; [done|].
  assert (Hdraw : exists i s1, draw s = (Ok i, s1) /\ heap s1 = heap s /\ self s1 = self s).
  { unfold draw. destruct (entropy s); eexists _, _; (split; [reflexivity|done]). }
  destruct Hdraw as (i & s1 & Hdraw & Hh1 & Hs1).
  rewrite (bind_ok _ _ _ _ _ Hdraw).
  set (p := nth (i mod length (p0 :: pl)) (p0 :: pl) p0).
  assert (Hin : In p (p0 :: pl)).
  { apply nth_In. apply Nat.mod_upper_bound. cbn. lia. }
  exists p. destruct (proxy_type p) as [ty|] eqn:Ety.
  - eexists _, _. split; [done|]. split.
    { apply setup_known.
      - unfold cfg_is in *. by rewrite Hh1, Hs1.
      - intros k Hk. apply Hc. cbn in Hk. cbn. intuition (subst; tauto).
      - intros u0 [=].
      - exact Hu. }
    cbn [self set_heap]. split; [done|]. split; [done|].
    eexists. split.
    { unfold cfg_is. cbn. apply list_lookup_insert_eq. rewrite Hh1, Hs1.
      by eapply lookup_lt_Some. }
    cbn [od_get String.eqb Ascii.eqb Bool.eqb].
    destruct (od_update_three d "proxy" (VStr (get_address p)) "proxy_userpwd"
                (opt_str (get_userpwd p)) "proxy_type" (VStr ty))
      as (H1 & H2 & H3 & H4); try done.
  - eexists _, _. split; [done|]. split; [reflexivity|]. done.
Qed.

End config_more.

Lemma copy_config_needs_the_mutable_keys_witness :
  exists s',
    copy_config 0 partial_config_session = (Raise (KeyError "multipart_post"), s')
    /\ steady partial_config_session s'.
Proof.
  apply (copy_config_needs_the_mutable_keys 0
           [("post", VNone); ("headers", VNone); ("cookies", VNone)]
           partial_config_session ["post"] ["headers"; "cookies"]
           "multipart_post").
  - reflexivity.
  - reflexivity.
  - intros key Hkey. apply list_elem_of_singleton in Hkey. subst key.
    exists VNone. split; [reflexivity|]. intros l Hl. discriminate Hl.
  - reflexivity.
Defined.

Lemma load_config_without_state_witness :
  exists s',
    load_config 0 stateless_config_session = (Raise (KeyError "state"), s')
    /\ config (self s') = 1
    /\ config (self s') <> 0
    /\ cookies (self s') = example_jar.
Proof.
  apply (load_config_without_state 0
           [("post", VNone); ("multipart_post", VNone);
            ("headers", VNone); ("cookies", VNone)] stateless_config_session).
  - reflexivity.
  - intros key Hkey. exists VNone. split.
    + apply list_elem_of_In in Hkey. simpl in Hkey.
      destruct Hkey as [<-|[<-|[<-|[<-|[]]]]]; reflexivity.
    + intros l Hl. discriminate Hl.
  - reflexivity.
Defined.

Lemma load_config_without_cookies_witness :
  let s := set_self (set_cookies example_jar (self (@fresh_session reference_library)))
             (@fresh_session reference_library) in
  exists s',
    load_config (config (self s)) s = (Ok tt, s')
    /\ cookies (self s') = example_jar
    /\ config (self s') = length (heap s).
Proof.
  intros s.
  edestruct (load_config_without_cookies (config (self s)) (config_of s) []
               (match od_get "state" (config_of s) with
                | Some (VRef l) => l
                | _ => 0
                end) s)
    as (s' & d' & Hrun & Hjar & Hcfg & _).
  - reflexivity.
  - intros key Hkey. apply list_elem_of_In in Hkey. simpl in Hkey.
    destruct Hkey as [<-|[<-|[<-|[<-|[]]]]];
      (eexists; split; [reflexivity|]); intros l Hl;
      try discriminate Hl; injection Hl as <-; vm_compute; lia.
  - reflexivity.
  - reflexivity.
  - reflexivity.
  - exists s'. split; [exact Hrun|]. split; [exact Hjar|exact Hcfg].
Defined.

Lemma change_proxy_takes_a_pool_server_witness :
  exists p r s',
    In p (proxylist (self proxy_session))
    /\ @change_proxy reference_library proxy_session = (r, s')
    /\ self s' = self proxy_session
    /\ match proxy_type p with
       | None =>
           r = Raise (GrabError (GrabMisuseError
                 "Could not use proxy without defined proxy type"))
           /\ heap s' = heap proxy_session
       | Some ty =>
           r = Ok tt
           /\ exists d', cfg_is s' d'
              /\ od_get "proxy" d' = Some (VStr (get_address p))
              /\ od_get "proxy_userpwd" d' = Some (opt_str (get_userpwd p))
              /\ od_get "proxy_type" d' = Some (VStr ty)
              /\ forall k, k <> "proxy" -> k <> "proxy_userpwd" -> k <> "proxy_type" ->
                   od_get k d' = od_get k (config_of proxy_session)
       end.
Proof.
  apply (@change_proxy_takes_a_pool_server reference_library proxy_session
           (config_of proxy_session)).
  - reflexivity.
  - apply completeb_complete. reflexivity.
  - intros u Hu. vm_compute in Hu. injection Hu as <-. exact I.
  - discriminate.
Defined.

(** ** [Grab.__init__] *)

Section session_more.
Context `{Library}.

Lemma randint_bounds a b s :
  a <= b ->
  exists q s', randint a b s = (Ok q, s')
    /\ a <= q <= b /\ heap s' = heap s /\ self s' = self s.
Proof.
  intros Hab. unfold randint, draw.
  assert (Hm : forall e, a <= a + e mod (b - a + 1) <= b).
  { intros e. pose proof (Nat.mod_upper_bound e (b - a + 1)). lia. }
  destruct (entropy s) as [|e es] eqn:E.
  - eexists _, _. split; [cbv [bind ret]; rewrite E; reflexivity|]. split; [apply Hm|done].
  - eexists _, _. split; [cbv [bind ret]; rewrite E; reflexivity|]. split; [apply Hm|done].
Qed.

(** X18: [Grab()] always returns.  The new session has an empty jar, an
    empty proxy pool, no document and a transport that holds no request;
    its config is a new dict with exactly the options of [default_config],
    in that order, each with its default, [state] being a new empty dict
    and [common_headers] a new dict of the five browser headers, whose
    three quality digits lie in 2..5, 5..9 and 5..7.  The session that
    runs and every object of the store are as they were. *)
Theorem new_session_has_the_defaults (s : state) :
  exists g s' ch st (q1 q2 q3 : nat),
    Grab_init (mkTransport None false) [] s = (Ok g, s')
    /\ g = mkGrab (config g) [] None None [] (mkTransport None false)
    /\ steady s s'
    /\ length (heap s) <= config g /\ length (heap s) <= ch /\ length (heap s) <= st
    /\ heap s' !! config g = Some (ODict (new_config ch st))
    /\ od_keys (new_config ch st) = option_names
    /\ heap s' !! st = Some (ODict [])
    /\ heap s' !! ch
       = Some (ODict
           [ ("Accept", VStr ("text/xml,application/xml,application/xhtml+xml"
                ++ ",text/html;q=0.9,text/plain;q=0.8,image/png,*/*;q=0." ++ digit q1));
             ("Accept-Language", VStr ("en-us,en;q=0." ++ digit q2));
             ("Accept-Charset", VStr ("utf-8,windows-1251;q=0.7,*;q=0." ++ digit q3));
             ("Keep-Alive", VStr "300");
             ("User-Agent", VStr generate_user_agent) ])
    /\ 2 <= q1 <= 5 /\ 5 <= q2 <= 9 /\ 5 <= q3 <= 7.
Proof.
  unfold Grab_init.
  set (h0 := ((heap s ++ [ODict []]) ++ [ODict []])%list).
  set (d0 := new_config (length (heap s)) (length (heap s ++ [ODict []])%list)).
  set (s0 := set_heap (h0 ++ [ODict d0])%list s).
  assert (E0 : default_config s = (Ok (length h0), s0)) by reflexivity.
  destruct (randint_bounds 2 5 s0 ltac:(lia)) as (q1 & s1 & H1 & Hq1 & Hh1 & Hs1).
  destruct (randint_bounds 5 9 s1 ltac:(lia)) as (q2 & s2 & H2 & Hq2 & Hh2 & Hs2).
  destruct (randint_bounds 5 7 s2 ltac:(lia)) as (q3 & s3 & H3 & Hq3 & Hh3 & Hs3).
  assert (Hheap3 : heap s3 = (h0 ++ [ODict d0])%list) by (rewrite Hh3, Hh2, Hh1; done).
  assert (Hn0 : length h0 = length (heap s) + 2).
  { unfold h0. rewrite !length_app. cbn. lia. }
  set (hdrs :=
    [ ("Accept", VStr ("text/xml,application/xml,application/xhtml+xml"
         ++ ",text/html;q=0.9,text/plain;q=0.8,image/png,*/*;q=0." ++ digit q1));
      ("Accept-Language", VStr ("en-us,en;q=0." ++ digit q2));
      ("Accept-Charset", VStr ("utf-8,windows-1251;q=0.7,*;q=0." ++ digit q3));
      ("Keep-Alive", VStr "300");
      ("User-Agent", VStr generate_user_agent) ]).
  set (s4 := set_heap (heap s3 ++ [ODict hdrs])%list s3).
  assert (E4 : common_headers s0 = (Ok (length (heap s3)), s4)).
  { unfold common_headers.
    rewrite (bind_ok _ _ _ _ _ H1), (bind_ok _ _ _ _ _ H2), (bind_ok _ _ _ _ _ H3).
    reflexivity. }
  assert (Hd4 : heap s4 !! length h0 = Some (ODict d0)).
  { cbn [heap set_heap s4]. apply lookup_app_l_Some.
    rewrite Hheap3. rewrite lookup_app_r by lia. rewrite Nat.sub_diag. reflexivity. }
  eexists _, _, (length (heap s3)), (S (length (heap s))), q1, q2, q3.
  split.
  { rewrite (bind_ok _ _ _ _ _ E0), (bind_ok _ _ _ _ _ E4).
    rewrite (bind_ok _ _ _ _ _ (setitem_ok _ _ _ _ _ Hd4)).
    reflexivity. }
  cbn [config cookies doc request_method proxylist transport heap self wire sent
       netlog utcnow entropy set_heap set_self set_transport set_request_method
       fst snd].
  split; [reflexivity|].
  assert (Hself : self s3 = self s) by (rewrite Hs3, Hs2, Hs1; done).
  assert (Hn3 : length (heap s3) = length (heap s) + 3).
  { rewrite Hheap3, length_app. cbn. lia. }
  assert (Hh4 : heap s4 = (heap s ++ [ODict []; ODict []; ODict d0; ODict hdrs])%list).
  { cbn [heap set_heap s4]. rewrite Hheap3. unfold h0. by rewrite <- !app_assoc. }
  assert (Hlook : forall i o,
            [ODict []; ODict []; ODict d0; ODict hdrs] !! i = Some o ->
            heap s4 !! (length (heap s) + i) = Some o).
  { intros i o Hi. rewrite Hh4, lookup_app_r by lia.
    by replace (length (heap s) + i - length (heap s)) with i by lia. }
  rewrite Hn0, Hn3.
  split.
  { unfold steady, leaves.
    cbn [heap self set_heap set_self]. split; [done|]. split.
    - rewrite length_insert, Hh4, length_app. lia.
    - intros l Hl _. rewrite list_lookup_insert_ne by lia.
      rewrite Hh4. by apply lookup_app_l. }
  split; [lia|]. split; [lia|]. split; [lia|].
  split.
  { rewrite list_lookup_insert_eq by (rewrite Hh4, length_app; cbn [length]; lia).
    f_equal. f_equal. unfold d0.
    replace (length (heap s ++ [ODict []])%list) with (S (length (heap s)))
      by (rewrite length_app; cbn; lia).
    reflexivity. }
  split; [reflexivity|]. split.
  { rewrite list_lookup_insert_ne by lia.
    replace (S (length (heap s))) with (length (heap s) + 1) by lia. by apply Hlook. }
  split.
  { rewrite list_lookup_insert_ne by lia. by apply Hlook. }
  done.
Qed.

End session_more.

(** ** [HttpClient.request]: the order of the calls *)

Module HttpClientMore.
Import HttpClient HttpClientFacts.

Section more.
Context {E : Type}.
Implicit Types (c : client E) (tr new : list event) (d doc : Document).

Lemma in_step_app p tr1 tr2 :
  in_step p (tr1 ++ tr2) <-> in_step p tr1 /\ in_step (phase_after p tr1) tr2.
Proof.
  revert p. induction tr1 as [|ev tr1 IH]; intros p; [cbn; tauto|].
  destruct ev; cbn [in_step phase_after app]; rewrite IH; tauto.
Qed.

Lemma phase_after_app p tr1 tr2 :
  phase_after p (tr1 ++ tr2) = phase_after (phase_after p tr1) tr2.
Proof.
  revert p. induction tr1 as [|ev tr1 IH]; intros p; [done|].
  destruct ev; cbn [phase_after app]; apply IH.
Qed.

(** The [request:pre] handlers: whatever the phase, the events are in
    step, and nothing or [Idle] follows. *)
Lemma run_pre_in_step hs : forall i req c r c',
  run_pre i hs req c = (r, c') ->
  exists new, extends c c' new
    /\ (forall p, in_step p new)
    /\ (forall p, phase_after p new = p \/ phase_after p new = Idle).
Proof.
  induction hs as [|f hs IH]; intros i req c r c' Hr.
  - injection Hr as <- <-. exists []. split; [apply extends_refl|]. split; [done|by left].
  - cbn [run_pre] in Hr.
    apply bind_inv in Hr as [([] & c1 & H1 & Hr)|(e & H1 & _)]; [|done].
    apply observe_extends in H1.
    apply bind_inv in Hr as [(req1 & c2 & H2 & Hr)|(e & H2 & ->)].
    + apply call_extends in H2.
      apply IH in Hr as (new & Hext & Hin & Hph).
      exists ([EvPre i req] ++ [] ++ new)%list. split.
      { eapply extends_trans; [exact H1|]. eapply extends_trans; [exact H2|exact Hext]. }
      split; [intros p; apply Hin|]. intros p. right. cbn [app phase_after].
      destruct (Hph Idle) as [-> | ->]; done.
    + apply call_extends in H2.
      exists ([EvPre i req] ++ [])%list. split; [by eapply extends_trans|].
      split; [done|]. intros p. by right.
Qed.

Lemma run_cookies_quiet hs : forall req jar c r c',
  run_cookies hs req jar c = (r, c') -> extends c c' [].
Proof.
  induction hs as [|f hs IH]; intros req jar c r c' Hr.
  - injection Hr as <- <-. apply extends_refl.
  - cbn [run_cookies] in Hr.
    apply bind_inv in Hr as [(jar1 & c1 & H1 & Hr)|(e & H1 & _)].
    + apply call_extends in H1. apply IH in Hr.
      by apply (extends_trans _ _ _ [] [] H1 Hr).
    + by apply call_extends in H1.
Qed.

Lemma run_post_in_step hs : forall i req doc c r c',
  run_post i hs req doc c = (r, c') ->
  exists new, extends c c' new
    /\ in_step (Got doc) new /\ phase_after (Got doc) new = Got doc.
Proof.
  induction hs as [|f hs IH]; intros i req doc c r c' Hr.
  - injection Hr as <- <-. exists []. split; [apply extends_refl|done].
  - cbn [run_post] in Hr.
    apply bind_inv in Hr as [([] & c1 & H1 & Hr)|(e & H1 & _)]; [|done].
    apply observe_extends in H1.
    apply bind_inv in Hr as [([] & c2 & H2 & Hr)|(e & H2 & ->)].
    + apply call_extends in H2.
      apply IH in Hr as (new & Hext & Hin & Hph).
      exists ([EvPost i req doc] ++ [] ++ new)%list. split.
      { eapply extends_trans; [exact H1|]. eapply extends_trans; [exact H2|exact Hext]. }
      done.
    + apply call_extends in H2.
      exists ([EvPost i req doc] ++ [])%list. split; [by eapply extends_trans|done].
Qed.

Lemma any_retry_in_step hs : forall i retry req doc c r c',
  any_retry i hs retry req doc c = (r, c') ->
  exists new, extends c c' new
    /\ in_step (Got doc) new /\ phase_after (Got doc) new = Got doc.
Proof.
  induction hs as [|f hs IH]; intros i retry req doc c r c' Hr.
  - injection Hr as <- <-. exists []. split; [apply extends_refl|done].
  - cbn [any_retry] in Hr.
    apply bind_inv in Hr as [([] & c1 & H1 & Hr)|(e & H1 & _)]; [|done].
    apply observe_extends in H1.
    apply bind_inv in Hr as [(item & c2 & H2 & Hr)|(e & H2 & ->)].
    + apply call_extends in H2. destruct item as [item|].
      * apply bind_inv in Hr as [([] & c3 & H3 & Hr)|(e & H3 & _)]; [|done].
        apply observe_extends in H3. injection Hr as <- <-.
        exists ([EvRetryAsked i req doc] ++ [] ++ [EvRetrySignalled i doc])%list.
        split; [|done].
        eapply extends_trans; [exact H1|]. eapply extends_trans; [exact H2|exact H3].
      * apply IH in Hr as (new & Hext & Hin & Hph).
        exists ([EvRetryAsked i req doc] ++ [] ++ new)%list. split.
        { eapply extends_trans; [exact H1|]. eapply extends_trans; [exact H2|exact Hext]. }
        done.
    + apply call_extends in H2.
      exists ([EvRetryAsked i req doc] ++ [])%list.
      split; [by eapply extends_trans|done].
Qed.

Lemma wrap_any {A} (m : C A) c r c' :
  wrap m c = (r, c') -> exists r0, m c = (r0, c') /\ (forall a, r = Ok a -> r0 = Ok a).
Proof.
  unfold wrap. destruct (m c) as [[a|e] c1]; intros [= <- <-]; eexists; (split; [reflexivity|done]).
Qed.

Lemma process_request_result_in_step req c r c' :
  process_request_result req c = (r, c') ->
  exists new, extends c c' new
    /\ in_step Sent new
    /\ forall doc, r = Ok doc -> phase_after Sent new = Got doc.
Proof.
  unfold process_request_result. intros Hr.
  apply bind_inv in Hr as [(d & c1 & H1 & Hr)|(e & H1 & ->)]; cycle 1.
  { exists []. split; [|done]. unfold prepare_response in H1.
    apply bind_inv in H1 as [(c0 & c0' & [= <- <-] & H1)|(e0 & [=] & _)].
    destruct (pending c) as [[e1|e1|e1|d0]|]; try (injection H1 as _ <-; apply extends_refl).
    apply bind_inv in H1 as [([] & c2 & H2 & H1)|(e0 & H2 & _)]; done. }
  assert (Hprep : extends c c1 [EvResponse d]).
  { unfold prepare_response in H1.
    apply bind_inv_ok in H1 as (c0 & c0' & [= <- <-] & H1).
    destruct (pending c) as [[e|e|e|d0]|]; try done.
    apply bind_inv_ok in H1 as ([] & c2 & H2 & H1).
    apply observe_extends in H2. by injection H1 as <- <-. }
  apply bind_inv in Hr as [(h & c2 & H2 & Hr)|(e & [=] & _)].
  apply handlers_inv in H2 as [-> ->].
  apply bind_inv in Hr as [([] & c3 & H3 & Hr)|(e & H3 & ->)].
  - injection Hr as <- <-.
    apply run_post_in_step in H3 as (new & Hext & Hin & Hph).
    exists ([EvResponse d] ++ new)%list. split; [by eapply extends_trans|].
    split; [done|]. by intros doc [= <-].
  - apply run_post_in_step in H3 as (new & Hext & Hin & Hph).
    exists ([EvResponse d] ++ new)%list. split; [by eapply extends_trans|].
    split; [done|]. intros doc [=].
Qed.

Lemma transport_request_sends req jar c r c' :
  transport_request req jar c = (r, c') -> extends c c' [EvSent req jar].
Proof.
  unfold transport_request. intros Hr.
  apply bind_inv in Hr as [([] & c1 & H1 & Hr)|(e & H1 & _)]; [|done].
  apply observe_extends in H1.
  apply bind_inv in Hr as [(c0 & c0' & [= <- <-] & Hr)|(e & [=] & _)].
  assert (extends c1 c' []) as H2; [|by apply (extends_trans _ _ _ _ [] H1 H2)].
  destruct (cwire c1) as [|rp rest].
  { injection Hr as _ <-. apply extends_refl. }
  apply bind_inv in Hr as [([] & c2 & [= <-] & Hr)|(e & [=] & _)].
  assert (c' = mkClient (ext c1) (ext_handlers c1) (Some rp) rest (calls c1)) as ->
    by (destruct rp; by injection Hr).
  split; [cbn; by rewrite app_nil_r|done].
Qed.

Lemma request_loop_in_step (fuel : nat) :
  forall (retry : Retry) (req : HttpRequest) c r c',
  request_loop fuel retry req c = (r, c') ->
  exists new, extends c c' new /\ forall p, in_step p new.
Proof.
  induction fuel as [|fuel IH]; intros retry req c r c' Hr.
  { injection Hr as <- <-. exists []. split; [apply extends_refl|done]. }
  cbn [request_loop] in Hr.
  apply bind_inv in Hr as [(h & c0 & H0 & Hr)|(e & [=] & _)].
  apply handlers_inv in H0 as [-> ->].
  apply bind_inv in Hr as [(req1 & c1 & H1 & Hr)|(e & H1 & ->)]; cycle 1.
  { apply run_pre_in_step in H1 as (n1 & He1 & Hin1 & _). by exists n1. }
  apply run_pre_in_step in H1 as (n1 & He1 & Hin1 & _).
  apply bind_inv in Hr as [([] & c2 & [= <-] & Hr)|(e & [=] & _)].
  set (c2 := mkClient (ext c1) (ext_handlers c1) None (cwire c1) (calls c1)) in *.
  assert (He2 : extends c1 c2 []) by (split; [cbn; by rewrite app_nil_r|done]).
  apply bind_inv in Hr as [(jar & c3 & H3 & Hr)|(e & H3 & ->)].
  2:{ exists n1. split; [|done].
      unfold get_request_cookies in H3.
      apply bind_inv in H3 as [(h & c0 & [= <- <-] & H3)|(e0 & [=] & _)].
      apply run_cookies_quiet in H3.
      pose proof (extends_trans _ _ _ _ _ He1 (extends_trans _ _ _ _ _ He2 H3)) as Hx.
      by rewrite !app_nil_r in Hx. }
  assert (He3 : extends c2 c3 []).
  { unfold get_request_cookies in H3.
    apply bind_inv in H3 as [(h & c0 & [= <- <-] & H3)|(e0 & [=] & _)].
    by apply run_cookies_quiet in H3. }
  pose proof (extends_trans _ _ _ _ _ He1
                (extends_trans _ _ _ _ _ He2 He3)) as He13.
  cbn [app] in He13. rewrite app_nil_r in He13.
  apply bind_inv in Hr as [([] & c4 & H4 & Hr)|(e & H4 & ->)]; cycle 1.
  { apply transport_request_sends in H4.
    exists (n1 ++ [EvSent req1 jar])%list. split; [by eapply extends_trans|].
    intros p. apply in_step_app. done. }
  apply transport_request_sends in H4.
  pose proof (extends_trans _ _ _ _ _ He13 H4) as He14.
  apply bind_inv in Hr as [(d & c5 & H5 & Hr)|(e & H5 & ->)]; cycle 1.
  { apply wrap_any in H5 as (r0 & H5 & _).
    apply process_request_result_in_step in H5 as (n5 & He5 & Hin5 & _).
    exists ((n1 ++ [EvSent req1 jar]) ++ n5)%list. split; [by eapply extends_trans|].
    intros p. apply in_step_app. split; [apply in_step_app; done|].
    by rewrite phase_after_app. }
  apply wrap_any in H5 as (r0 & H5 & Hr0). rewrite (Hr0 d eq_refl) in H5.
  apply process_request_result_in_step in H5 as (n5 & He5 & Hin5 & Hph5).
  specialize (Hph5 d eq_refl).
  pose proof (extends_trans _ _ _ _ _ He14 He5) as He15.
  assert (Hin15 : forall p, in_step p ((n1 ++ [EvSent req1 jar]) ++ n5)).
  { intros p. apply in_step_app. split; [apply in_step_app; done|].
    by rewrite phase_after_app. }
  assert (Hph15 : forall p, phase_after p ((n1 ++ [EvSent req1 jar]) ++ n5) = Got d).
  { intros p. by rewrite !phase_after_app. }
  apply bind_inv in Hr as [(item & c6 & H6 & Hr)|(e & H6 & ->)]; cycle 1.
  { apply any_retry_in_step in H6 as (n6 & He6 & Hin6 & _).
    eexists. split; [by eapply extends_trans|].
    intros p. apply in_step_app. split; [done|]. by rewrite Hph15. }
  apply any_retry_in_step in H6 as (n6 & He6 & Hin6 & Hph6).
  pose proof (extends_trans _ _ _ _ _ He15 He6) as He16.
  assert (Hin16 : forall p, in_step p (((n1 ++ [EvSent req1 jar]) ++ n5) ++ n6)).
  { intros p. apply in_step_app. split; [done|]. by rewrite Hph15. }
  destruct item as [[retry' req']|].
  - apply IH in Hr as (new & Hext & Hin).
    eexists. split; [by eapply extends_trans|].
    intros p. apply in_step_app. done.
  - injection Hr as <- <-. eexists. split; [exact He16|done].
Qed.

Lemma all_init_quiet hs : forall retry c r c',
  all_init hs retry c = (r, c') -> extends c c' [].
Proof.
  induction hs as [|x hs IH]; intros retry c r c' Hr.
  - injection Hr as <- <-. apply extends_refl.
  - cbn [all_init] in Hr.
    apply bind_inv in Hr as [([ok retry1] & c1 & H1 & Hr)|(e & H1 & _)].
    + apply call_extends in H1. destruct ok.
      * apply IH in Hr. by apply (extends_trans _ _ _ [] [] H1 Hr).
      * by injection Hr as <- <-.
    + by apply call_extends in H1.
Qed.

(** X19: whatever the outcome of [request] (a document, an error of a
    handler or of the transport, at any point), what the client did is in
    step with the transport: a document is handed back only for a request
    that was sent and not yet answered, and a [response:post] or [retry]
    handler is called only on the document handed back for the request
    sent last, never before a response and never on an older document. *)
Theorem hooks_follow_the_transport (fuel : nat)
    (req : option (string + HttpRequest)) (request_kwargs : dict)
    (c c' : client E) (r : result (option Document)) :
  request fuel req request_kwargs c = (r, c') ->
  exists new, calls c' = (calls c ++ new)%list /\ in_step Idle new.
Proof.
  unfold request. intros Hr.
  apply bind_inv in Hr as [(h & c0 & H0 & Hr)|(e & [=] & _)].
  apply handlers_inv in H0 as [-> ->].
  apply bind_inv in Hr as [(retry & c1 & H1 & Hr)|(e & H1 & ->)].
  - apply all_init_quiet in H1.
    apply request_loop_in_step in Hr as (new & Hext & Hin).
    exists new. split; [|done].
    destruct (extends_trans _ _ _ _ _ H1 Hext) as [Hc _]. done.
  - apply all_init_quiet in H1. exists []. destruct H1 as [Hc _]. done.
Qed.

Lemma asked_app tr1 tr2 : asked (tr1 ++ tr2) = (asked tr1 ++ asked tr2)%list.
Proof. unfold asked. by rewrite flat_map_app. Qed.

Lemma signalled_app tr1 tr2 :
  signalled (tr1 ++ tr2) = (signalled tr1 ++ signalled tr2)%list.
Proof. unfold signalled. by rewrite flat_map_app. Qed.

(** X20: on one document the [retry] handlers are called in the order of
    their registration, each at most once, from the first on; the calls
    stop at the first handler that signals a retry (or raises), and the
    handlers after it are not called; if none signals, every handler has
    been called. *)
Theorem retry_handlers_in_order
    (hs : list (Retry -> HttpRequest -> Document
                -> ST E (option (Retry * HttpRequest))))
    (i : nat) (retry : Retry) (req : HttpRequest) (doc : Document)
    (c c' : client E) (r : result (option (Retry * HttpRequest))) :
  any_retry i hs retry req doc c = (r, c') ->
  exists k new,
    extends c c' new /\ asked new = seq i k /\ k <= length hs
    /\ match r with
       | Ok (Some _) => 0 < k /\ signalled new = [i + k - 1]
       | Ok None => k = length hs /\ signalled new = []
       | Raise _ => 0 < k /\ signalled new = []
       end.
Proof.
  revert i c. induction hs as [|f hs IH]; intros i c Hr.
  - injection Hr as <- <-. exists 0, []. split; [apply extends_refl|done].
  - cbn [any_retry] in Hr.
    apply bind_inv in Hr as [([] & c1 & H1 & Hr)|(e & H1 & _)]; [|done].
    apply observe_extends in H1.
    apply bind_inv in Hr as [(item & c2 & H2 & Hr)|(e & H2 & ->)].
    + apply call_extends in H2. destruct item as [item|].
      * apply bind_inv in Hr as [([] & c3 & H3 & Hr)|(e & H3 & _)]; [|done].
        apply observe_extends in H3. injection Hr as <- <-.
        exists 1, ([EvRetryAsked i req doc] ++ [] ++ [EvRetrySignalled i doc])%list.
        split.
        { eapply extends_trans; [exact H1|]. eapply extends_trans; [exact H2|exact H3]. }
        split; [done|]. split; [cbn; lia|]. split; [lia|].
        cbn. do 2 f_equal. lia.
      * apply IH in Hr as (k & new & Hext & Hask & Hk & Hr).
        exists (S k), ([EvRetryAsked i req doc] ++ [] ++ new)%list. split.
        { eapply extends_trans; [exact H1|]. eapply extends_trans; [exact H2|exact Hext]. }
        cbn [app].
        change (asked (EvRetryAsked i req doc :: new)) with (i :: asked new).
        change (signalled (EvRetryAsked i req doc :: new)) with (signalled new).
        split; [by rewrite Hask|]. split; [cbn; lia|].
        destruct r as [[item|]|e].
        -- destruct Hr as [Hpos Hsig]. split; [lia|].
           rewrite Hsig. do 2 f_equal. lia.
        -- destruct Hr as [-> Hsig]. done.
        -- destruct Hr as [_ Hsig]. split; [lia|done].
    + apply call_extends in H2.
      exists 1, ([EvRetryAsked i req doc] ++ [])%list.
      split; [by eapply extends_trans|]. split; [done|]. split; [cbn; lia|].
      split; [lia|done].
Qed.

End more.

Lemma hooks_follow_the_transport_witness :
  exists new,
    calls (snd (request 2 (Some (inl "http://www.example.com/")) [] failing_client))
    = (calls failing_client ++ new)%list
    /\ in_step Idle new.
Proof.
  apply (hooks_follow_the_transport 2 (Some (inl "http://www.example.com/")) []
           failing_client
           (snd (request 2 (Some (inl "http://www.example.com/")) [] failing_client))
           (fst (request 2 (Some (inl "http://www.example.com/")) [] failing_client))).
  vm_compute. reflexivity.
Defined.

Lemma retry_handlers_in_order_witness :
  exists k new,
    extends failing_client
      (snd (any_retry 0 [fun _ _ _ => mret None; example_retry; example_retry]
              (mkRetry []) (mkHttpRequest []) example_redirect failing_client))
      new
    /\ asked new = seq 0 k /\ k <= 3
    /\ 0 < k /\ signalled new = [0 + k - 1].
Proof.
  apply (retry_handlers_in_order
           [fun _ _ _ => mret None; example_retry; example_retry] 0
           (mkRetry []) (mkHttpRequest []) example_redirect failing_client
           (snd (any_retry 0 [fun _ _ _ => mret None; example_retry; example_retry]
                   (mkRetry []) (mkHttpRequest []) example_redirect failing_client))
           (Ok (Some (mkRetry [("redirect_count", 1%Z)],
                      mkHttpRequest [("url", VStr "/next")])))).
  vm_compute. reflexivity.
Defined.

End HttpClientMore.

(** ** [copy_config] of the client *)

Module GrabClientFacts.
Import GrabClient.
Local Close Scope string_scope.

Lemma bound_steady s s' v : steady s s' -> bound (heap s) v -> bound (heap s') v.
Proof. intros [_ [Hlen _]] Hb l Hl. specialize (Hb l Hl). lia. Qed.

Lemma copy_items_returns (items : dict) : forall (acc : dict) (s : state),
  NoDup (od_keys acc ++ od_keys items) ->
  Forall (fun kv => bound (heap s) (snd kv)) items ->
  returns (copy_items items acc) s (fun d' s' =>
    steady s s' /\
    exists items', d' = acc ++ items' /\ od_keys items' = od_keys items
      /\ Forall2 (fun kv kv' => copied (heap s) (heap s') (snd kv) (snd kv'))
           items items').
Proof.
  induction items as [|[x y] items IH]; intros acc s Hnd Hb.
  - apply returns_ret. split; [apply steady_refl|]. exists []. by rewrite app_nil_r.
  - cbn [copy_items]. apply List.Forall_cons_iff in Hb as [Hy Hb]. cbn [snd] in Hy.
    destruct (copy_returns y s Hy) as (y' & s1 & Hcopy & Hst1 & Hcp).
    assert (Hx : x ∉ od_keys acc).
    { apply NoDup_app in Hnd as (_ & Hdis & _). intros Hin.
      apply (Hdis x Hin). cbn. apply elem_of_cons. by left. }
    destruct (IH (od_set x y' acc) s1) as (d' & s' & Hrun & Hst & items' & -> & Hk & Hall).
    { rewrite (JarFacts.od_set_new _ _ _ Hx), JarFacts.od_keys_app. cbn.
      by rewrite <- app_assoc. }
    { eapply List.Forall_impl; [|exact Hb]. intros kv. by apply bound_steady. }
    exists (od_set x y' acc ++ items'), s'. split.
    { by rewrite (bind_ok _ _ _ _ _ Hcopy). }
    split; [by eapply steady_trans|].
    exists ((x, y') :: items'). split.
    { rewrite (JarFacts.od_set_new _ _ _ Hx). by rewrite <- app_assoc. }
    split; [unfold od_keys in *; cbn [map fst]; by rewrite Hk|].
    constructor.
    + cbn [snd]. destruct Hst as [_ Hl]. eapply copied_leaves; [exact Hl|done|exact Hcp].
    + clear -Hall Hb Hst1. induction Hall as [|kv kv' l l' Hc Hall IH']; [constructor|].
      apply List.Forall_cons_iff in Hb as [Hkv Hb]. constructor; [|by apply IH'].
      destruct Hst1 as [_ Hl1]. by eapply copied_steady.
Qed.

(** X21: [copy_config] of the client copies every value: on a dict whose
    values are in the store it always returns a new dict with the same
    keys, in the same order, whose value under each key is a one-level
    copy of the original's (the same scalar, or a new object with the same
    items); the session and every object of the store are as they were. *)
Theorem copy_config_copies_every_value (c : nat) (d : dict) (s : state) :
  heap s !! c = Some (ODict d) ->
  NoDup (od_keys d) ->
  Forall (fun kv => bound (heap s) (snd kv)) d ->
  exists c' s' d',
    copy_config c s = (Ok c', s')
    /\ steady s s'
    /\ length (heap s) <= c'
    /\ heap s' !! c' = Some (ODict d')
    /\ od_keys d' = od_keys d
    /\ Forall2 (fun kv kv' => copied (heap s) (heap s') (snd kv) (snd kv')) d d'.
Proof.
  intros Hc Hnd Hb.
  destruct (copy_items_returns d [] s Hnd Hb)
    as (d' & s1 & Hrun & Hst & items' & -> & Hk & Hall).
  exists (length (heap s1)), (set_heap (heap s1 ++ [ODict items']) s1), items'.
  split.
  { unfold copy_config, load. unfold bind at 1. rewrite Hc.
    by rewrite (bind_ok _ _ _ _ _ Hrun). }
  split; [eapply steady_trans; [exact Hst|apply alloc_steady]|].
  split; [by destruct Hst as [_ [Hlen _]]|].
  split; [apply alloc_lookup|]. split; [done|].
  eapply Forall2_impl; [exact Hall|]. intros kv kv' Hcp.
  eapply copied_leaves; [apply (alloc_leaves (fun _ => True) (ODict items'))|done|exact Hcp].
Qed.

Lemma copy_config_copies_every_value_witness :
  exists c' s' d',
    copy_config 2 client_config_session = (Ok c', s')
    /\ steady client_config_session s'
    /\ length (heap client_config_session) <= c'
    /\ heap s' !! c' = Some (ODict d')
    /\ od_keys d' = ["url"; "tags"; "timeout"; "headers"]%string
    /\ Forall2 (fun kv kv' => copied (heap client_config_session) (heap s')
                                (snd kv) (snd kv'))
         [("url", VStr "http://www.example.com/"); ("tags", VRef 0);
          ("timeout", VInt 5); ("headers", VRef 1)]%string d'.
Proof.
  apply (copy_config_copies_every_value 2
           [("url", VStr "http://www.example.com/"); ("tags", VRef 0);
            ("timeout", VInt 5); ("headers", VRef 1)]%string
           client_config_session).
  - reflexivity.
  - apply (bool_decide_unpack _). vm_compute. exact I.
  - repeat (apply List.Forall_cons;
              [intros l Hl; cbn in Hl; try discriminate Hl;
               injection Hl as <-; vm_compute; lia|]).
    apply List.Forall_nil.
Defined.

End GrabClientFacts.

(** ** [Grab.clear_cookies] *)

Module ClearCookiesFacts.
Import CookieManager Urllib3TransportCookies CookieStepFacts.

Section clear.
Context `{Platform}.

Lemma truthy_scalar h h' v : (forall l, v <> VRef l) -> truthy h' v = truthy h v.
Proof. intros Hv. destruct v as [| | | | |l]; try done. by destruct (Hv l). Qed.

(** X22: after [clear_cookies()] no cookie is sent: when no cookie file
    is loaded, the cookie step of the next request, whatever its url and
    headers, gives no [Cookie] header and leaves the jar empty; the
    [cookies] option is a new empty dict, and every other option is as it
    was. *)
Theorem cleared_cookies_are_not_sent (s : state) (d : dict) (file : val)
    (u : string) (hdrs : dict) :
  cfg_is s d ->
  od_get "cookiefile" d = Some file -> (forall l, file <> VRef l) ->
  no_cookie_file (heap s) file ->
  exists s1 s2 d1 l,
    clear_cookies s = (Ok tt, s1)
    /\ process_cookie_options u hdrs s1 = (Ok None, s2)
    /\ cookies (self s2) = []
    /\ cfg_is s2 d1 /\ od_get "cookies" d1 = Some (VRef l)
    /\ heap s2 !! l = Some (ODict [])
    /\ length (heap s) <= l
    /\ forall k, k <> "cookies" -> od_get k d1 = od_get k d.
Proof.
  intros Hd Hfile Hscalar Hno.
  pose proof (lookup_lt_Some _ _ _ Hd) as Hlt.
  set (l := length (heap s)).
  set (s0 := set_heap (heap s ++ [ODict []]) s).
  assert (Hd0 : heap s0 !! config (self s0) = Some (ODict d)).
  { cbn. by apply lookup_app_l_Some. }
  set (d1 := od_set "cookies" (VRef l) d).
  set (s1 := set_self (set_cookies [] (self s0))
               (set_heap (<[config (self s0) := ODict d1]> (heap s0)) s0)).
  assert (Hclear : clear_cookies s = (Ok tt, s1)).
  { unfold clear_cookies. rewrite (bind_ok _ _ s l s0) by done.
    rewrite (bind_ok _ _ _ _ _ (config_setitem_ok _ _ _ _ Hd0)). done. }
  assert (Hd1 : cfg_is s1 d1).
  { unfold cfg_is. cbn. apply list_lookup_insert_eq. rewrite length_app. lia. }
  assert (Hl1 : heap s1 !! l = Some (ODict [])).
  { cbn. rewrite list_lookup_insert_ne by (unfold l; lia).
    rewrite lookup_app_r by (unfold l; lia). unfold l. by rewrite Nat.sub_diag. }
  assert (Hfile1 : od_get "cookiefile" d1 = Some file).
  { unfold d1. by rewrite od_get_set_ne. }
  assert (Hck1 : od_get "cookies" d1 = Some (VRef l)) by apply od_get_set_eq.
  assert (Hno1 : no_cookie_file (heap s1) file).
  { destruct Hno as [Hf|Hp]; [left|by right].
    by rewrite (truthy_scalar (heap s)). }
  exists s1, s1, d1, l. split; [done|]. split.
  { unfold process_cookie_options.
    rewrite (bind_ok _ _ _ _ _ (config_getitem_ok _ _ _ _ Hd1 Hfile1)).
    rewrite (bind_ok _ _ _ _ _ (is_true_ok _ _)).
    rewrite (bind_ok _ _ _ _ _ (cookie_file_step_skipped _ _ Hno1)).
    rewrite (bind_ok _ _ s1 tt s1).
    - munfold. unfold get_cookie_header. cbn [cookies self s1 set_self set_cookies].
      by destruct (od_mem "Cookie" hdrs).
    - destruct (urlsplit_hostname u) as [host|]; [|done].
      destruct (negb (String.eqb host "")); [|done].
      rewrite (bind_ok _ _ _ _ _ (config_getitem_ok _ _ _ _ Hd1 Hck1)).
      rewrite (bind_ok _ _ _ _ _ (is_true_ok _ _)).
      cbn [truthy]. by rewrite Hl1. }
  split; [done|]. split; [done|]. split; [done|]. split; [done|].
  split; [done|]. intros k Hk. unfold d1. by rewrite od_get_set_ne.
Qed.

End clear.

Lemma cleared_cookies_are_not_sent_witness :
  exists s1 s2 d1 l,
    clear_cookies cookie_session = (Ok tt, s1)
    /\ @process_cookie_options reference_platform "http://www.example.com/" [] s1
       = (Ok None, s2)
    /\ cookies (self s2) = []
    /\ cfg_is s2 d1 /\ od_get "cookies" d1 = Some (VRef l)
    /\ heap s2 !! l = Some (ODict [])
    /\ length (heap cookie_session) <= l
    /\ forall k, k <> "cookies" ->
         od_get k d1 = od_get k [("cookiefile", VNone); ("cookies", VRef 1)].
Proof.
  apply (@cleared_cookies_are_not_sent reference_platform cookie_session
           [("cookiefile", VNone); ("cookies", VRef 1)] VNone
           "http://www.example.com/" []).
  - reflexivity.
  - reflexivity.
  - intros l Hl. discriminate Hl.
  - left. reflexivity.
Defined.

End ClearCookiesFacts.
